(** * PhishSniper: the feature-extraction and risk-scoring pipeline

    A shallow embedding of the Python package [phishsniper]
    ([modules/url_parser.py], [modules/brand_matcher.py],
    [modules/domain_intelligence.py], [modules/risk_engine.py],
    [result.py], [phishsniper.py]) together with the properties its
    specification states about it.

    Conventions of the embedding.
    - A Python [str] is a Rocq [string]; its characters are the code
      points 0..255 of [ascii].  Character-level algorithms work on the
      list of characters ([chars]).
    - A Python [int] is a [Z] (or a [nat] where the code only counts);
      a Python [float] is an IEEE-754 binary64 value of [SpecFloat].
    - A [dict] with a fixed set of keys is a record, absent keys are
      [None] fields; the weight table is a [gmap string Z]; a dict whose
      iteration order matters is an insertion-ordered association list.
    - A [for] loop is a [fold_left] of its body over the iterated
      sequence, the mutated locals being the accumulator.
    - A raised exception is the [Raise] case of [result].
    - Functions of other packages (urllib, tldextract, fuzzywuzzy, whois,
      socket, ipaddress, datetime) are the methods of the class
      [Externals]; the module [TestDouble] gives one instance to run the
      pipeline on concrete URLs. *)

From Stdlib Require Import ZArith List String Ascii Lia Bool.
From Stdlib Require Import Sorting.Permutation Sorting.Sorted.
From Stdlib Require Import Floats.SpecFloat.
From Stdlib Require Import DecimalString.
From stdpp Require Import base gmap strings list.
Import ListNotations.
Open Scope string_scope.
Open Scope list_scope.

(** ** Python values shared by all modules *)

Module Py.

(** Exceptions the modelled code can raise or let through. *)
Inductive exn : Type :=
| NameError (name : string)
| ValueError (msg : string)
| OtherError (msg : string).

Inductive result (A : Type) : Type :=
| Ok (a : A)
| Raise (e : exn).
Arguments Ok {A} a.
Arguments Raise {A} e.

Definition bind {A B} (r : result A) (k : A -> result B) : result B :=
  match r with
  | Ok a => k a
  | Raise e => Raise e
  end.

(** The value stored under the ["value"] key of a trait: text or number. *)
Inductive value : Type :=
| VStr (s : string)
| VInt (n : Z).

(** [str(n)] for an integer. *)
Definition str_of_Z (n : Z) : string := NilZero.string_of_int (Z.to_int n).

(** [enumerate(l)], started at [k]. *)
Fixpoint enumerate_from {A} (k : nat) (l : list A) : list (nat * A) :=
  match l with
  | [] => []
  | x :: l' => (k, x) :: enumerate_from (S k) l'
  end.

Definition enumerate {A} (l : list A) : list (nat * A) := enumerate_from 0 l.

End Py.

Export Py.

(** ** Strings *)

Module PyStr.

Definition chars (s : string) : list ascii := list_ascii_of_string s.
Definition of_chars (l : list ascii) : string := string_of_list_ascii l.

(** [len(s)] *)
Definition len (s : string) : nat := length (chars s).

Definition code (c : ascii) : nat := nat_of_ascii c.

Definition in_range (lo hi : nat) (c : ascii) : bool :=
  (lo <=? code c)%nat && (code c <=? hi)%nat.

(** Characters matched by [\d] and by [[0-9a-fA-F]]. *)
Definition is_digit (c : ascii) : bool := in_range 48 57 c.
Definition is_hex (c : ascii) : bool :=
  is_digit c || in_range 97 102 c || in_range 65 70 c.

(** Upper-case letters of the code points 0..255: A-Z and the Latin-1
    capitals (all of U+00C0..U+00DE but the multiplication sign). *)
Definition is_upper (c : ascii) : bool :=
  in_range 65 90 c || in_range 192 214 c || in_range 216 222 c.

(** [c.lower()] *)
Definition lower_char (c : ascii) : ascii :=
  if is_upper c then ascii_of_nat (code c + 32) else c.

(** [s.lower()] *)
Definition lower_chars (l : list ascii) : list ascii := map lower_char l.
Definition lower (s : string) : string := of_chars (lower_chars (chars s)).

(** [c.isalnum()] on the code points 0..255: the ASCII letters and digits,
    the Latin-1 letters, and the Latin-1 numeric characters. *)
Definition isalnum (c : ascii) : bool :=
  is_digit c || in_range 65 90 c || in_range 97 122 c
  || (code c =? 170)%nat || (code c =? 178)%nat || (code c =? 179)%nat
  || (code c =? 181)%nat || (code c =? 185)%nat || (code c =? 186)%nat
  || in_range 188 190 c
  || in_range 192 214 c || in_range 216 246 c || in_range 248 255 c.

(** [s.startswith(p)] on characters. *)
Fixpoint starts_with (p s : list ascii) : bool :=
  match p, s with
  | [], _ => true
  | _ :: _, [] => false
  | a :: p', b :: s' => Ascii.eqb a b && starts_with p' s'
  end.

(** [p in s] for strings: [p] occurs as a contiguous block of [s]. *)
Fixpoint contains_chars (p s : list ascii) : bool :=
  starts_with p s ||
  match s with
  | [] => false
  | _ :: s' => contains_chars p s'
  end.

Definition contains (p s : string) : bool := contains_chars (chars p) (chars s).

Definition startswith (s p : string) : bool := starts_with (chars p) (chars s).

(** [s.endswith(p)] *)
Definition endswith (s p : string) : bool :=
  starts_with (rev (chars p)) (rev (chars s)).

(** [s.replace(old, new)]: every occurrence of [old], left to right,
    without overlap.  [skip] counts the characters of a just-replaced
    occurrence that are still to be passed over. *)
Fixpoint replace_aux (old new : list ascii) (skip : nat) (s : list ascii) : list ascii :=
  match s with
  | [] => []
  | c :: s' =>
      match skip with
      | S k => replace_aux old new k s'
      | O =>
          if starts_with old s
          then new ++ replace_aux old new (length old - 1) s'
          else c :: replace_aux old new 0 s'
      end
  end.

(** With an empty [old], Python puts [new] around every character. *)
Definition replace_chars (old new s : list ascii) : list ascii :=
  match old with
  | [] => new ++ flat_map (fun c => c :: new) s
  | _ :: _ => replace_aux old new 0 s
  end.

Definition replace (s old new : string) : string :=
  of_chars (replace_chars (chars old) (chars new) (chars s)).

(** [s.count(old)] for a non-empty [old]: the occurrences [replace]
    rewrites. *)
Fixpoint count_aux (old : list ascii) (skip : nat) (s : list ascii) : nat :=
  match s with
  | [] => 0
  | c :: s' =>
      match skip with
      | S k => count_aux old k s'
      | O =>
          if starts_with old s
          then S (count_aux old (length old - 1) s')
          else count_aux old 0 s'
      end
  end.

(** How often a character occurs. *)
Definition count_char (c : ascii) (s : list ascii) : nat :=
  length (List.filter (Ascii.eqb c) s).

(** The effect of [replace] on one character when both texts are one
    character long. *)
Definition substitute (o r c : ascii) : ascii := if Ascii.eqb o c then r else c.

(** A string taken as a condition is true when it is not empty. *)
Definition truthy (s : string) : bool := negb (String.eqb s EmptyString).

(** [s.split(sep)] for a one-character separator. *)
Fixpoint split_chars (sep : ascii) (cur : list ascii) (s : list ascii) : list (list ascii) :=
  match s with
  | [] => [rev cur]
  | c :: s' =>
      if Ascii.eqb c sep then rev cur :: split_chars sep [] s'
      else split_chars sep (c :: cur) s'
  end.

Definition split (s : string) (sep : ascii) : list string :=
  map of_chars (split_chars sep [] (chars s)).

(** [c.isspace()] on the code points 0..255. *)
Definition isspace (c : ascii) : bool :=
  in_range 9 13 c || in_range 28 32 c || (code c =? 133)%nat || (code c =? 160)%nat.

(** [s.lstrip()] on characters. *)
Fixpoint lstrip_chars (s : list ascii) : list ascii :=
  match s with
  | [] => []
  | c :: s' => if isspace c then lstrip_chars s' else s
  end.

(** [s.strip()]: white space taken off both ends. *)
Definition strip_chars (s : list ascii) : list ascii :=
  rev (lstrip_chars (rev (lstrip_chars s))).

Definition strip (s : string) : string := of_chars (strip_chars (chars s)).

End PyStr.

(** ** Floating point, as far as the risk engine uses it *)

Module PyFloat.

Definition prec : Z := 53.
Definition emax : Z := 1024.

(** [float(n)]; exact for [|n| < 2^53], which covers every weight and
    similarity the pipeline handles. *)
Definition of_int (n : Z) : spec_float := binary_normalize prec emax n 0 false.

(** [a / b] on integers (true division), [b] not zero. *)
Definition truediv (a b : Z) : spec_float := SFdiv prec emax (of_int a) (of_int b).

(** [n * x] for an integer [n] and a float [x]. *)
Definition mul_int (n : Z) (x : spec_float) : spec_float := SFmul prec emax (of_int n) x.

(** [int(x)]: truncation toward zero of a finite float. *)
Definition to_int (x : spec_float) : Z :=
  match x with
  | S754_finite s m e =>
      let v := if (0 <=? e)%Z then (Z.pos m * 2 ^ e)%Z
               else Z.quot (Z.pos m) (2 ^ (- e)) in
      if s then (- v)%Z else v
  | _ => 0%Z
  end.

End PyFloat.

(** ** Records exchanged between the modules *)

(** A suspicious trait: [{"type": .., "value": .., "description": ..}]. *)
Record Trait : Type := mkTrait {
  trait_type : string;
  trait_value : value;
  trait_description : string
}.

(** A brand match; ["similarity"], ["levenshtein"] and ["substitution"]
    are keys only some kinds of match carry. *)
Record BrandMatch : Type := mkBrandMatch {
  match_type : string;
  match_brand : string;
  match_value : string;
  match_similarity : option Z;
  match_levenshtein : option nat;
  match_substitution : option string;
  match_description : string
}.

(** A risk factor: [{"type": .., "weight": .., "description": ..}]. *)
Record RiskFactor : Type := mkRiskFactor {
  factor_type : string;
  factor_weight : Z;
  factor_description : string
}.

(** [urllib.parse.ParseResult] *)
Record ParseResult : Type := mkParseResult {
  scheme : string;
  netloc : string;
  path : string;
  params : string;
  query : string;
  fragment : string
}.

(** [tldextract.ExtractResult] *)
Record ExtractResult : Type := mkExtractResult {
  subdomain : string;
  domain : string;
  suffix : string
}.

(** A date attribute of a WHOIS entry: absent, one datetime, or a list of
    datetimes.  A datetime is a count of microseconds. *)
Inductive date_value : Type :=
| DateNone
| DateOne (t : Z)
| DateList (ts : list Z).

(** The attributes of a [whois.whois] answer the code reads. *)
Record WhoisEntry : Type := mkWhoisEntry {
  domain_name : option string;
  whois_creation_date : date_value;
  whois_expiration_date : date_value;
  whois_updated_date : date_value;
  whois_registrar : option string
}.

(** The dictionary built by [URLParser.parse]. *)
Record UrlFeatures : Type := mkUrlFeatures {
  uf_url : string;
  uf_scheme : string;
  uf_hostname : string;
  uf_path : string;
  uf_query : string;
  uf_fragment : string;
  uf_domain : string;
  uf_subdomain : string;
  uf_tld : string;
  uf_query_params : list (string * list string);
  uf_suspicious_traits : list Trait
}.

(** The dictionary built by [DomainIntelligence.analyze]. *)
Record DomainInfo : Type := mkDomainInfo {
  di_domain : string;
  domain_exists : bool;
  creation_date : option Z;
  expiration_date : option Z;
  last_updated : option Z;
  registrar : option string;
  domain_age_days : option Z;
  di_suspicious_traits : list Trait
}.

(** The dictionary [calculate_risk] receives.  It tests for the keys
    ["suspicious_traits"], ["domain_info"] and ["brand_matches"], so each
    may be absent; the remaining keys of the parser are carried along. *)
Record Features : Type := mkFeatures {
  url_features : option UrlFeatures;
  suspicious_traits : option (list Trait);
  domain_info : option DomainInfo;
  brand_matches : option (list BrandMatch)
}.

(** ** The packages the pipeline calls *)

Class Externals : Type := {
  (** [urllib.parse.urlparse]; raises [ValueError] on some inputs. *)
  urlparse : string -> result ParseResult;
  (** [ParseResult.geturl] *)
  geturl : ParseResult -> string;
  (** [urllib.parse.parse_qs] *)
  parse_qs : string -> list (string * list string);
  (** [tldextract.extract] *)
  tldextract_extract : string -> ExtractResult;
  (** [fuzzywuzzy.fuzz.ratio] *)
  fuzz_ratio : string -> string -> Z;
  (** [whois.whois]: the registry answer, or the exception of a failed lookup. *)
  whois_whois : string -> result WhoisEntry;
  (** [socket.inet_aton] accepts the text. *)
  inet_aton_accepts : string -> bool;
  (** [ipaddress.ip_address(ip).is_private]; [ValueError] when [ip] does not parse. *)
  ip_address_is_private : string -> result bool;
  (** [datetime.datetime.now()] *)
  datetime_now : Z
}.

(** [str(e)] for an exception. *)
Definition exn_str (e : exn) : string :=
  match e with
  | NameError n => "name '" +:+ n +:+ "' is not defined"
  | ValueError m => m
  | OtherError m => m
  end.

(** ** modules/brand_matcher.py *)

Module BrandMatcher.
Import PyStr.

(** The attributes of a [BrandMatcher] object. *)
Record t : Type := mk {
  brands : list string;
  fuzzy_threshold : Z;
  levenshtein_threshold : nat
}.

Definition default_brands : list string :=
  [ "google"; "microsoft"; "apple"; "amazon"; "facebook"; "paypal";
    "netflix"; "instagram"; "twitter"; "linkedin"; "dropbox"; "yahoo";
    "chase"; "bankofamerica"; "wellsfargo"; "citibank"; "hsbc"; "barclays";
    "americanexpress"; "mastercard"; "visa"; "outlook"; "gmail"; "icloud";
    "office365"; "onedrive"; "dropbox"; "box"; "adobe"; "spotify";
    "steam"; "epicgames"; "blizzard"; "ea"; "ubisoft"; "nintendo";
    "playstation"; "xbox"; "twitch"; "youtube"; "walmart"; "target";
    "ebay"; "aliexpress"; "fedex"; "ups"; "dhl"; "usps" ].

(** [_load_brands]: the content of a readable brand file, or the default
    list when no file is given or it cannot be loaded. *)
Definition _load_brands (loaded : option (list string)) : list string :=
  match loaded with
  | Some l => l
  | None => default_brands
  end.

(** [BrandMatcher(brands_file)] *)
Definition init (loaded : option (list string)) : t :=
  {| brands := _load_brands loaded;
     fuzzy_threshold := 85;
     levenshtein_threshold := 2 |}.

(** *** [_levenshtein_distance] *)

(** [min(a, b, c)] *)
Definition min3 (a b c : nat) : nat := Nat.min (Nat.min a b) c.

(** The body of the inner loop [for j, c2 in enumerate(s2)].  The rows
    are read inside their bounds ([previous_row] has [len(s2) + 1]
    entries, [current_row] has [j + 1]), so the default of [nth] is
    never used. *)
Definition lev_inner (c1 : ascii) (previous_row : list nat)
    (current_row : list nat) (jc2 : nat * ascii) : list nat :=
  let '(j, c2) := jc2 in
  let insertions := nth (j + 1) previous_row 0 + 1 in
  let deletions := nth j current_row 0 + 1 in
  let substitutions := nth j previous_row 0 + (if Ascii.eqb c1 c2 then 0 else 1) in
  current_row ++ [min3 insertions deletions substitutions].

(** The body of the outer loop [for i, c1 in enumerate(s1)]. *)
Definition lev_outer (s2 : list ascii) (previous_row : list nat)
    (ic1 : nat * ascii) : list nat :=
  let '(i, c1) := ic1 in
  fold_left (lev_inner c1 previous_row) (enumerate s2) [i + 1].

(** The function below its first test, where [len(s1) >= len(s2)]. *)
Definition lev_rows (s1 s2 : list ascii) : nat :=
  if (length s2 =? 0)%nat then length s1
  else
    let previous_row := seq 0 (length s2 + 1) in
    let previous_row := fold_left (lev_outer s2) (enumerate s1) previous_row in
    List.last previous_row 0.

(** The one recursive call swaps the arguments, after which the test
    [len(s1) < len(s2)] fails; it is unfolded here. *)
Definition lev_chars (s1 s2 : list ascii) : nat :=
  if (length s1 <? length s2)%nat then lev_rows s2 s1 else lev_rows s1 s2.

Definition _levenshtein_distance (s1 s2 : string) : nat :=
  lev_chars (chars s1) (chars s2).

(** *** [_check_homoglyphs] *)

(** A [dict] in insertion order: storing under a key that is present
    replaces the value and keeps the key's position. *)
Fixpoint dict_set (d : list (string * string)) (k v : string) : list (string * string) :=
  match d with
  | [] => [(k, v)]
  | (k', v') :: d' =>
      if String.eqb k' k then (k', v) :: d' else (k', v') :: dict_set d' k v
  end.

(** A dict display [{k1: v1, k2: v2, ...}] stores its entries one by one. *)
Definition dict_display (entries : list (string * string)) : list (string * string) :=
  fold_left (fun d kv => dict_set d (fst kv) (snd kv)) entries [].

(** The display of [homoglyphs], entry by entry as written. *)
Definition homoglyphs_display : list (string * string) :=
  [ ("0", "o"); ("o", "0");
    ("1", "l"); ("l", "1"); ("i", "1"); ("1", "i");
    ("5", "s"); ("s", "5");
    ("rn", "m"); ("m", "rn");
    ("cl", "d"); ("d", "cl");
    ("vv", "w"); ("w", "vv");
    ("nn", "m"); ("m", "nn") ].

Definition homoglyphs : list (string * string) := dict_display homoglyphs_display.

Definition homoglyph_attack (brand domain original replacement : string) : BrandMatch :=
  {| match_type := "homoglyph_attack";
     match_brand := brand;
     match_value := domain;
     match_similarity := None;
     match_levenshtein := None;
     match_substitution := Some ("'" +:+ original +:+ "' to '" +:+ replacement +:+ "'");
     match_description :=
       "Homoglyph attack on '" +:+ brand +:+ "' (replacing '" +:+ original
       +:+ "' with '" +:+ replacement +:+ "')" |}.

Definition partial_homoglyph (brand domain original replacement : string) : BrandMatch :=
  {| match_type := "partial_homoglyph";
     match_brand := brand;
     match_value := domain;
     match_similarity := None;
     match_levenshtein := None;
     match_substitution := Some ("'" +:+ original +:+ "' to '" +:+ replacement +:+ "'");
     match_description := "Partial homoglyph match for '" +:+ brand +:+ "' in domain" |}.

(** The body of [for original, replacement in homoglyphs.items()]. *)
Definition homoglyph_entry (domain brand : string) (matches : list BrandMatch)
    (entry : string * string) : list BrandMatch :=
  let '(original, replacement) := entry in
  if contains original brand then
    let modified_brand := replace brand original replacement in
    if String.eqb (lower domain) (lower modified_brand) then
      matches ++ [homoglyph_attack brand domain original replacement]
    else if contains (lower modified_brand) (lower domain) then
      matches ++ [partial_homoglyph brand domain original replacement]
    else matches
  else matches.

(** The body of [for brand in self.brands]. *)
Definition homoglyph_brand (table : list (string * string)) (domain : string)
    (matches : list BrandMatch) (brand : string) : list BrandMatch :=
  if (len brand <? 4)%nat then matches
  else fold_left (homoglyph_entry domain brand) table matches.

Definition _check_homoglyphs (self : t) (domain : string) : list BrandMatch :=
  fold_left (homoglyph_brand homoglyphs domain) (brands self) [].

(** A table entry changes every brand it applies to, also when case is
    set aside. *)
Definition never_own_lowering (entry : string * string) : Prop :=
  forall brand,
    contains (fst entry) brand = true ->
    lower (replace brand (fst entry) (snd entry)) <> lower brand.

(** The kinds of match the self-match exclusion is about. *)
Definition self_match_free (brand : string) (m : BrandMatch) : Prop :=
  match_brand m = brand ->
  match_type m <> "brand_in_domain"
  /\ match_type m <> "typosquatting"
  /\ match_type m <> "homoglyph_attack".

(** The match is a [brand_in_domain] match for the given brand. *)
Definition is_brand_in_domain_of (brand : string) (m : BrandMatch) : bool :=
  String.eqb (match_type m) "brand_in_domain" && String.eqb (match_brand m) brand.

(** *** [find_matches] *)

Definition brand_in_domain (brand domain : string) : BrandMatch :=
  {| match_type := "brand_in_domain";
     match_brand := brand;
     match_value := domain;
     match_similarity := None;
     match_levenshtein := None;
     match_substitution := None;
     match_description := "Brand '" +:+ brand +:+ "' found in domain" |}.

Definition brand_in_subdomain (brand sub : string) : BrandMatch :=
  {| match_type := "brand_in_subdomain";
     match_brand := brand;
     match_value := sub;
     match_similarity := None;
     match_levenshtein := None;
     match_substitution := None;
     match_description := "Brand '" +:+ brand +:+ "' found in subdomain" |}.

Definition typosquatting (brand domain : string) (ratio : Z) (levenshtein : nat) : BrandMatch :=
  {| match_type := "typosquatting";
     match_brand := brand;
     match_value := domain;
     match_similarity := Some ratio;
     match_levenshtein := Some levenshtein;
     match_substitution := None;
     match_description :=
       "Possible typosquatting of '" +:+ brand +:+ "' (similarity: "
       +:+ str_of_Z ratio +:+ "%)" |}.

(** The second test of the first loop: the brand in the subdomain. *)
Definition subdomain_check (extracted : ExtractResult) (matches : list BrandMatch)
    (brand : string) : list BrandMatch :=
  if truthy (subdomain extracted) && contains brand (lower (subdomain extracted))
  then matches ++ [brand_in_subdomain brand (subdomain extracted)]
  else matches.

(** The body of the first loop.  The [continue] of the exact-name test
    also leaves out the subdomain test of that round. *)
Definition exact_brand (extracted : ExtractResult) (matches : list BrandMatch)
    (brand : string) : list BrandMatch :=
  let domain := domain extracted in
  if contains brand (lower domain) then
    if String.eqb (lower domain) (lower brand) then matches
    else subdomain_check extracted (matches ++ [brand_in_domain brand domain]) brand
  else subdomain_check extracted matches brand.

Section WithExternals.
Context `{Externals}.

(** The body of the second loop. *)
Definition typo_brand (self : t) (domain : string) (matches : list BrandMatch)
    (brand : string) : list BrandMatch :=
  if (len brand <? 4)%nat then matches
  else
    let ratio := fuzz_ratio (lower domain) (lower brand) in
    let levenshtein := _levenshtein_distance (lower domain) (lower brand) in
    if (fuzzy_threshold self <=? ratio)%Z
       || ((levenshtein <=? levenshtein_threshold self)%nat && (4 <? len brand)%nat)
    then
      if String.eqb (lower domain) (lower brand) then matches
      else matches ++ [typosquatting brand domain ratio levenshtein]
    else matches.

Definition find_matches (self : t) (hostname : string) : list BrandMatch :=
  let extracted := tldextract_extract hostname in
  let domain := domain extracted in
  let matches := [] in
  let matches := fold_left (exact_brand extracted) (brands self) matches in
  let matches := fold_left (typo_brand self domain) (brands self) matches in
  let homoglyph_matches := _check_homoglyphs self domain in
  matches ++ homoglyph_matches.

(** Why the first pass reports a match for a brand. *)
Definition exact_reason (extracted : ExtractResult) (brand : string) (m : BrandMatch) : Prop :=
  (m = brand_in_domain brand (domain extracted)
   /\ contains brand (lower (domain extracted)) = true
   /\ lower (domain extracted) <> lower brand)
  \/ (m = brand_in_subdomain brand (subdomain extracted)
      /\ subdomain extracted <> EmptyString
      /\ contains brand (lower (subdomain extracted)) = true
      /\ ~ (contains brand (lower (domain extracted)) = true
            /\ lower (domain extracted) = lower brand)).

(** Why the second pass reports a match for a brand. *)
Definition typo_reason (self : t) (label brand : string) (m : BrandMatch) : Prop :=
  m = typosquatting brand label
        (fuzz_ratio (lower label) (lower brand))
        (_levenshtein_distance (lower label) (lower brand))
  /\ 4 <= len brand
  /\ ((fuzzy_threshold self <= fuzz_ratio (lower label) (lower brand))%Z
      \/ (_levenshtein_distance (lower label) (lower brand) <= levenshtein_threshold self
          /\ 4 < len brand))
  /\ lower label <> lower brand.

(** Why the third pass reports a match for a brand. *)
Definition homoglyph_reason (label brand : string) (m : BrandMatch) : Prop :=
  4 <= len brand
  /\ exists original replacement,
       In (original, replacement) homoglyphs
       /\ contains original brand = true
       /\ ((m = homoglyph_attack brand label original replacement
            /\ lower label = lower (replace brand original replacement))
           \/ (m = partial_homoglyph brand label original replacement
               /\ lower label <> lower (replace brand original replacement)
               /\ contains (lower (replace brand original replacement)) (lower label)
                  = true)).

(** Why [find_matches] reports a match: for a brand of the list, one of
    the three passes has its reason. *)
Definition reported (self : t) (hostname : string) (m : BrandMatch) : Prop :=
  exists brand,
    In brand (brands self)
    /\ (exact_reason (tldextract_extract hostname) brand m
        \/ typo_reason self (domain (tldextract_extract hostname)) brand m
        \/ homoglyph_reason (domain (tldextract_extract hostname)) brand m).

End WithExternals.

(** A replacement text has more of some character than the text it
    stands for, case set aside. *)
Definition adds_a_character (entry : string * string) : Prop :=
  exists c,
    count_char c (lower_chars (chars (fst entry)))
    < count_char c (lower_chars (chars (snd entry))).

End BrandMatcher.

(** ** modules/url_parser.py *)

Module URLParser.
Import PyStr.

Record t : Type := mk {
  suspicious_tlds : gset string
}.

Definition init : t :=
  {| suspicious_tlds :=
       list_to_set
         [ "tk"; "ml"; "ga"; "cf"; "gq"; "xyz"; "top"; "work"; "date"; "bid";
           "stream"; "racing"; "win"; "review"; "country"; "science"; "download" ] |}.

(** [pattern.search(s)]: the pattern matches at some position of [s]. *)
Fixpoint search (match_at : list ascii -> bool) (s : list ascii) : bool :=
  match_at s ||
  match s with
  | [] => false
  | _ :: s' => search match_at s'
  end.

(** [%[0-9a-fA-F]{2}] at the head of the text. *)
Definition hex_at (s : list ascii) : bool :=
  match s with
  | c :: a :: b :: _ => Ascii.eqb c "%" && is_hex a && is_hex b
  | _ => false
  end.

Definition hex_pattern_search (s : string) : bool := search hex_at (chars s).

(** [\d{1,3}] followed by the rest [k] of a pattern.  Only whether some
    match exists is used, so every admissible number of digits is tried. *)
Definition digits_1_3 (k : list ascii -> bool) (s : list ascii) : bool :=
  match s with
  | d1 :: s1 =>
      is_digit d1 &&
      (k s1 ||
       match s1 with
       | d2 :: s2 =>
           is_digit d2 &&
           (k s2 ||
            match s2 with
            | d3 :: s3 => is_digit d3 && k s3
            | [] => false
            end)
       | [] => false
       end)
  | [] => false
  end.

(** [\.] followed by [k]. *)
Definition dot (k : list ascii -> bool) (s : list ascii) : bool :=
  match s with
  | c :: s' => Ascii.eqb c "." && k s'
  | [] => false
  end.

(** [\d{1,3}\.\d{1,3}\.\d{1,3}\.\d{1,3}] at the head of the text. *)
Definition ip_at : list ascii -> bool :=
  digits_1_3 (dot (digits_1_3 (dot (digits_1_3 (dot (digits_1_3 (fun _ => true))))))).

Definition ip_pattern_search (s : string) : bool := search ip_at (chars s).

(** [count] of the generator in the special-character test. *)
Definition special_count (netloc : string) : nat :=
  length
    (List.filter
       (fun c => negb (isalnum c)
                 && negb (Ascii.eqb c "." || Ascii.eqb c "-" || Ascii.eqb c ":"))
       (chars netloc)).

Definition first_part (s : string) : string := hd EmptyString (split s ":").
Definition last_part (s : string) : string := List.last (split s ":") EmptyString.

Section WithExternals.
Context `{Externals}.

(** [_analyze_suspicious_traits].  The hex-encoding branch reads the name
    [url], which is neither a parameter nor a local or global of the
    module: reaching it raises [NameError] before anything is appended. *)
Definition _analyze_suspicious_traits (self : t) (parsed : ParseResult)
    (extracted : ExtractResult) : result (list Trait) :=
  let suspicious_traits : list Trait := [] in
  let netloc := netloc parsed in
  let suspicious_traits :=
    if contains ":" netloc && negb (endswith netloc ":80" || endswith netloc ":443")
    then
      let port := last_part netloc in
      suspicious_traits ++
        [ {| trait_type := "non_standard_port";
             trait_value := VStr port;
             trait_description := "Non-standard port " +:+ port +:+ " in use" |} ]
    else suspicious_traits in
  let suspicious_traits :=
    if ip_pattern_search (first_part netloc) then
      let suspicious_traits :=
        suspicious_traits ++
          [ {| trait_type := "ip_address";
               trait_value := VStr (first_part netloc);
               trait_description := "IP address used instead of domain name" |} ] in
      let ip := first_part netloc in
      match ip_address_is_private ip with
      | Ok true =>
          suspicious_traits ++
            [ {| trait_type := "private_ip";
                 trait_value := VStr ip;
                 trait_description := "Private IP address used" |} ]
      | Ok false => suspicious_traits
      | Raise _ => suspicious_traits
      end
    else suspicious_traits in
  let subdomain_parts := split (subdomain extracted) "." in
  let suspicious_traits :=
    if (3 <? length subdomain_parts)%nat then
      suspicious_traits ++
        [ {| trait_type := "many_subdomains";
             trait_value := VStr (subdomain extracted);
             trait_description :=
               "Excessive number of subdomains ("
               +:+ str_of_Z (Z.of_nat (length subdomain_parts)) +:+ ")" |} ]
    else suspicious_traits in
  let suspicious_traits :=
    if bool_decide (suffix extracted ∈ suspicious_tlds self) then
      suspicious_traits ++
        [ {| trait_type := "suspicious_tld";
             trait_value := VStr (suffix extracted);
             trait_description := "Suspicious TLD '" +:+ suffix extracted +:+ "'" |} ]
    else suspicious_traits in
  bind
    (if hex_pattern_search netloc || hex_pattern_search (path parsed)
     then Raise (NameError "url")
     else Ok suspicious_traits)
    (fun suspicious_traits =>
  let suspicious_traits :=
    if contains "xn--" netloc then
      suspicious_traits ++
        [ {| trait_type := "punycode";
             trait_value := VStr netloc;
             trait_description := "Punycode (IDN) encoding detected" |} ]
    else suspicious_traits in
  let url_length := len (geturl parsed) in
  let suspicious_traits :=
    if (100 <? url_length)%nat then
      suspicious_traits ++
        [ {| trait_type := "long_url";
             trait_value := VInt (Z.of_nat url_length);
             trait_description :=
               "Excessively long URL (" +:+ str_of_Z (Z.of_nat url_length)
               +:+ " characters)" |} ]
    else suspicious_traits in
  let special_chars := special_count netloc in
  let suspicious_traits :=
    if (3 <? special_chars)%nat then
      suspicious_traits ++
        [ {| trait_type := "special_chars";
             trait_value := VInt (Z.of_nat special_chars);
             trait_description :=
               "Excessive special characters in domain ("
               +:+ str_of_Z (Z.of_nat special_chars) +:+ ")" |} ]
    else suspicious_traits in
  Ok suspicious_traits).

(** The tests of [_analyze_suspicious_traits] one by one, each as what
    it does to the list of traits. *)
Definition port_test (parsed : ParseResult) (suspicious_traits : list Trait) : list Trait :=
  let netloc := netloc parsed in
  if contains ":" netloc && negb (endswith netloc ":80" || endswith netloc ":443")
  then
    let port := last_part netloc in
    suspicious_traits ++
      [ {| trait_type := "non_standard_port";
           trait_value := VStr port;
           trait_description := "Non-standard port " +:+ port +:+ " in use" |} ]
  else suspicious_traits.

Definition ip_test (parsed : ParseResult) (suspicious_traits : list Trait) : list Trait :=
  let netloc := netloc parsed in
  if ip_pattern_search (first_part netloc) then
    let suspicious_traits :=
      suspicious_traits ++
        [ {| trait_type := "ip_address";
             trait_value := VStr (first_part netloc);
             trait_description := "IP address used instead of domain name" |} ] in
    let ip := first_part netloc in
    match ip_address_is_private ip with
    | Ok true =>
        suspicious_traits ++
          [ {| trait_type := "private_ip";
               trait_value := VStr ip;
               trait_description := "Private IP address used" |} ]
    | Ok false => suspicious_traits
    | Raise _ => suspicious_traits
    end
  else suspicious_traits.

Definition subdomain_test (extracted : ExtractResult) (suspicious_traits : list Trait)
    : list Trait :=
  let subdomain_parts := split (subdomain extracted) "." in
  if (3 <? length subdomain_parts)%nat then
    suspicious_traits ++
      [ {| trait_type := "many_subdomains";
           trait_value := VStr (subdomain extracted);
           trait_description :=
             "Excessive number of subdomains ("
             +:+ str_of_Z (Z.of_nat (length subdomain_parts)) +:+ ")" |} ]
  else suspicious_traits.

Definition tld_test (self : t) (extracted : ExtractResult) (suspicious_traits : list Trait)
    : list Trait :=
  if bool_decide (suffix extracted ∈ suspicious_tlds self) then
    suspicious_traits ++
      [ {| trait_type := "suspicious_tld";
           trait_value := VStr (suffix extracted);
           trait_description := "Suspicious TLD '" +:+ suffix extracted +:+ "'" |} ]
  else suspicious_traits.

Definition punycode_test (parsed : ParseResult) (suspicious_traits : list Trait) : list Trait :=
  if contains "xn--" (netloc parsed) then
    suspicious_traits ++
      [ {| trait_type := "punycode";
           trait_value := VStr (netloc parsed);
           trait_description := "Punycode (IDN) encoding detected" |} ]
  else suspicious_traits.

Definition length_test (parsed : ParseResult) (suspicious_traits : list Trait) : list Trait :=
  let url_length := len (geturl parsed) in
  if (100 <? url_length)%nat then
    suspicious_traits ++
      [ {| trait_type := "long_url";
           trait_value := VInt (Z.of_nat url_length);
           trait_description :=
             "Excessively long URL (" +:+ str_of_Z (Z.of_nat url_length)
             +:+ " characters)" |} ]
  else suspicious_traits.

Definition special_test (parsed : ParseResult) (suspicious_traits : list Trait) : list Trait :=
  let special_chars := special_count (netloc parsed) in
  if (3 <? special_chars)%nat then
    suspicious_traits ++
      [ {| trait_type := "special_chars";
           trait_value := VInt (Z.of_nat special_chars);
           trait_description :=
             "Excessive special characters in domain ("
             +:+ str_of_Z (Z.of_nat special_chars) +:+ ")" |} ]
  else suspicious_traits.

(** The first statement of [parse]: a missing scheme becomes [http://]. *)
Definition ensure_scheme (url : string) : string :=
  if negb (startswith url "http://" || startswith url "https://")
  then "http://" +:+ url
  else url.

Definition parse (self : t) (url : string) : result UrlFeatures :=
  let url := ensure_scheme url in
  bind (urlparse url) (fun parsed =>
  let extracted := tldextract_extract url in
  let query_params := parse_qs (query parsed) in
  bind (_analyze_suspicious_traits self parsed extracted) (fun suspicious_traits =>
  Ok {| uf_url := url;
        uf_scheme := scheme parsed;
        uf_hostname := netloc parsed;
        uf_path := path parsed;
        uf_query := query parsed;
        uf_fragment := fragment parsed;
        uf_domain := domain extracted;
        uf_subdomain := subdomain extracted;
        uf_tld := suffix extracted;
        uf_query_params := query_params;
        uf_suspicious_traits := suspicious_traits |})).

End WithExternals.

End URLParser.

(** ** modules/domain_intelligence.py *)

Module DomainIntelligence.
Import PyStr.

Record t : Type := mk {
  suspicious_registrars : list string;
  min_domain_age : Z
}.

Definition init : t :=
  {| suspicious_registrars :=
       [ "namecheap"; "namesilo"; "namebright"; "porkbun";
         "dynadot"; "internetbs"; "epik"; "regru" ];
     min_domain_age := 30 |}.

(** [_get_first_date] *)
Definition _get_first_date (date_value : date_value) : option Z :=
  match date_value with
  | DateNone => None
  | DateList [] => None
  | DateList (t :: _) => Some t
  | DateOne t => Some t
  end.

(** [timedelta.days] of a difference of two datetimes. *)
Definition days (delta : Z) : Z := (delta / 86400000000)%Z.

(** What an analysis did besides computing its result: the domains it
    asked [whois.whois] about, in order. *)
Definition lookups : Type := list string.

Definition set_traits (r : DomainInfo) (traits : list Trait) : DomainInfo :=
  {| di_domain := di_domain r;
     domain_exists := domain_exists r;
     creation_date := creation_date r;
     expiration_date := expiration_date r;
     last_updated := last_updated r;
     registrar := registrar r;
     domain_age_days := domain_age_days r;
     di_suspicious_traits := traits |}.

(** [result["suspicious_traits"].append(trait)] *)
Definition append_trait (r : DomainInfo) (trait : Trait) : DomainInfo :=
  set_traits r (di_suspicious_traits r ++ [trait]).

(** The first statement of [analyze]: a port, if any, is cut off. *)
Definition strip_port (hostname : string) : string :=
  if contains ":" hostname then hd EmptyString (split hostname ":") else hostname.

Section WithExternals.
Context `{Externals}.

(** [_is_ip_address] *)
Definition _is_ip_address (hostname : string) : bool := inet_aton_accepts hostname.

(** The statements of the [try] block after a successful lookup that
    found the domain. *)
Definition record_whois (self : t) (result : DomainInfo) (whois_info : WhoisEntry) : DomainInfo :=
  let result :=
    {| di_domain := di_domain result;
       domain_exists := true;
       creation_date := _get_first_date (whois_creation_date whois_info);
       expiration_date := _get_first_date (whois_expiration_date whois_info);
       last_updated := _get_first_date (whois_updated_date whois_info);
       registrar := whois_registrar whois_info;
       domain_age_days := domain_age_days result;
       di_suspicious_traits := di_suspicious_traits result |} in
  let result :=
    match creation_date result with
    | Some created =>
        let age := (datetime_now - created)%Z in
        let result :=
          {| di_domain := di_domain result;
             domain_exists := domain_exists result;
             creation_date := creation_date result;
             expiration_date := expiration_date result;
             last_updated := last_updated result;
             registrar := registrar result;
             domain_age_days := Some (days age);
             di_suspicious_traits := di_suspicious_traits result |} in
        if (days age <? min_domain_age self)%Z then
          append_trait result
            {| trait_type := "new_domain";
               trait_value := VInt (days age);
               trait_description :=
                 "Domain was registered recently (" +:+ str_of_Z (days age)
                 +:+ " days ago)" |}
        else result
    | None => result
    end in
  let result :=
    match registrar result with
    | Some reg =>
        if truthy reg
           && existsb (fun sr => contains sr (lower reg)) (suspicious_registrars self)
        then
          append_trait result
            {| trait_type := "suspicious_registrar";
               trait_value := VStr reg;
               trait_description :=
                 "Domain registered with suspicious registrar: " +:+ reg |}
        else result
    | None => result
    end in
  match creation_date result, expiration_date result with
  | Some created, Some expires =>
      let registration_period := (expires - created)%Z in
      if (days registration_period <? 365)%Z then
        append_trait result
          {| trait_type := "short_registration";
             trait_value := VInt (days registration_period);
             trait_description :=
               "Short registration period (" +:+ str_of_Z (days registration_period)
               +:+ " days)" |}
      else result
  | _, _ => result
  end.

Definition analyze (self : t) (hostname : string) : DomainInfo * lookups :=
  let hostname := strip_port hostname in
  let extracted := tldextract_extract hostname in
  let domain :=
    if truthy (suffix extracted)
    then domain extracted +:+ "." +:+ suffix extracted
    else domain extracted in
  let result :=
    {| di_domain := domain;
       domain_exists := false;
       creation_date := None;
       expiration_date := None;
       last_updated := None;
       registrar := None;
       domain_age_days := None;
       di_suspicious_traits := [] |} in
  if _is_ip_address hostname then
    (append_trait result
       {| trait_type := "ip_address_no_whois";
          trait_value := VStr hostname;
          trait_description :=
            "IP address used instead of domain name (no WHOIS data)" |},
     [])
  else
    match whois_whois domain with
    | Ok whois_info =>
        match domain_name whois_info with
        | None =>
            (append_trait result
               {| trait_type := "non_existent_domain";
                  trait_value := VStr domain;
                  trait_description := "Domain does not exist in WHOIS records" |},
             [domain])
        | Some _ => (record_whois self result whois_info, [domain])
        end
    | Raise e =>
        (append_trait result
           {| trait_type := "whois_lookup_failed";
              trait_value := VStr (exn_str e);
              trait_description :=
                "WHOIS lookup failed, which may indicate a suspicious domain" |},
         [domain])
    end.

(** The three traits of a registered domain, each as the list of zero or
    one trait it adds. *)
Definition new_domain_traits (self : t) (created : option Z) : list Trait :=
  match created with
  | Some created =>
      let age := (datetime_now - created)%Z in
      if (days age <? min_domain_age self)%Z then
        [ {| trait_type := "new_domain";
             trait_value := VInt (days age);
             trait_description :=
               "Domain was registered recently (" +:+ str_of_Z (days age)
               +:+ " days ago)" |} ]
      else []
  | None => []
  end.

Definition registrar_traits (self : t) (reg : option string) : list Trait :=
  match reg with
  | Some reg =>
      if truthy reg
         && existsb (fun sr => contains sr (lower reg)) (suspicious_registrars self)
      then
        [ {| trait_type := "suspicious_registrar";
             trait_value := VStr reg;
             trait_description :=
               "Domain registered with suspicious registrar: " +:+ reg |} ]
      else []
  | None => []
  end.

Definition short_registration_traits (created expires : option Z) : list Trait :=
  match created, expires with
  | Some created, Some expires =>
      let registration_period := (expires - created)%Z in
      if (days registration_period <? 365)%Z then
        [ {| trait_type := "short_registration";
             trait_value := VInt (days registration_period);
             trait_description :=
               "Short registration period (" +:+ str_of_Z (days registration_period)
               +:+ " days)" |} ]
      else []
  | _, _ => []
  end.

End WithExternals.

End DomainIntelligence.

(** ** modules/risk_engine.py *)

Module RiskEngine.

Record t : Type := mk {
  risk_weights : gmap string Z;
  max_risk_score : Z
}.

(** A dict display with integer values: later entries are stored last. *)
Definition weights_display (entries : list (string * Z)) : gmap string Z :=
  fold_left (fun m kv => <[fst kv := snd kv]> m) entries ∅.

Definition init : t :=
  {| risk_weights :=
       weights_display
         [ ("non_standard_port", 15); ("ip_address", 25); ("private_ip", 30);
           ("many_subdomains", 15); ("suspicious_tld", 20); ("hex_encoding", 30);
           ("punycode", 25); ("long_url", 10); ("special_chars", 15);
           ("non_existent_domain", 40); ("whois_lookup_failed", 15);
           ("new_domain", 25); ("suspicious_registrar", 15);
           ("short_registration", 20); ("ip_address_no_whois", 25);
           ("brand_in_domain", 15); ("brand_in_subdomain", 20);
           ("typosquatting", 40); ("homoglyph_attack", 50);
           ("partial_homoglyph", 35) ]%Z;
     max_risk_score := 100 |}.

(** The locals the three loops update: [total_weight] and [risk_factors]. *)
Definition state : Type := (Z * list RiskFactor)%type.

(** The body of the two loops over suspicious traits. *)
Definition trait_step (self : t) (st : state) (trait : Trait) : state :=
  let '(total_weight, risk_factors) := st in
  let trait_type := trait_type trait in
  match risk_weights self !! trait_type with
  | Some weight =>
      ((total_weight + weight)%Z,
       risk_factors ++
         [ {| factor_type := trait_type;
              factor_weight := weight;
              factor_description := trait_description trait |} ])
  | None => st
  end.

(** [int(weight * (similarity / 100))] *)
Definition scale_by_similarity (weight similarity : Z) : Z :=
  let similarity_factor := PyFloat.truediv similarity 100 in
  PyFloat.to_int (PyFloat.mul_int weight similarity_factor).

(** The weight recorded for a brand match whose kind has the table weight
    [weight]. *)
Definition match_weight (weight : Z) (m : BrandMatch) : Z :=
  if String.eqb (match_type m) "typosquatting" then
    match match_similarity m with
    | Some similarity => scale_by_similarity weight similarity
    | None => weight
    end
  else weight.

(** The body of the loop over brand matches. *)
Definition match_step (self : t) (st : state) (m : BrandMatch) : state :=
  let '(total_weight, risk_factors) := st in
  let match_type := match_type m in
  match risk_weights self !! match_type with
  | Some weight =>
      let weight := match_weight weight m in
      ((total_weight + weight)%Z,
       risk_factors ++
         [ {| factor_type := match_type;
              factor_weight := weight;
              factor_description := match_description m |} ])
  | None => st
  end.

(** [risk_factors.sort(key=lambda x: x["weight"], reverse=True)].
    Python's sort is stable, also with [reverse=True]; a stable sort has
    one possible outcome, which the insertion sort below computes. *)
Fixpoint insert_desc (x : RiskFactor) (l : list RiskFactor) : list RiskFactor :=
  match l with
  | [] => [x]
  | y :: l' =>
      if (factor_weight x <? factor_weight y)%Z then y :: insert_desc x l'
      else x :: y :: l'
  end.

Definition sort_by_weight_desc (l : list RiskFactor) : list RiskFactor :=
  fold_right insert_desc [] l.

(** The state after the three loops: the sum of the recorded weights and
    the factors in the order they were recorded.  A [domain_info]
    dictionary always has the key ["suspicious_traits"]. *)
Definition recorded (self : t) (features : Features) : state :=
  let st : state := (0%Z, []) in
  let st :=
    match suspicious_traits features with
    | Some traits => fold_left (trait_step self) traits st
    | None => st
    end in
  let st :=
    match domain_info features with
    | Some info => fold_left (trait_step self) (di_suspicious_traits info) st
    | None => st
    end in
  match brand_matches features with
  | Some matches => fold_left (match_step self) matches st
  | None => st
  end.

Definition calculate_risk (self : t) (features : Features) : Z * list RiskFactor :=
  let '(total_weight, risk_factors) := recorded self features in
  let risk_score := Z.min total_weight (max_risk_score self) in
  let risk_factors := sort_by_weight_desc risk_factors in
  (risk_score, risk_factors).

(** The sum of the weights of a list of factors. *)
Definition sum_weights (l : list RiskFactor) : Z :=
  fold_right (fun f acc => (factor_weight f + acc)%Z) 0%Z l.

(** Sorted by weight, largest first. *)
Definition sorted_desc (l : list RiskFactor) : Prop :=
  StronglySorted (fun x y => (factor_weight y <= factor_weight x)%Z) l.

(** The factors of a given weight, in the order of the list. *)
Definition of_weight (w : Z) (l : list RiskFactor) : list RiskFactor :=
  List.filter (fun f => (factor_weight f =? w)%Z) l.

(** [l'] holds the factors of [l], those of equal weight in the same
    relative order. *)
Definition same_order_within_weights (l l' : list RiskFactor) : Prop :=
  forall w, of_weight w l' = of_weight w l.

(** Any similarity a match carries is a percentage. *)
Definition similarity_in_range (m : BrandMatch) : Prop :=
  forall s, match_similarity m = Some s -> (0 <= s <= 100)%Z.

Definition features_in_range (features : Features) : Prop :=
  match brand_matches features with
  | Some matches => Forall similarity_in_range matches
  | None => True
  end.

(** What the loops keep true of [total_weight] and [risk_factors]. *)
Definition consistent (st : state) : Prop :=
  fst st = sum_weights (snd st)
  /\ Forall (fun f => (0 <= factor_weight f)%Z) (snd st).




(** The features with another list of suspicious traits. *)
Definition with_traits (features : Features) (traits : list Trait) : Features :=
  {| url_features := url_features features;
     suspicious_traits := Some traits;
     domain_info := domain_info features;
     brand_matches := brand_matches features |}.

(** The factor a trait is recorded as, if its kind has a weight. *)
Definition trait_factor (self : t) (trait : Trait) : list RiskFactor :=
  match risk_weights self !! trait_type trait with
  | Some weight =>
      [ {| factor_type := trait_type trait;
           factor_weight := weight;
           factor_description := trait_description trait |} ]
  | None => []
  end.

(** The factor a brand match is recorded as, if its kind has a weight. *)
Definition match_factor (self : t) (m : BrandMatch) : list RiskFactor :=
  match risk_weights self !! match_type m with
  | Some weight =>
      [ {| factor_type := match_type m;
           factor_weight := match_weight weight m;
           factor_description := match_description m |} ]
  | None => []
  end.

(** The factors of all the inputs, in the order the loops visit them. *)
Definition factors_of (self : t) (features : Features) : list RiskFactor :=
  flat_map (trait_factor self) (default [] (suspicious_traits features))
  ++ flat_map (trait_factor self)
       (default [] (option_map di_suspicious_traits (domain_info features)))
  ++ flat_map (match_factor self) (default [] (brand_matches features)).

(** Two optional lists with the same elements, in any order. *)
Definition same_elements {A} (l l' : option (list A)) : Prop :=
  match l, l' with
  | Some x, Some y => Permutation x y
  | None, None => True
  | _, _ => False
  end.

(** Two feature dictionaries with the same traits and matches, in any
    order. *)
Definition same_inputs (f f' : Features) : Prop :=
  same_elements (suspicious_traits f) (suspicious_traits f')
  /\ same_elements (option_map di_suspicious_traits (domain_info f))
       (option_map di_suspicious_traits (domain_info f'))
  /\ same_elements (brand_matches f) (brand_matches f').

(** The kind has a weight in the table. *)
Definition weighted (self : t) (kind : string) : bool :=
  bool_decide (is_Some (risk_weights self !! kind)).

(** The features without the traits and matches whose kind the table
    does not know. *)
Definition weighted_only (self : t) (features : Features) : Features :=
  {| url_features := url_features features;
     suspicious_traits :=
       option_map (List.filter (fun tr => weighted self (trait_type tr)))
         (suspicious_traits features);
     domain_info :=
       option_map
         (fun info =>
            {| di_domain := di_domain info;
               domain_exists := domain_exists info;
               creation_date := creation_date info;
               expiration_date := expiration_date info;
               last_updated := last_updated info;
               registrar := registrar info;
               domain_age_days := domain_age_days info;
               di_suspicious_traits :=
                 List.filter (fun tr => weighted self (trait_type tr))
                   (di_suspicious_traits info) |})
         (domain_info features);
     brand_matches :=
       option_map (List.filter (fun m => weighted self (match_type m)))
         (brand_matches features) |}.

(** The kinds of the traits and matches the features hold, in the order
    the loops visit them. *)
Definition input_kinds (features : Features) : list string :=
  map trait_type (default [] (suspicious_traits features))
  ++ map trait_type (default [] (option_map di_suspicious_traits (domain_info features)))
  ++ map match_type (default [] (brand_matches features)).

(** How many traits and matches the features hold. *)
Definition input_count (features : Features) : nat :=
  length (default [] (suspicious_traits features))
  + length (default [] (option_map di_suspicious_traits (domain_info features)))
  + length (default [] (brand_matches features)).

(** The value [adjust_weights] leaves under a key: the last one given
    for it, if any. *)
Fixpoint last_value (k : string) (new_weights : list (string * Z)) (found : option Z) : option Z :=
  match new_weights with
  | [] => found
  | (k', v) :: rest =>
      last_value k rest (if String.eqb k' k then Some v else found)
  end.

(** [adjust_weights]: only keys of the table are updated; the others are
    reported (the second component collects them). *)
Definition adjust_weights (self : t) (new_weights : list (string * Z)) : t * list string :=
  fold_left
    (fun (acc : t * list string) (kv : string * Z) =>
       let '(self, unknown) := acc in
       match risk_weights self !! fst kv with
       | Some _ =>
           ({| risk_weights := <[fst kv := snd kv]> (risk_weights self);
               max_risk_score := max_risk_score self |}, unknown)
       | None => (self, unknown ++ [fst kv])
       end)
    new_weights (self, []).

End RiskEngine.

(** ** result.py *)

Module Result.

Record AnalysisResult : Type := mk {
  url : string;
  risk_score : Z;
  risk_factors : list RiskFactor;
  features : option Features
}.

(** The property [risk_level]. *)
Definition risk_level (self : AnalysisResult) : string :=
  if (risk_score self <? 30)%Z then "Low"
  else if (risk_score self <? 70)%Z then "Medium"
  else "High".

(** The dictionary of [to_dict]. *)
Record ResultDict : Type := mkDict {
  d_url : string;
  d_risk_score : Z;
  d_risk_level : string;
  d_risk_factors : list RiskFactor;
  d_features : option Features
}.

(** A dictionary taken as a condition is true when it has a key. *)
Definition features_truthy (f : Features) : bool :=
  bool_decide (is_Some (url_features f))
  || bool_decide (is_Some (suspicious_traits f))
  || bool_decide (is_Some (domain_info f))
  || bool_decide (is_Some (brand_matches f)).

(** [to_dict]: the key ["features"] is written under [if self.features],
    that is for a dictionary that is present and not empty. *)
Definition to_dict (self : AnalysisResult) : ResultDict :=
  {| d_url := url self;
     d_risk_score := risk_score self;
     d_risk_level := risk_level self;
     d_risk_factors := risk_factors self;
     d_features :=
       match features self with
       | Some f => if features_truthy f then Some f else None
       | None => None
       end |}.

End Result.

(** ** phishsniper.py *)

Module PhishSniper.
Import Result.

Record t : Type := mk {
  url_parser : URLParser.t;
  domain_intelligence : DomainIntelligence.t;
  brand_matcher : BrandMatcher.t;
  risk_engine : RiskEngine.t
}.

(** [PhishSniper(config)]: every module is built with its defaults. *)
Definition init : t :=
  {| url_parser := URLParser.init;
     domain_intelligence := DomainIntelligence.init;
     brand_matcher := BrandMatcher.init None;
     risk_engine := RiskEngine.init |}.

Section WithExternals.
Context `{Externals}.

(** [{**url_features, "domain_info": .., "brand_matches": ..}] *)
Definition all_features (url_features : UrlFeatures) (info : DomainInfo)
    (matches : list BrandMatch) : Features :=
  {| url_features := Some url_features;
     suspicious_traits := Some (uf_suspicious_traits url_features);
     domain_info := Some info;
     brand_matches := Some matches |}.

(** [analyze]: the result or the exception, and the WHOIS lookups made. *)
Definition analyze (self : t) (url : string) (verbose : bool)
    : result AnalysisResult * DomainIntelligence.lookups :=
  match URLParser.parse (url_parser self) url with
  | Raise e => (Raise e, [])
  | Ok url_features =>
      let '(info, asked) :=
        DomainIntelligence.analyze (domain_intelligence self) (uf_hostname url_features) in
      let matches :=
        BrandMatcher.find_matches (brand_matcher self) (uf_hostname url_features) in
      let all_features := all_features url_features info matches in
      let '(risk_score, risk_factors) :=
        RiskEngine.calculate_risk (risk_engine self) all_features in
      (Ok {| url := url;
             risk_score := risk_score;
             risk_factors := risk_factors;
             features := if verbose then Some all_features else None |},
       asked)
  end.

End WithExternals.

End PhishSniper.

(** ** web.py *)

Module Web.
Import Result.

(** An entry of the ["errors"] list: [{"url": .., "error": str(e)}]. *)
Record ErrorEntry : Type := mkError {
  error_url : string;
  error_text : string
}.

(** The locals of the loop of [batch_analyze], and the lookups made. *)
Definition batch_state : Type :=
  (list ResultDict * list ErrorEntry * DomainIntelligence.lookups)%type.

(** The JSON body of a request to [/api/analyze]; a key may be missing. *)
Record AnalyzeBody : Type := mkAnalyzeBody {
  body_url : option string;
  body_verbose : option bool
}.

(** The JSON body of a request to [/api/batch]; ["urls"] is absent or
    not a list ([None]), or a list of texts. *)
Record BatchBody : Type := mkBatchBody {
  body_urls : option (list string);
  body_batch_verbose : option bool
}.

(** The answers of the two endpoints. *)
Inductive response : Type :=
| JsonResult (d : ResultDict)
| JsonBatch (results : list ResultDict) (errors : list ErrorEntry)
| JsonError (status : Z) (message : string).

Section WithExternals.
Context `{Externals}.

(** The analysis of the URL ends with an exception. *)
Definition analysis_fails (self : PhishSniper.t) (verbose : bool) (url : string) : bool :=
  match fst (PhishSniper.analyze self url verbose) with
  | Ok _ => false
  | Raise _ => true
  end.

(** Two states of the loop, one after the other. *)
Definition batch_append (a b : batch_state) : batch_state :=
  let '(r1, e1, a1) := a in
  let '(r2, e2, a2) := b in
  (r1 ++ r2, e1 ++ e2, a1 ++ a2).

(** The body of [for url in urls]. *)
Definition batch_step (self : PhishSniper.t) (verbose : bool) (st : batch_state)
    (url : string) : batch_state :=
  let '(results, errors, asked) := st in
  match PhishSniper.analyze self url verbose with
  | (Ok result, a) => (results ++ [to_dict result], errors, asked ++ a)
  | (Raise e, a) =>
      (results, errors ++ [ {| error_url := url; error_text := exn_str e |} ], asked ++ a)
  end.

Definition batch_loop (self : PhishSniper.t) (urls : list string) (verbose : bool)
    : batch_state :=
  fold_left (batch_step self verbose) urls ([], [], []).

(** What one round of the loop adds for its URL. *)
Definition answer_of (self : PhishSniper.t) (verbose : bool) (url : string) : batch_state :=
  batch_step self verbose ([], [], []) url.

(** The view function [analyze]. *)
Definition api_analyze (self : PhishSniper.t) (data : option AnalyzeBody)
    : response * DomainIntelligence.lookups :=
  match data with
  | Some {| body_url := Some url; body_verbose := v |} =>
      let verbose := default false v in
      match PhishSniper.analyze self url verbose with
      | (Ok result, a) => (JsonResult (to_dict result), a)
      | (Raise e, a) => (JsonError 500 (exn_str e), a)
      end
  | _ => (JsonError 400 "URL is required", [])
  end.

(** The view function [batch_analyze]. *)
Definition api_batch (self : PhishSniper.t) (data : option BatchBody)
    : response * DomainIntelligence.lookups :=
  match data with
  | Some {| body_urls := Some urls; body_batch_verbose := v |} =>
      let verbose := default false v in
      let '(results, errors, asked) := batch_loop self urls verbose in
      (JsonBatch results errors, asked)
  | _ => (JsonError 400 "List of URLs is required", [])
  end.

(** A request to [/api/analyze] for one URL of a batch. *)
Definition single (self : PhishSniper.t) (verbose : bool) (url : string)
    : response * DomainIntelligence.lookups :=
  api_analyze self (Some {| body_url := Some url; body_verbose := Some verbose |}).

End WithExternals.

End Web.

(** ** cli.py *)

Module Cli.
Import Result.

(** The parsed command line. *)
Record Args : Type := mkArgs {
  arg_url : option string;
  arg_file : option string;
  arg_verbose : bool;
  arg_output : option string;
  arg_debug : bool;
  arg_brands_file : option string
}.

(** What a run of [main] did: its exit code, the results it printed in
    order, whether it read the URL file, what it handed to
    [save_results] and for which file, and the lookups made. *)
Record Outcome : Type := mkOutcome {
  exit_code : Z;
  printed : list AnalysisResult;
  file_read : bool;
  saved : option (string * list ResultDict);
  asked : DomainIntelligence.lookups
}.

(** An option of the command line taken as a condition. *)
Definition given (o : option string) : bool :=
  match o with
  | Some s => PyStr.truthy s
  | None => false
  end.

(** [[line.strip() for line in f if line.strip()]] *)
Definition urls_of_lines (lines : list string) : list string :=
  map PyStr.strip (List.filter (fun line => PyStr.truthy (PyStr.strip line)) lines).

Section WithExternals.
Context `{Externals}.

(** Reading the lines of a file: the lines, or the exception of [open]. *)
Variable read_lines : string -> result (list string).

(** [analyze_url]: the exception is logged and raised again. *)
Definition analyze_url (url : string) (phish_sniper : PhishSniper.t) (verbose : bool)
    : result AnalysisResult * DomainIntelligence.lookups :=
  PhishSniper.analyze phish_sniper url verbose.

(** The body of the loop of [analyze_urls_from_file]: a failed analysis
    is logged and left out. *)
Definition file_step (phish_sniper : PhishSniper.t) (verbose : bool)
    (st : list AnalysisResult * DomainIntelligence.lookups) (url : string)
    : list AnalysisResult * DomainIntelligence.lookups :=
  let '(results, asked) := st in
  match PhishSniper.analyze phish_sniper url verbose with
  | (Ok result, a) => (results ++ [result], asked ++ a)
  | (Raise _, a) => (results, asked ++ a)
  end.

Definition analyze_urls_from_file (file_path : string) (phish_sniper : PhishSniper.t)
    (verbose : bool) : list AnalysisResult * DomainIntelligence.lookups :=
  match read_lines file_path with
  | Ok lines => fold_left (file_step phish_sniper verbose) (urls_of_lines lines) ([], [])
  | Raise _ => ([], [])
  end.

(** [main] after the command line is parsed.  [PhishSniper(config)]
    builds every module with its defaults, whatever [config] holds. *)
Definition main (args : Args) : Outcome :=
  let phish_sniper := PhishSniper.init in
  if negb (given (arg_url args)) && negb (given (arg_file args)) then
    {| exit_code := 1; printed := []; file_read := false; saved := None; asked := [] |}
  else
    let from_url :=
      match arg_url args with
      | Some url =>
          if PyStr.truthy url
          then
            match analyze_url url phish_sniper (arg_verbose args) with
            | (Ok result, a) => (Ok [result], a)
            | (Raise e, a) => (Raise e, a)
            end
          else (Ok [], [])
      | None => (Ok [], [])
      end in
    match from_url with
    | (Raise _, a) =>
        {| exit_code := 1; printed := []; file_read := false; saved := None; asked := a |}
    | (Ok results, a) =>
        let '(results, a, was_read) :=
          match arg_file args with
          | Some file =>
              if PyStr.truthy file
              then
                let '(file_results, a') :=
                  analyze_urls_from_file file phish_sniper (arg_verbose args) in
                (results ++ file_results, a ++ a', true)
              else (results, a, false)
          | None => (results, a, false)
          end in
        {| exit_code := 0;
           printed := results;
           file_read := was_read;
           saved :=
             match arg_output args, results with
             | Some output, _ :: _ =>
                 if PyStr.truthy output then Some (output, map to_dict results) else None
             | _, _ => None
             end;
           asked := a |}
    end.

End WithExternals.

End Cli.

(** ** The edit distance the specification names *)

Module Spec.

(** Cost of turning one character into another: free when they agree. *)
Definition substitution_cost (x y : option ascii) : nat :=
  if bool_decide (x = y) then 0 else 1.

(** The classic edit distance between the first [i] characters of [a]
    and the first [j] characters of [b]: dropping a character, adding a
    character and changing a character cost 1 each. *)
Fixpoint edit_distance_prefix (a b : list ascii) (i : nat) : nat -> nat :=
  match i with
  | O => fun j => j
  | S i' =>
      fix row (j : nat) : nat :=
        match j with
        | O => S i'
        | S j' =>
            BrandMatcher.min3
              (edit_distance_prefix a b i' (S j') + 1)
              (row j' + 1)
              (edit_distance_prefix a b i' j' + substitution_cost (a !! i') (b !! j'))
        end
  end.

(** Row [i] of the table of distances: from the first [i] characters of
    [s1] to every prefix of [s2]. *)
Definition distance_row (s1 s2 : list ascii) (i : nat) : list nat :=
  map (edit_distance_prefix s1 s2 i) (seq 0 (S (length s2))).

(** The distance over the full strings. *)
Definition edit_distance (a b : string) : nat :=
  edit_distance_prefix (PyStr.chars a) (PyStr.chars b) (PyStr.len a) (PyStr.len b).

(** A URI is written with the unreserved and reserved characters of
    RFC 3986 and the percent sign only; a text with any other character
    (a space, say) is not one. *)
Definition uri_char (c : ascii) : bool :=
  PyStr.in_range 48 57 c || PyStr.in_range 65 90 c || PyStr.in_range 97 122 c
  || existsb (Ascii.eqb c) (PyStr.chars "-._~:/?#[]@!$&'()*+,;=%").

Definition uri_chars_only (s : string) : bool := forallb uri_char (PyStr.chars s).

End Spec.

(** ** A test double for the external packages

    Simple stand-ins with canned answers, enough to run the pipeline on
    concrete URLs. *)

Module TestDouble.
Import PyStr.

(** The text up to the first character for which [stop] holds, and the rest. *)
Fixpoint span_until (stop : ascii -> bool) (s : list ascii) : list ascii * list ascii :=
  match s with
  | [] => ([], [])
  | c :: s' =>
      if stop c then ([], s)
      else let '(a, b) := span_until stop s' in (c :: a, b)
  end.

Definition is_one_of (set : string) (c : ascii) : bool := existsb (Ascii.eqb c) (chars set).

(** Splits [scheme://netloc/path?query#fragment]; every text is accepted
    but one with an unbalanced bracket in the host. *)
Definition td_urlparse (url : string) : result ParseResult :=
  let '(sch, rest) := span_until (is_one_of ":") (chars url) in
  let rest := skipn 3 rest in
  let '(host, rest) := span_until (is_one_of "/?#") rest in
  let '(pth, rest) := span_until (is_one_of "?#") rest in
  let '(qry, rest) := span_until (is_one_of "#") (match rest with "?"%char :: r => r | _ => rest end) in
  let frag := match rest with "#"%char :: r => r | _ => rest end in
  if xorb (existsb (Ascii.eqb "[") host) (existsb (Ascii.eqb "]") host)
  then Raise (ValueError "Invalid IPv6 URL")
  else
    Ok {| scheme := of_chars sch; netloc := of_chars host; path := of_chars pth;
          params := EmptyString; query := of_chars qry; fragment := of_chars frag |}.

Definition td_geturl (p : ParseResult) : string :=
  scheme p +:+ "://" +:+ netloc p +:+ path p
  +:+ (if truthy (query p) then "?" +:+ query p else EmptyString)
  +:+ (if truthy (fragment p) then "#" +:+ fragment p else EmptyString).

Definition join_dots (labels : list string) : string :=
  match labels with
  | [] => EmptyString
  | l :: ls => fold_left (fun acc x => acc +:+ "." +:+ x) ls l
  end.

Definition all_digits_dots (s : string) : bool :=
  forallb (fun c => is_digit c || Ascii.eqb c ".") (chars s).

Definition looks_like_ipv4 (s : string) : bool :=
  URLParser.ip_at (chars s) && all_digits_dots s.

(** The host of a URL or host name: scheme, port and path taken off. *)
Definition host_of (s : string) : string :=
  let cs := chars s in
  let cs :=
    if starts_with (chars "http://") cs then skipn 7 cs
    else if starts_with (chars "https://") cs then skipn 8 cs
    else cs in
  of_chars (fst (span_until (is_one_of ":/?#") cs)).

(** The last label is the suffix, the one before it the domain. *)
Definition td_extract (s : string) : ExtractResult :=
  let host := host_of s in
  if looks_like_ipv4 host then {| subdomain := EmptyString; domain := host; suffix := EmptyString |}
  else
    match rev (split host ".") with
    | [] => {| subdomain := EmptyString; domain := EmptyString; suffix := EmptyString |}
    | [d] => {| subdomain := EmptyString; domain := d; suffix := EmptyString |}
    | tld :: d :: subs => {| subdomain := join_dots (rev subs); domain := d; suffix := tld |}
    end.

(** A similarity between 0 and 100 from the edit distance. *)
Definition td_ratio (a b : string) : Z :=
  if String.eqb a b then 100%Z
  else
    let total := Z.of_nat (len a + len b) in
    let d := Z.of_nat (BrandMatcher._levenshtein_distance a b) in
    Z.max 0 (Z.min 100 (100 * (total - d) / total)).

(** One registered domain; every other lookup fails. *)
Definition td_whois (domain : string) : result WhoisEntry :=
  if String.eqb domain "example.com" then
    Ok {| domain_name := Some "EXAMPLE.COM";
          whois_creation_date := DateOne 0;
          whois_expiration_date := DateList [31536000000000; 63072000000000]%Z;
          whois_updated_date := DateNone;
          whois_registrar := Some "Example Registrar" |}
  else Raise (OtherError "lookup failed").

Definition td_is_private (ip : string) : result bool :=
  if looks_like_ipv4 ip then
    Ok (startswith ip "10." || startswith ip "192.168." || startswith ip "127.")
  else Raise (ValueError "does not appear to be an IPv4 or IPv6 address").

Definition externals : Externals :=
  {| urlparse := td_urlparse;
     geturl := td_geturl;
     parse_qs := fun _ => [];
     tldextract_extract := td_extract;
     fuzz_ratio := td_ratio;
     whois_whois := td_whois;
     inet_aton_accepts := looks_like_ipv4;
     ip_address_is_private := td_is_private;
     datetime_now := 86400000000000 |}.

End TestDouble.

(** * Properties *)

(** ** Loops *)

Module LoopFacts.

(** A property the body of a loop keeps holds after the loop. *)
Lemma fold_left_invariant {A B} (P : A -> Prop) (Q : B -> Prop) (step : A -> B -> A) l :
  (forall a b, P a -> Q b -> P (step a b)) ->
  Forall Q l -> forall a, P a -> P (fold_left step l a).
Proof.
  intros Hstep Hl. induction Hl as [|b l Hb Hl IH]; intros a Ha; cbn; [exact Ha|].
  apply IH, Hstep; assumption.
Qed.

Lemma Forall_True {A} (l : list A) : Forall (fun _ => True) l.
Proof. induction l; constructor; auto. Qed.

Lemma fold_left_keeps {A B} (P : A -> Prop) (step : A -> B -> A) l :
  (forall a b, P a -> P (step a b)) -> forall a, P a -> P (fold_left step l a).
Proof.
  intros Hstep. apply (fold_left_invariant P (fun _ => True)); auto using Forall_True.
Qed.

(** A view of the accumulator that every round extends by a list
    depending on the element only is extended by all of them in turn. *)
Lemma fold_left_view {A B C} (view : A -> list C) (emit : B -> list C)
    (step : A -> B -> A) l :
  (forall a b, view (step a b) = view a ++ emit b) ->
  forall a, view (fold_left step l a) = view a ++ flat_map emit l.
Proof.
  intros Hstep. induction l as [|b l IH]; intros a; cbn.
  - now rewrite app_nil_r.
  - now rewrite IH, Hstep, <- app_assoc.
Qed.

Lemma Forall_snoc {A} (P : A -> Prop) l x : Forall P l -> P x -> Forall P (l ++ [x]).
Proof. intros Hl Hx. apply Forall_app. split; [exact Hl | now repeat constructor]. Qed.

End LoopFacts.

(** ** The edit distance of the brand matcher *)

Module LevenshteinFacts.
Import PyStr BrandMatcher Spec.

Lemma substitution_cost_sym x y : substitution_cost x y = substitution_cost y x.
Proof.
  unfold substitution_cost.
  destruct (bool_decide_reflect (x = y)), (bool_decide_reflect (y = x)); congruence.
Qed.

Lemma edit_distance_prefix_0_r a b i : edit_distance_prefix a b i 0 = i.
Proof. destruct i; reflexivity. Qed.

Lemma edit_distance_prefix_SS a b i j :
  edit_distance_prefix a b (S i) (S j) =
  min3 (edit_distance_prefix a b i (S j) + 1)
       (edit_distance_prefix a b (S i) j + 1)
       (edit_distance_prefix a b i j + substitution_cost (a !! i) (b !! j)).
Proof. reflexivity. Qed.

(** The recurrence does not depend on which text is called the source. *)
Lemma edit_distance_prefix_sym a b i :
  forall j, edit_distance_prefix a b i j = edit_distance_prefix b a j i.
Proof.
  induction i as [|i IHi]; intros j.
  - now rewrite edit_distance_prefix_0_r.
  - induction j as [|j IHj].
    + now rewrite edit_distance_prefix_0_r.
    + rewrite !edit_distance_prefix_SS.
      rewrite (IHi (S j)), (IHi j), IHj, (substitution_cost_sym (a !! i)).
      unfold min3. lia.
Qed.

Lemma eqb_substitution_cost c1 c2 :
  (if Ascii.eqb c1 c2 then 0 else 1) = substitution_cost (Some c1) (Some c2).
Proof.
  unfold substitution_cost.
  destruct (Ascii.eqb_spec c1 c2) as [->|Hne].
  - now rewrite bool_decide_eq_true_2.
  - rewrite bool_decide_eq_false_2; [reflexivity | congruence].
Qed.

Lemma nth_map_seq (f : nat -> nat) n j :
  j < n -> nth j (map f (seq 0 n)) 0 = f j.
Proof.
  intros Hj.
  rewrite (nth_indep _ 0 (f 0)) by now rewrite length_map, length_seq.
  now rewrite map_nth, seq_nth.
Qed.

Lemma map_seq_S (f : nat -> nat) n :
  map f (seq 0 (S n)) = map f (seq 0 n) ++ [f n].
Proof. now rewrite seq_S, map_app. Qed.

Section Rows.
Variables s1 s2 : list ascii.

#[local] Abbreviation row := (distance_row s1 s2).

(** The inner loop completes a row, one entry per character of [s2]. *)
Lemma inner_loop i c1 :
  s1 !! i = Some c1 ->
  forall suf pre,
    s2 = pre ++ suf ->
    fold_left (lev_inner c1 (row i)) (enumerate_from (length pre) suf)
      (map (edit_distance_prefix s1 s2 (S i)) (seq 0 (S (length pre))))
    = row (S i).
Proof.
  intros Hc1. induction suf as [|c2 suf IH]; intros pre Hs2.
  - rewrite app_nil_r in Hs2. subst pre. reflexivity.
  - cbn [enumerate_from fold_left].
    assert (Hlen : length s2 = length pre + S (length suf))
      by (rewrite Hs2, length_app; reflexivity).
    assert (Hc2 : s2 !! length pre = Some c2)
      by (rewrite Hs2; apply list_lookup_middle; reflexivity).
    specialize (IH (pre ++ [c2])).
    rewrite length_app, Nat.add_1_r in IH.
    rewrite <- IH by (rewrite <- app_assoc; exact Hs2).
    f_equal. unfold lev_inner, distance_row.
    rewrite !nth_map_seq by lia.
    rewrite (map_seq_S _ (S (length pre))). f_equal. f_equal.
    rewrite edit_distance_prefix_SS, Hc1, Hc2, eqb_substitution_cost.
    replace (length pre + 1) with (S (length pre)) by lia.
    unfold min3. lia.
Qed.

(** The outer loop moves from one row to the next. *)
Lemma outer_loop :
  forall suf pre,
    s1 = pre ++ suf ->
    fold_left (lev_outer s2) (enumerate_from (length pre) suf) (row (length pre))
    = row (length s1).
Proof.
  induction suf as [|c1 suf IH]; intros pre Hs1.
  - rewrite app_nil_r in Hs1. now subst pre.
  - cbn [enumerate_from fold_left].
    assert (Hc1 : s1 !! length pre = Some c1)
      by (rewrite Hs1; apply list_lookup_middle; reflexivity).
    specialize (IH (pre ++ [c1])).
    rewrite length_app, Nat.add_1_r in IH.
    rewrite <- IH by (rewrite <- app_assoc; exact Hs1).
    f_equal. unfold lev_outer, enumerate.
    rewrite Nat.add_1_r.
    exact (inner_loop (length pre) c1 Hc1 s2 [] eq_refl).
Qed.

Lemma row_0 : seq 0 (length s2 + 1) = row 0.
Proof.
  unfold distance_row. rewrite Nat.add_1_r.
  cbn [edit_distance_prefix]. now rewrite map_id.
Qed.

Lemma last_row i : List.last (row i) 0 = edit_distance_prefix s1 s2 i (length s2).
Proof. unfold distance_row. rewrite map_seq_S. apply last_last. Qed.

Lemma lev_rows_classic :
  lev_rows s1 s2 = edit_distance_prefix s1 s2 (length s1) (length s2).
Proof.
  unfold lev_rows. destruct (Nat.eqb_spec (length s2) 0) as [H0|H0].
  - now rewrite H0, edit_distance_prefix_0_r.
  - rewrite row_0. unfold enumerate.
    pose proof (outer_loop s1 [] eq_refl) as Hrows. cbn [length] in Hrows.
    rewrite Hrows. apply last_row.
Qed.

End Rows.

Lemma lev_chars_classic s1 s2 :
  lev_chars s1 s2 = edit_distance_prefix s1 s2 (length s1) (length s2).
Proof.
  unfold lev_chars. destruct (length s1 <? length s2)%nat.
  - rewrite lev_rows_classic. symmetry. apply edit_distance_prefix_sym.
  - apply lev_rows_classic.
Qed.

(** C8. The edit distance of the brand matcher does not depend on the
    order of its two arguments, and it is the classic edit distance
    (insertion, deletion and substitution each of cost 1) between the
    two full strings. *)
Theorem levenshtein_distance_symmetric (a b : string) :
  _levenshtein_distance a b = _levenshtein_distance b a
  /\ _levenshtein_distance a b = edit_distance a b.
Proof.
  unfold _levenshtein_distance, edit_distance, len.
  rewrite !lev_chars_classic. split; [|reflexivity].
  apply edit_distance_prefix_sym.
Qed.

End LevenshteinFacts.

(** ** The risk engine *)

Module RiskEngineFacts.
Import RiskEngine LoopFacts.

(** *** The sort *)

Lemma insert_desc_perm x l : Permutation (x :: l) (insert_desc x l).
Proof.
  induction l as [|y l IH]; cbn; [reflexivity|].
  destruct (factor_weight x <? factor_weight y)%Z; [|reflexivity].
  rewrite perm_swap. now apply perm_skip.
Qed.

Lemma sort_perm l : Permutation l (sort_by_weight_desc l).
Proof.
  induction l as [|x l IH]; cbn; [constructor|].
  rewrite <- insert_desc_perm. now apply perm_skip.
Qed.

Lemma insert_desc_sorted x l : sorted_desc l -> sorted_desc (insert_desc x l).
Proof.
  unfold sorted_desc. induction l as [|y l IH]; intros Hs; cbn.
  - repeat constructor.
  - apply StronglySorted_inv in Hs as [Hl Hy].
    destruct (Z.ltb_spec (factor_weight x) (factor_weight y)) as [Hlt|Hge].
    + constructor; [now apply IH|].
      rewrite <- insert_desc_perm. constructor; [lia | exact Hy].
    + constructor; [now constructor|].
      constructor; [lia|].
      eapply Forall_impl; [exact Hy|]. cbn. intros z Hz. lia.
Qed.

Lemma sort_sorted l : sorted_desc (sort_by_weight_desc l).
Proof.
  induction l as [|x l IH]; cbn; [constructor | now apply insert_desc_sorted].
Qed.

Lemma of_weight_insert w x l :
  of_weight w (insert_desc x l) = of_weight w (x :: l).
Proof.
  unfold of_weight. induction l as [|y l IH]; [reflexivity|].
  cbn [insert_desc].
  destruct (Z.ltb_spec (factor_weight x) (factor_weight y)) as [Hlt|Hge];
    [|reflexivity].
  cbn [List.filter]. rewrite IH. cbn [List.filter].
  destruct (Z.eqb_spec (factor_weight x) w), (Z.eqb_spec (factor_weight y) w);
    try reflexivity; lia.
Qed.

Lemma sort_stable l : same_order_within_weights l (sort_by_weight_desc l).
Proof.
  intros w. induction l as [|x l IH]; [reflexivity|].
  cbn [sort_by_weight_desc fold_right].
  rewrite of_weight_insert. unfold of_weight in *. cbn [List.filter].
  fold (sort_by_weight_desc l). now rewrite IH.
Qed.

Lemma of_weight_In w x l : In x (of_weight w l) <-> In x l /\ factor_weight x = w.
Proof.
  unfold of_weight. rewrite filter_In. now rewrite Z.eqb_eq.
Qed.

(** Sortedness and the order within each weight leave one list only. *)
Lemma stable_sorted_unique l1 :
  forall l2, sorted_desc l1 -> sorted_desc l2 ->
    (forall w, of_weight w l1 = of_weight w l2) -> l1 = l2.
Proof.
  unfold sorted_desc.
  induction l1 as [|x l1 IH]; intros l2 Hs1 Hs2 Heq.
  - destruct l2 as [|y l2]; [reflexivity|].
    specialize (Heq (factor_weight y)). unfold of_weight in Heq.
    cbn in Heq. rewrite Z.eqb_refl in Heq. discriminate.
  - apply StronglySorted_inv in Hs1 as [Hs1 Hx].
    destruct l2 as [|y l2].
    + specialize (Heq (factor_weight x)). unfold of_weight in Heq.
      cbn in Heq. rewrite Z.eqb_refl in Heq. discriminate.
    + apply StronglySorted_inv in Hs2 as [Hs2 Hy].
      rewrite List.Forall_forall in Hx, Hy.
      assert (Hw : factor_weight y = factor_weight x).
      { assert (Hxin : In x (y :: l2)).
        { apply (of_weight_In (factor_weight x)). rewrite <- Heq.
          apply of_weight_In. split; [now left | reflexivity]. }
        assert (Hyin : In y (x :: l1)).
        { apply (of_weight_In (factor_weight y)). rewrite Heq.
          apply of_weight_In. split; [now left | reflexivity]. }
        destruct Hxin as [->|Hxin]; [reflexivity|].
        destruct Hyin as [->|Hyin]; [reflexivity|].
        apply Hx in Hyin. apply Hy in Hxin. lia. }
      pose proof (Heq (factor_weight x)) as Hhead.
      unfold of_weight in Hhead. cbn in Hhead.
      rewrite Hw, Z.eqb_refl in Hhead. injection Hhead as Hxy Htail.
      subst y. f_equal. apply IH; [assumption | assumption |].
      intros w. specialize (Heq w). unfold of_weight in *. cbn in Heq.
      destruct (factor_weight x =? w)%Z; [now injection Heq | exact Heq].
Qed.

Lemma sum_weights_app l1 l2 :
  sum_weights (l1 ++ l2) = (sum_weights l1 + sum_weights l2)%Z.
Proof.
  unfold sum_weights. induction l1 as [|x l1 IH]; cbn; [reflexivity|].
  rewrite IH. lia.
Qed.

Lemma sum_weights_perm l1 l2 :
  Permutation l1 l2 -> sum_weights l1 = sum_weights l2.
Proof.
  unfold sum_weights. induction 1; cbn; lia.
Qed.

(** C7. Whatever traits and brand matches come in, the returned factors
    are the recorded ones sorted by weight, largest first, factors of
    equal weight in the order they were recorded; the outcome is the
    only list with these properties, the same at every run. *)
Theorem risk_factors_sorted_stable (self : t) (features : Features) :
  let recorded := snd (recorded self features) in
  let returned := snd (calculate_risk self features) in
  sorted_desc returned
  /\ Permutation recorded returned
  /\ same_order_within_weights recorded returned
  /\ (forall l, sorted_desc l -> same_order_within_weights recorded l -> l = returned).
Proof.
  unfold calculate_risk. destruct (RiskEngine.recorded self features) as [total factors].
  cbn [snd]. repeat split.
  - apply sort_sorted.
  - apply sort_perm.
  - apply sort_stable.
  - intros l Hs Hst. apply stable_sorted_unique; [exact Hs | apply sort_sorted |].
    intros w. rewrite Hst. symmetry. apply sort_stable.
Qed.

(** *** The weights *)

Lemma weights_display_lookup entries :
  forall (m : gmap string Z) k w,
    fold_left (fun m kv => <[fst kv := snd kv]> m) entries m !! k = Some w ->
    In (k, w) entries \/ m !! k = Some w.
Proof.
  induction entries as [|[k' w'] entries IH]; intros m k w Hl; cbn in *.
  - now right.
  - apply IH in Hl as [Hin|Hl]; [left; now right|].
    apply lookup_insert_Some in Hl as [[<- <-]|[_ Hl]]; [left; now left | now right].
Qed.

(** Every weight of the table the engine starts with is at least 0. *)
Lemma init_weights_nonneg k w :
  risk_weights init !! k = Some w -> (0 <= w)%Z.
Proof.
  intros Hl. apply weights_display_lookup in Hl as [Hin|Hl].
  - cbn in Hin.
    repeat (destruct Hin as [Heq|Hin]; [injection Heq as _ <-; lia|]).
    destruct Hin.
  - rewrite lookup_empty in Hl. discriminate.
Qed.

Lemma init_typosquatting : risk_weights init !! "typosquatting" = Some 40%Z.
Proof. reflexivity. Qed.

Lemma init_homoglyph_attack : risk_weights init !! "homoglyph_attack" = Some 50%Z.
Proof. reflexivity. Qed.

Lemma init_partial_homoglyph : risk_weights init !! "partial_homoglyph" = Some 35%Z.
Proof. reflexivity. Qed.


(** For the base weight 40 the floating-point product, truncated, is the
    exact quotient: checked on each of the 101 similarities. *)
Lemma scale_40_table :
  forallb
    (fun n => (scale_by_similarity 40 (Z.of_nat n) =? Z.quot (40 * Z.of_nat n) 100)%Z)
    (seq 0 101) = true.
Proof. vm_compute. reflexivity. Qed.

Lemma scale_40_exact s :
  (0 <= s <= 100)%Z -> scale_by_similarity 40 s = Z.quot (40 * s) 100.
Proof.
  intros Hs. pose proof scale_40_table as Ht.
  rewrite forallb_forall in Ht.
  specialize (Ht (Z.to_nat s)). rewrite Z2Nat.id in Ht by lia.
  apply Z.eqb_eq, Ht, in_seq. lia.
Qed.



(** *** The score *)

Lemma consistent_snoc total factors f :
  consistent (total, factors) -> (0 <= factor_weight f)%Z ->
  consistent ((total + factor_weight f)%Z, factors ++ [f]).
Proof.
  unfold consistent. cbn [fst snd]. intros [Hsum Hpos] Hf. split.
  - rewrite sum_weights_app, <- Hsum. cbn. lia.
  - apply Forall_app. split; [exact Hpos | now repeat constructor].
Qed.

Lemma trait_step_consistent st trait :
  consistent st -> consistent (trait_step init st trait).
Proof.
  destruct st as [total factors]. intros Hst. unfold trait_step.
  destruct (risk_weights init !! trait_type trait) as [w|] eqn:Hw; [|exact Hst].
  apply (consistent_snoc total factors (mkRiskFactor _ w _) Hst).
  cbn. eapply init_weights_nonneg, Hw.
Qed.

Lemma scale_40_nonneg s : (0 <= s <= 100)%Z -> (0 <= scale_by_similarity 40 s)%Z.
Proof.
  intros Hs. rewrite scale_40_exact by exact Hs.
  apply Z.quot_pos; lia.
Qed.

Lemma match_step_consistent st m :
  consistent st -> similarity_in_range m -> consistent (match_step init st m).
Proof.
  destruct st as [total factors]. intros Hst Hm. unfold match_step.
  destruct (risk_weights init !! match_type m) as [w|] eqn:Hw; [|exact Hst].
  apply (consistent_snoc total factors (mkRiskFactor _ (match_weight w m) _) Hst).
  cbn. unfold match_weight.
  destruct (String.eqb_spec (match_type m) "typosquatting") as [Hty|_].
  - rewrite Hty, init_typosquatting in Hw. injection Hw as <-.
    destruct (match_similarity m) as [s|] eqn:Hsim; [|lia].
    apply scale_40_nonneg, Hm, Hsim.
  - eapply init_weights_nonneg, Hw.
Qed.

Lemma recorded_consistent features :
  features_in_range features -> consistent (recorded init features).
Proof.
  unfold features_in_range, recorded. intros Hr.
  assert (H0 : consistent (0%Z, [])) by (split; [reflexivity | constructor]).
  assert (H1 : consistent
                 match suspicious_traits features with
                 | Some traits => fold_left (trait_step init) traits (0%Z, [])
                 | None => (0%Z, [])
                 end).
  { destruct (suspicious_traits features) as [traits|]; [|exact H0].
    apply (fold_left_invariant consistent (fun _ => True)); auto using Forall_True.
    intros. now apply trait_step_consistent. }
  set (st1 := match suspicious_traits features with Some _ => _ | None => _ end) in *.
  assert (H2 : consistent
                 match domain_info features with
                 | Some info => fold_left (trait_step init) (di_suspicious_traits info) st1
                 | None => st1
                 end).
  { destruct (domain_info features) as [info|]; [|exact H1].
    apply (fold_left_invariant consistent (fun _ => True)); auto using Forall_True.
    intros. now apply trait_step_consistent. }
  set (st2 := match domain_info features with Some _ => _ | None => _ end) in *.
  destruct (brand_matches features) as [matches|]; [|exact H2].
  apply (fold_left_invariant consistent similarity_in_range); auto.
  intros. now apply match_step_consistent.
Qed.

Lemma sum_weights_nonneg l :
  Forall (fun f => (0 <= factor_weight f)%Z) l -> (0 <= sum_weights l)%Z.
Proof. unfold sum_weights. induction 1; cbn; lia. Qed.

(** The score of the engine as built: the sum of the weights of the
    returned factors, capped at 100, hence between 0 and 100. *)
Lemma calculate_risk_capped features :
  features_in_range features ->
  fst (calculate_risk init features)
    = Z.min (sum_weights (snd (calculate_risk init features))) 100
  /\ (0 <= fst (calculate_risk init features) <= 100)%Z.
Proof.
  intros Hr. pose proof (recorded_consistent features Hr) as [Hsum Hpos].
  unfold calculate_risk.
  destruct (recorded init features) as [total factors]. cbn [fst snd] in *.
  rewrite <- (sum_weights_perm _ _ (sort_perm factors)), <- Hsum.
  split; [reflexivity|].
  pose proof (sum_weights_nonneg _ Hpos). change (max_risk_score init) with 100%Z. lia.
Qed.

End RiskEngineFacts.

(** ** Strings *)

Module PyStrFacts.
Import PyStr.

Lemma chars_of_chars l : chars (of_chars l) = l.
Proof. apply list_ascii_of_string_of_list_ascii. Qed.

Lemma of_chars_chars s : of_chars (chars s) = s.
Proof. apply string_of_list_ascii_of_string. Qed.

Lemma chars_inj a b : chars a = chars b -> a = b.
Proof. intros Heq. rewrite <- (of_chars_chars a), <- (of_chars_chars b). now f_equal. Qed.

Lemma chars_lower s : chars (lower s) = lower_chars (chars s).
Proof. apply chars_of_chars. Qed.

Lemma chars_replace s old new :
  chars (replace s old new) = replace_chars (chars old) (chars new) (chars s).
Proof. apply chars_of_chars. Qed.

Lemma len_lower s : len (lower s) = len s.
Proof. unfold len. rewrite chars_lower. apply length_map. Qed.

Lemma starts_with_length p : forall s, starts_with p s = true -> length p <= length s.
Proof.
  induction p as [|a p IH]; intros [|b s] Hp; cbn in *; try lia; try discriminate.
  apply andb_true_iff in Hp as [_ Hp]. apply IH in Hp. lia.
Qed.

Lemma starts_with_refl p : starts_with p p = true.
Proof. induction p as [|a p IH]; cbn; [reflexivity|]. now rewrite Ascii.eqb_refl. Qed.

Lemma starts_with_same_length p :
  forall s, starts_with p s = true -> length p = length s -> p = s.
Proof.
  induction p as [|a p IH]; intros [|b s] Hp Hlen; cbn in *;
    try reflexivity; try discriminate.
  apply andb_true_iff in Hp as [Hab Hp]. apply Ascii.eqb_eq in Hab.
  f_equal; [exact Hab | apply IH; [exact Hp | lia]].
Qed.

(** *** [replace] *)

Section Replace.
Variables old new : list ascii.
Hypothesis old_not_empty : old <> [].

(** Each rewritten occurrence trades the length of [old] for that of [new]. *)
Lemma replace_aux_length s :
  forall skip, skip <= length s ->
    length (replace_aux old new skip s) + count_aux old skip s * length old + skip
    = length s + count_aux old skip s * length new.
Proof.
  induction s as [|c s IH]; intros skip Hskip; cbn [replace_aux count_aux length] in *.
  - lia.
  - destruct skip as [|k].
    + destruct (starts_with old (c :: s)) eqn:Hp.
      * apply starts_with_length in Hp. cbn [length] in Hp.
        assert (Hold : 1 <= length old) by (destruct old; [congruence | cbn; lia]).
        specialize (IH (length old - 1) ltac:(lia)).
        rewrite length_app. lia.
      * specialize (IH 0 ltac:(lia)). cbn [length]. lia.
    + specialize (IH k ltac:(lia)). lia.
Qed.

Lemma contains_count s : contains_chars old s = true -> 1 <= count_aux old 0 s.
Proof.
  induction s as [|c s IH]; cbn [contains_chars count_aux]; intros Hc.
  - destruct old; [congruence | cbn in Hc; discriminate].
  - destruct (starts_with old (c :: s)); [lia|]. now apply IH.
Qed.

(** A replacement by a text of another length changes the length. *)
Lemma replace_changes_length s :
  length old <> length new -> contains_chars old s = true ->
  length (replace_chars old new s) <> length s.
Proof.
  intros Hlen Hc. pose proof (contains_count s Hc) as Hn.
  pose proof (replace_aux_length s 0 ltac:(lia)) as Hl.
  unfold replace_chars. destruct old as [|a old']; [congruence|].
  intros Heq. rewrite Heq in Hl. nia.
Qed.

End Replace.

Lemma replace_one_char o r s :
  replace_chars [o] [r] s = map (substitute o r) s.
Proof.
  unfold replace_chars. induction s as [|c s IH]; [reflexivity|].
  cbn [replace_aux map starts_with length Nat.sub]. unfold substitute at 1.
  rewrite andb_true_r. destruct (Ascii.eqb o c); cbn; now rewrite IH.
Qed.

Lemma contains_one_char o s : contains_chars [o] s = true -> 1 <= count_char o s.
Proof.
  unfold count_char. induction s as [|c s IH]; cbn; intros Hc; [discriminate|].
  rewrite andb_true_r in Hc. destruct (Ascii.eqb o c); cbn; [lia | now apply IH].
Qed.

Lemma count_char_substitute_old o r s :
  o <> r -> count_char o (map (substitute o r) s) = 0.
Proof.
  intros Hne. unfold count_char, substitute.
  induction s as [|c s IH]; [reflexivity|]. cbn.
  destruct (Ascii.eqb_spec o c) as [->|Hoc].
  - destruct (Ascii.eqb_spec c r); [congruence | exact IH].
  - destruct (Ascii.eqb_spec o c); [congruence | exact IH].
Qed.

Lemma count_char_substitute_new o r s :
  o <> r ->
  count_char r (map (substitute o r) s) = count_char r s + count_char o s.
Proof.
  intros Hne. unfold count_char, substitute.
  induction s as [|c s IH]; [reflexivity|]. cbn.
  destruct (Ascii.eqb_spec o c) as [<-|Hoc].
  - rewrite Ascii.eqb_refl. destruct (Ascii.eqb_spec r o); [congruence|].
    cbn. lia.
  - destruct (Ascii.eqb r c); cbn; lia.
Qed.

(** *** [lower] and the digits *)

Lemma in_range_spec lo hi c : in_range lo hi c = true <-> lo <= code c <= hi.
Proof. unfold in_range. rewrite andb_true_iff, !Nat.leb_le. reflexivity. Qed.

Lemma code_lt_256 c : code c < 256.
Proof. apply nat_ascii_bounded. Qed.

Lemma digit_not_upper c : is_digit c = true -> is_upper c = false.
Proof.
  unfold is_digit, is_upper. rewrite in_range_spec. intros Hd.
  apply orb_false_iff; split; [apply orb_false_iff; split|];
    apply not_true_iff_false; rewrite in_range_spec; lia.
Qed.

Lemma lower_char_digit c : is_digit c = true -> lower_char c = c.
Proof. intros Hd. unfold lower_char. now rewrite digit_not_upper. Qed.

(** Lowering never produces a digit out of another character. *)
Lemma lower_char_is_digit c : is_digit (lower_char c) = true -> lower_char c = c.
Proof.
  unfold lower_char. destruct (is_upper c) eqn:Hu; [|reflexivity].
  intros Hd. exfalso. unfold is_digit in Hd. rewrite in_range_spec in Hd.
  unfold is_upper in Hu. rewrite !orb_true_iff, !in_range_spec in Hu.
  pose proof (code_lt_256 c) as Hc.
  unfold code in *. rewrite nat_ascii_embedding in Hd; lia.
Qed.

Lemma count_char_lower_digit d l :
  is_digit d = true -> count_char d (lower_chars l) = count_char d l.
Proof.
  intros Hd. unfold count_char, lower_chars.
  induction l as [|c l IH]; [reflexivity|]. cbn.
  assert (Heq : Ascii.eqb d (lower_char c) = Ascii.eqb d c).
  { destruct (Ascii.eqb_spec d c) as [<-|Hne].
    - rewrite lower_char_digit by exact Hd. apply Ascii.eqb_refl.
    - apply Ascii.eqb_neq. intros Hdl. apply Hne.
      rewrite <- lower_char_is_digit; [exact Hdl | now rewrite <- Hdl]. }
  rewrite Heq. destruct (Ascii.eqb d c); cbn; now rewrite IH.
Qed.

End PyStrFacts.

(** ** The brand matcher *)

Module BrandMatcherFacts.
Import PyStr PyStrFacts BrandMatcher LoopFacts.

(** *** The homoglyph table *)

(** The table the loop runs over: the second value given for a key
    replaces the first. *)
Lemma homoglyphs_items :
  homoglyphs =
  [ ("0", "o"); ("o", "0"); ("1", "i"); ("l", "1"); ("i", "1");
    ("5", "s"); ("s", "5"); ("rn", "m"); ("m", "nn"); ("cl", "d");
    ("d", "cl"); ("vv", "w"); ("w", "vv"); ("nn", "m") ].
Proof. reflexivity. Qed.

Lemma lower_eq_chars a b : lower a = lower b -> lower_chars (chars a) = lower_chars (chars b).
Proof. intros Heq. rewrite <- !chars_lower. now f_equal. Qed.

(** An entry whose two texts differ in length. *)
Lemma entry_other_length o r :
  chars o <> [] -> length (chars o) <> length (chars r) -> never_own_lowering (o, r).
Proof.
  intros Ho Hlen brand Hc Heq. cbn [fst snd] in *.
  apply lower_eq_chars in Heq. apply (f_equal (@length ascii)) in Heq.
  unfold lower_chars in Heq. rewrite !length_map, chars_replace in Heq.
  revert Heq. now apply replace_changes_length.
Qed.

(** An entry that trades one character for another, one of them a digit. *)
Lemma entry_digit o r co cr :
  chars o = [co] -> chars r = [cr] -> co <> cr ->
  is_digit co || is_digit cr = true -> never_own_lowering (o, r).
Proof.
  intros Ho Hr Hne Hd brand Hc Heq. cbn [fst snd] in *.
  apply lower_eq_chars in Heq.
  rewrite chars_replace, Ho, Hr, replace_one_char in Heq.
  unfold contains in Hc. rewrite Ho in Hc. apply contains_one_char in Hc.
  apply orb_true_iff in Hd as [Hd|Hd].
  - apply (f_equal (count_char co)) in Heq.
    rewrite !count_char_lower_digit in Heq by exact Hd.
    rewrite count_char_substitute_old in Heq by exact Hne. lia.
  - apply (f_equal (count_char cr)) in Heq.
    rewrite !count_char_lower_digit in Heq by exact Hd.
    rewrite count_char_substitute_new in Heq by exact Hne. lia.
Qed.

Lemma homoglyphs_change_brand : Forall never_own_lowering homoglyphs.
Proof.
  rewrite homoglyphs_items.
  repeat constructor;
    first [ apply entry_other_length; [discriminate | cbn; lia]
          | eapply entry_digit; [reflexivity | reflexivity | discriminate | reflexivity] ].
Qed.

(** *** Self-match exclusion *)

Section SelfMatch.
Context `{Externals}.
Variables (self : t) (hostname brand : string).

#[local] Abbreviation label := (domain (tldextract_extract hostname)).

Hypothesis label_is_brand : lower label = lower brand.

Lemma subdomain_check_free extracted acc b :
  Forall (self_match_free brand) acc ->
  Forall (self_match_free brand) (subdomain_check extracted acc b).
Proof.
  intros Hacc. unfold subdomain_check.
  destruct (truthy _ && contains _ _); [|exact Hacc].
  apply Forall_snoc; [exact Hacc|]. intros _. cbn. repeat split; discriminate.
Qed.

Lemma exact_brand_free acc b :
  Forall (self_match_free brand) acc ->
  Forall (self_match_free brand) (exact_brand (tldextract_extract hostname) acc b).
Proof.
  intros Hacc. unfold exact_brand.
  destruct (contains b (lower label)); [|now apply subdomain_check_free].
  destruct (String.eqb_spec (lower label) (lower b)) as [_|Hne]; [exact Hacc|].
  apply subdomain_check_free, Forall_snoc; [exact Hacc|].
  intros Hb. cbn in Hb. subst b. now destruct Hne.
Qed.

Lemma typo_brand_free acc b :
  Forall (self_match_free brand) acc ->
  Forall (self_match_free brand) (typo_brand self label acc b).
Proof.
  intros Hacc. unfold typo_brand.
  destruct (len b <? 4)%nat; [exact Hacc|].
  destruct (_ || _); [|exact Hacc].
  destruct (String.eqb_spec (lower label) (lower b)) as [_|Hne]; [exact Hacc|].
  apply Forall_snoc; [exact Hacc|].
  intros Hb. cbn in Hb. subst b. now destruct Hne.
Qed.

Lemma homoglyph_entry_free acc b entry :
  Forall (self_match_free brand) acc -> never_own_lowering entry ->
  Forall (self_match_free brand) (homoglyph_entry label b acc entry).
Proof.
  intros Hacc Hentry. destruct entry as [o r]. unfold homoglyph_entry.
  destruct (contains o b) eqn:Hc; [|exact Hacc].
  destruct (String.eqb_spec (lower label) (lower (replace b o r))) as [Heq|_].
  - apply Forall_snoc; [exact Hacc|].
    intros Hb. cbn in Hb. subst b. exfalso.
    apply (Hentry brand Hc). cbn [fst snd]. now rewrite <- Heq.
  - destruct (contains (lower (replace b o r)) (lower label)); [|exact Hacc].
    apply Forall_snoc; [exact Hacc|]. intros _. cbn. repeat split; discriminate.
Qed.

Lemma check_homoglyphs_free :
  Forall (self_match_free brand) (_check_homoglyphs self label).
Proof.
  unfold _check_homoglyphs.
  apply (fold_left_keeps (Forall (self_match_free brand))); [|constructor].
  intros acc b Hacc. unfold homoglyph_brand.
  destruct (len b <? 4)%nat; [exact Hacc|].
  apply (fold_left_invariant (Forall (self_match_free brand)) never_own_lowering);
    [| apply homoglyphs_change_brand | exact Hacc].
  intros acc' entry Hacc' Hentry. now apply homoglyph_entry_free.
Qed.

Lemma find_matches_free :
  Forall (self_match_free brand) (find_matches self hostname).
Proof.
  unfold find_matches. apply Forall_app. split; [|apply check_homoglyphs_free].
  apply (fold_left_keeps (Forall (self_match_free brand))); [apply typo_brand_free|].
  apply (fold_left_keeps (Forall (self_match_free brand))); [apply exact_brand_free|].
  constructor.
Qed.

End SelfMatch.

(** C6. When the domain label of the host name equals a brand up to
    case, no match that [find_matches] returns for that brand is a
    brand_in_domain, a typosquatting or a homoglyph_attack match; this
    holds for every brand list, so for every brand in it. *)
Theorem self_match_excluded `{Externals} (self : t) (hostname brand : string) :
  lower (domain (tldextract_extract hostname)) = lower brand ->
  forall m, In m (find_matches self hostname) -> match_brand m = brand ->
    match_type m <> "brand_in_domain"
    /\ match_type m <> "typosquatting"
    /\ match_type m <> "homoglyph_attack".
Proof.
  intros Hlabel m Hin.
  pose proof (find_matches_free self hostname brand Hlabel) as Hall.
  rewrite List.Forall_forall in Hall. exact (Hall m Hin).
Qed.

(** The host [www.PayPal.com] against the default brands: the only match
    is not about [paypal]. *)
Lemma self_match_excluded_witness :
  lower (domain (TestDouble.td_extract "www.PayPal.com")) = lower "paypal"
  /\ Forall (self_match_free "paypal")
       (@find_matches TestDouble.externals (init None) "www.PayPal.com").
Proof.
  split; [reflexivity|].
  apply List.Forall_forall. intros m Hin.
  exact (@self_match_excluded TestDouble.externals (init None) "www.PayPal.com" "paypal"
           eq_refl m Hin).
Defined.

(** *** Similarities *)

(** Every similarity [find_matches] stores is an answer of [fuzz.ratio]. *)
Lemma find_matches_in_range `{Externals} (self : t) (hostname : string) :
  (forall a b, (0 <= fuzz_ratio a b <= 100)%Z) ->
  Forall RiskEngine.similarity_in_range (find_matches self hostname).
Proof.
  intros Hfuzz. unfold find_matches.
  assert (Hnone : forall m, match_similarity m = None -> RiskEngine.similarity_in_range m)
    by (intros m Hm s Hs; congruence).
  apply Forall_app. split.
  - apply (fold_left_keeps (Forall RiskEngine.similarity_in_range)).
    { intros acc b Hacc. unfold typo_brand.
      destruct (len b <? 4)%nat; [exact Hacc|].
      destruct (_ || _); [|exact Hacc].
      destruct (String.eqb _ _); [exact Hacc|].
      apply Forall_snoc; [exact Hacc|].
      intros s Hs. cbn in Hs. injection Hs as <-. apply Hfuzz. }
    apply (fold_left_keeps (Forall RiskEngine.similarity_in_range)); [|constructor].
    intros acc b Hacc. unfold exact_brand, subdomain_check.
    repeat match goal with
           | |- context [if ?c then _ else _] => destruct c
           end;
      repeat apply Forall_snoc; auto.
  - unfold _check_homoglyphs.
    apply (fold_left_keeps (Forall RiskEngine.similarity_in_range)); [|constructor].
    intros acc b Hacc. unfold homoglyph_brand.
    destruct (len b <? 4)%nat; [exact Hacc|].
    apply (fold_left_keeps (Forall RiskEngine.similarity_in_range)); [|exact Hacc].
    intros acc' [o r] Hacc'. unfold homoglyph_entry.
    repeat match goal with
           | |- context [if ?c then _ else _] => destruct c
           end;
      repeat apply Forall_snoc; auto.
Qed.

(** *** The brand that is listed twice *)

Section Dropbox.
Context `{Externals}.
Variable hostname : string.

#[local] Abbreviation label := (domain (tldextract_extract hostname)).
#[local] Abbreviation view := (List.filter (is_brand_in_domain_of "dropbox")).

Hypothesis label_contains : contains "dropbox" (lower label) = true.
Hypothesis label_longer : lower label <> "dropbox".






End Dropbox.

(** C4 (as the code behaves). The display of the table lists [m -> rn],
    but the later entry [m -> nn] is stored under the same key, so the
    table that is used maps [m] to [nn] only.  The candidate [arnazon] of
    the brand [amazon] is never built, and the domain [arnazon] gets no
    homoglyph_attack match, neither from the homoglyph pass nor from
    [find_matches] as a whole. *)
Theorem homoglyph_m_rn_overwritten :
  In ("m", "rn") homoglyphs_display
  /\ ~ In ("m", "rn") homoglyphs
  /\ In ("m", "nn") homoglyphs
  /\ (4 <=? len "amazon")%nat = true
  /\ contains "m" "amazon" = true
  /\ replace "amazon" "m" "rn" = "arnazon"
  /\ _check_homoglyphs (init (Some ["amazon"])) "arnazon" = []
  /\ _check_homoglyphs (init None) "arnazon" = []
  /\ List.filter (fun m => String.eqb (match_type m) "homoglyph_attack")
       (@find_matches TestDouble.externals (init None) "arnazon.com") = [].
Proof.
  repeat split; try reflexivity.
  - cbn. auto 20.
  - rewrite homoglyphs_items. cbn. intros Hin.
    repeat (destruct Hin as [Heq|Hin]; [discriminate Heq|]). exact Hin.
  - rewrite homoglyphs_items. cbn. auto 20.
Qed.

End BrandMatcherFacts.

(** ** The registration intelligence *)

Module DomainIntelligenceFacts.
Import PyStr DomainIntelligence.

(** C9. For a host name that, its port cut off, [_is_ip_address]
    recognises as an IP literal, [analyze] asks [whois.whois] nothing and
    returns a record with [domain_exists] false whose only suspicious
    trait is of kind ip_address_no_whois. *)
Theorem ip_literal_skips_whois `{Externals} (self : t) (hostname : string) :
  _is_ip_address (strip_port hostname) = true ->
  snd (analyze self hostname) = []
  /\ domain_exists (fst (analyze self hostname)) = false
  /\ di_suspicious_traits (fst (analyze self hostname)) =
       [ {| trait_type := "ip_address_no_whois";
            trait_value := VStr (strip_port hostname);
            trait_description :=
              "IP address used instead of domain name (no WHOIS data)" |} ].
Proof.
  intros Hip. unfold analyze. rewrite Hip. cbn. repeat split; reflexivity.
Qed.

(** The host [192.168.1.1:8080]. *)
Lemma ip_literal_skips_whois_witness :
  @_is_ip_address TestDouble.externals (strip_port "192.168.1.1:8080") = true
  /\ snd (@analyze TestDouble.externals init "192.168.1.1:8080") = []
  /\ domain_exists (fst (@analyze TestDouble.externals init "192.168.1.1:8080")) = false
  /\ di_suspicious_traits (fst (@analyze TestDouble.externals init "192.168.1.1:8080")) =
       [ {| trait_type := "ip_address_no_whois";
            trait_value := VStr "192.168.1.1";
            trait_description :=
              "IP address used instead of domain name (no WHOIS data)" |} ].
Proof.
  split; [reflexivity|].
  exact (@ip_literal_skips_whois TestDouble.externals init "192.168.1.1:8080" eq_refl).
Defined.

End DomainIntelligenceFacts.

(** ** The URL parser *)

Module URLParserFacts.
Import PyStr URLParser.

Section Parse.
Context `{Externals}.
Variables (self : t) (url : string).

(** Whatever [urlparse] raises leaves [parse] as it is. *)
Lemma parse_urlparse_raises e :
  urlparse (ensure_scheme url) = Raise e -> parse self url = Raise e.
Proof. intros Hp. unfold parse. now rewrite Hp. Qed.

(** The hex-encoding branch ends the analysis of the traits. *)
Lemma traits_hex_raises parsed extracted :
  hex_pattern_search (netloc parsed) || hex_pattern_search (path parsed) = true ->
  _analyze_suspicious_traits self parsed extracted = Raise (NameError "url").
Proof. intros Hhex. unfold _analyze_suspicious_traits. now rewrite Hhex. Qed.

Lemma traits_without_hex parsed extracted :
  hex_pattern_search (netloc parsed) || hex_pattern_search (path parsed) = false ->
  exists traits, _analyze_suspicious_traits self parsed extracted = Ok traits.
Proof.
  intros Hhex. unfold _analyze_suspicious_traits. rewrite Hhex. cbn [bind].
  eexists. reflexivity.
Qed.

End Parse.

(** C3 (as stated, at a text that is no URI). With the scheme put in
    front, [exa mple.com] holds a space, which no URI may; [parse] still
    returns the full decomposition, and no error. *)
Lemma text_with_space_is_decomposed :
  Spec.uri_chars_only (ensure_scheme "exa mple.com") = false
  /\ @parse TestDouble.externals init "exa mple.com" =
     Ok {| uf_url := "http://exa mple.com";
           uf_scheme := "http";
           uf_hostname := "exa mple.com";
           uf_path := EmptyString;
           uf_query := EmptyString;
           uf_fragment := EmptyString;
           uf_domain := "exa mple";
           uf_subdomain := EmptyString;
           uf_tld := "com";
           uf_query_params := [];
           uf_suspicious_traits := [] |}.
Proof. split; reflexivity. Qed.

(** C3 (amended). [parse] checks no grammar and has no error of its own
    for a malformed text.  An exception of [urlparse] on the text with
    its scheme ends [parse] with that exception and without a result;
    a text [urlparse] accepts, free of percent escapes in host and path,
    is decomposed in full, whatever it looks like. *)
Theorem parse_rejects_only_what_urlparse_rejects `{Externals} (self : t) (url : string) :
  (forall e, urlparse (ensure_scheme url) = Raise e -> parse self url = Raise e)
  /\ (forall parsed,
        urlparse (ensure_scheme url) = Ok parsed ->
        hex_pattern_search (netloc parsed) || hex_pattern_search (path parsed) = false ->
        exists traits,
          parse self url =
          Ok {| uf_url := ensure_scheme url;
                uf_scheme := scheme parsed;
                uf_hostname := netloc parsed;
                uf_path := path parsed;
                uf_query := query parsed;
                uf_fragment := fragment parsed;
                uf_domain := domain (tldextract_extract (ensure_scheme url));
                uf_subdomain := subdomain (tldextract_extract (ensure_scheme url));
                uf_tld := suffix (tldextract_extract (ensure_scheme url));
                uf_query_params := parse_qs (query parsed);
                uf_suspicious_traits := traits |}).
Proof.
  split.
  - apply parse_urlparse_raises.
  - intros parsed Hp Hhex. unfold parse. rewrite Hp. cbn [bind].
    destruct (traits_without_hex self parsed (tldextract_extract (ensure_scheme url)) Hhex)
      as [traits ->].
    exists traits. reflexivity.
Qed.

(** A host with an unbalanced bracket, which the test double of
    [urlparse] rejects, and the text with a space, which it accepts. *)
Lemma parse_rejects_only_what_urlparse_rejects_witness :
  @parse TestDouble.externals init "http://[::1/x" = Raise (ValueError "Invalid IPv6 URL")
  /\ exists traits,
       @parse TestDouble.externals init "exa mple.com" =
       Ok {| uf_url := "http://exa mple.com";
             uf_scheme := "http";
             uf_hostname := "exa mple.com";
             uf_path := EmptyString;
             uf_query := EmptyString;
             uf_fragment := EmptyString;
             uf_domain := "exa mple";
             uf_subdomain := EmptyString;
             uf_tld := "com";
             uf_query_params := [];
             uf_suspicious_traits := traits |}.
Proof.
  split.
  - exact (proj1 (@parse_rejects_only_what_urlparse_rejects TestDouble.externals init
                    "http://[::1/x") _ eq_refl).
  - exact (proj2 (@parse_rejects_only_what_urlparse_rejects TestDouble.externals init
                    "exa mple.com") _ eq_refl eq_refl).
Defined.

End URLParserFacts.

(** ** The pipeline *)

Module PhishSniperFacts.
Import PyStr Result PhishSniper.

(** *** The score of an analysed URL *)

(** C1. For every URL the analysis returns a result for, the risk score
    is the sum of the weights of the risk factors of the result, capped
    at 100, and so lies between 0 and 100; the risk level is decided by
    the score alone: Low below 30, Medium from 30 and below 70, High
    from 70.  ([fuzz.ratio] answers with a percentage.) *)
Theorem risk_score_capped_and_banded `{Externals}
    (url : string) (verbose : bool) (r : AnalysisResult)
    (asked : DomainIntelligence.lookups) :
  (forall a b, (0 <= fuzz_ratio a b <= 100)%Z) ->
  analyze init url verbose = (Ok r, asked) ->
  risk_score r = Z.min (RiskEngine.sum_weights (risk_factors r)) 100
  /\ (0 <= risk_score r <= 100)%Z
  /\ ((risk_score r < 30)%Z -> risk_level r = "Low")
  /\ ((30 <= risk_score r < 70)%Z -> risk_level r = "Medium")
  /\ ((70 <= risk_score r)%Z -> risk_level r = "High").
Proof.
  intros Hfuzz Hrun. unfold analyze in Hrun.
  destruct (URLParser.parse (url_parser init) url) as [uf|e]; [|discriminate].
  destruct (DomainIntelligence.analyze _ _) as [info asked'].
  set (features := all_features uf info _) in Hrun.
  assert (Hrange : RiskEngine.features_in_range features)
    by (apply BrandMatcherFacts.find_matches_in_range, Hfuzz).
  pose proof (RiskEngineFacts.calculate_risk_capped features Hrange) as [Hsum Hbound].
  change (risk_engine init) with RiskEngine.init in Hrun.
  destruct (RiskEngine.calculate_risk RiskEngine.init features) as [score factors].
  injection Hrun as <- _. cbn [risk_score risk_factors fst snd] in *.
  split; [exact Hsum|]. split; [exact Hbound|].
  unfold risk_level. cbn [risk_score].
  repeat split; intros Hs;
    destruct (Z.ltb_spec score 30); destruct (Z.ltb_spec score 70);
    try reflexivity; lia.
Qed.

Lemma test_double_ratio_range a b : (0 <= TestDouble.td_ratio a b <= 100)%Z.
Proof. unfold TestDouble.td_ratio. destruct (String.eqb a b); lia. Qed.

(** The URL [http://g00gle.tk/login.php]: four factors of weights 50, 33,
    20 and 15, a score of 100, level High. *)
Lemma risk_score_capped_and_banded_witness :
  exists r asked,
    @analyze TestDouble.externals init "http://g00gle.tk/login.php" false = (Ok r, asked)
    /\ map factor_weight (risk_factors r) = [50; 33; 20; 15]%Z
    /\ risk_score r = Z.min (RiskEngine.sum_weights (risk_factors r)) 100
    /\ (0 <= risk_score r <= 100)%Z
    /\ ((risk_score r < 30)%Z -> risk_level r = "Low")
    /\ ((30 <= risk_score r < 70)%Z -> risk_level r = "Medium")
    /\ ((70 <= risk_score r)%Z -> risk_level r = "High").
Proof.
  eexists. eexists. split; [vm_compute; reflexivity|].
  split; [reflexivity|].
  apply (@risk_score_capped_and_banded TestDouble.externals
           "http://g00gle.tk/login.php" false _ ["g00gle.tk"] test_double_ratio_range).
  vm_compute. reflexivity.
Defined.

(** *** Percent escapes *)

(** C2 (as the code behaves). When the host or the path that [urlparse]
    returns holds a percent escape, the trait analysis reads the name
    [url], which it does not have: [parse] ends with a [NameError], no
    trait list is returned, and the whole analysis ends with that
    exception before any lookup. *)
Theorem percent_escape_raises_name_error `{Externals}
    (self : PhishSniper.t) (url : string) (verbose : bool) (parsed : ParseResult) :
  urlparse (URLParser.ensure_scheme url) = Ok parsed ->
  URLParser.hex_pattern_search (netloc parsed)
    || URLParser.hex_pattern_search (path parsed) = true ->
  URLParser.parse (url_parser self) url = Raise (NameError "url")
  /\ analyze self url verbose = (Raise (NameError "url"), []).
Proof.
  intros Hp Hhex.
  assert (Hparse : URLParser.parse (url_parser self) url = Raise (NameError "url")).
  { unfold URLParser.parse. rewrite Hp. cbn [bind].
    now rewrite URLParserFacts.traits_hex_raises. }
  split; [exact Hparse|]. unfold analyze. now rewrite Hparse.
Qed.

(** The URL [http://example.com/%20]. *)
Lemma percent_escape_raises_name_error_witness :
  URLParser.hex_pattern_search "/%20" = true
  /\ @URLParser.parse TestDouble.externals URLParser.init "http://example.com/%20"
     = Raise (NameError "url")
  /\ @analyze TestDouble.externals init "http://example.com/%20" false
     = (Raise (NameError "url"), []).
Proof.
  split; [reflexivity|].
  exact (@percent_escape_raises_name_error TestDouble.externals init
           "http://example.com/%20" false _ eq_refl eq_refl).
Defined.

(** *** The brand that is listed twice *)





(** A label that holds [dropbox] as written, and more, also does when
    compared in lower case. *)
Lemma starts_with_lower p :
  forall s, starts_with p s = true -> starts_with (lower_chars p) (lower_chars s) = true.
Proof.
  induction p as [|a p IH]; intros [|b s] Hp; cbn in *; try reflexivity; try discriminate.
  apply andb_true_iff in Hp as [Hab Hp]. apply Ascii.eqb_eq in Hab. subst b.
  now rewrite Ascii.eqb_refl, IH.
Qed.

Lemma contains_chars_lower p s :
  contains_chars p s = true -> contains_chars (lower_chars p) (lower_chars s) = true.
Proof.
  induction s as [|c s IH]; cbn [contains_chars lower_chars map]; intros Hc.
  - rewrite orb_false_r in *. now apply (starts_with_lower p []).
  - apply orb_true_iff in Hc as [Hc|Hc]; apply orb_true_iff.
    + left. now apply (starts_with_lower p (c :: s)).
    + right. now apply IH.
Qed.

Lemma contains_chars_length p s :
  contains_chars p s = true ->
  length p <= length s /\ (length p = length s -> p = s).
Proof.
  induction s as [|c s IH]; cbn [contains_chars]; intros Hc.
  - rewrite orb_false_r in Hc. split.
    + now apply PyStrFacts.starts_with_length in Hc.
    + now apply PyStrFacts.starts_with_same_length.
  - apply orb_true_iff in Hc as [Hc|Hc].
    + split; [now apply PyStrFacts.starts_with_length in Hc
             | now apply PyStrFacts.starts_with_same_length].
    + apply IH in Hc as [Hle _]. cbn [length]. split; lia.
Qed.

Lemma literal_label_in_scope label :
  contains "dropbox" label = true -> label <> "dropbox" ->
  contains "dropbox" (lower label) = true /\ lower label <> "dropbox".
Proof.
  unfold contains. intros Hc Hne. split.
  - rewrite PyStrFacts.chars_lower. exact (contains_chars_lower _ _ Hc).
  - intros Heq. apply contains_chars_length in Hc as [_ Hsame].
    apply Hne. apply PyStrFacts.chars_inj. symmetry. apply Hsame.
    rewrite <- (length_map lower_char (chars label)).
    fold (lower_chars (chars label)). rewrite <- PyStrFacts.chars_lower, Heq.
    reflexivity.
Qed.



End PhishSniperFacts.

(** ** The edit distance as a metric *)

Module LevenshteinMetric.
Import PyStr BrandMatcher Spec LevenshteinFacts.

Section Prefixes.
Variables a b : list ascii.

Lemma edit_distance_prefix_lower i :
  forall j, i - j <= edit_distance_prefix a b i j /\ j - i <= edit_distance_prefix a b i j.
Proof.
  induction i as [|i IHi]; intros j.
  - cbn. lia.
  - destruct j as [|j]; [rewrite edit_distance_prefix_0_r; lia|].
    rewrite edit_distance_prefix_SS.
    pose proof (IHi (S j)). pose proof (IHi j).
    assert (Hrow : S i - j <= edit_distance_prefix a b (S i) j
                   /\ j - S i <= edit_distance_prefix a b (S i) j).
    { clear -IHi. induction j as [|j IHj]; [rewrite edit_distance_prefix_0_r; lia|].
      rewrite edit_distance_prefix_SS.
      pose proof (IHi (S j)). pose proof (IHi j). unfold min3. lia. }
    unfold min3. lia.
Qed.

Lemma edit_distance_prefix_upper i :
  forall j, edit_distance_prefix a b i j <= Nat.max i j.
Proof.
  induction i as [|i IHi]; intros j.
  - cbn. lia.
  - destruct j as [|j]; [rewrite edit_distance_prefix_0_r; lia|].
    rewrite edit_distance_prefix_SS. pose proof (IHi j).
    unfold min3, substitution_cost. destruct (bool_decide _); lia.
Qed.

(** No edit at all: the prefixes have one length and agree everywhere. *)
Lemma edit_distance_prefix_zero i :
  forall j, edit_distance_prefix a b i j = 0 ->
    i = j /\ forall k, k < i -> a !! k = b !! k.
Proof.
  induction i as [|i IHi]; intros j Hz.
  - cbn in Hz. subst j. split; [reflexivity | intros k Hk; lia].
  - destruct j as [|j]; [rewrite edit_distance_prefix_0_r in Hz; lia|].
    rewrite edit_distance_prefix_SS in Hz.
    assert (H0 : edit_distance_prefix a b i j = 0
                 /\ substitution_cost (a !! i) (b !! j) = 0)
      by (unfold min3 in Hz; lia).
    destruct H0 as [H0 Hc]. apply IHi in H0 as [<- Hk].
    split; [reflexivity|]. intros k Hlt.
    destruct (Nat.eq_dec k i) as [->|Hne]; [|apply Hk; lia].
    unfold substitution_cost in Hc.
    destruct (bool_decide_reflect (a !! i = b !! i)); [assumption | discriminate].
Qed.

End Prefixes.

Lemma edit_distance_prefix_refl a i : edit_distance_prefix a a i i = 0.
Proof.
  induction i as [|i IH]; [reflexivity|].
  rewrite edit_distance_prefix_SS, IH. unfold substitution_cost.
  rewrite bool_decide_eq_true_2 by reflexivity. unfold min3. lia.
Qed.

Lemma substitution_cost_triangle x y z :
  substitution_cost x z <= substitution_cost x y + substitution_cost y z.
Proof.
  unfold substitution_cost.
  destruct (bool_decide_reflect (x = z)), (bool_decide_reflect (x = y)),
    (bool_decide_reflect (y = z)); try lia; congruence.
Qed.

(** Going through a third text is never shorter. *)
Lemma edit_distance_prefix_triangle a b c n :
  forall i j k, i + j + k <= n ->
    edit_distance_prefix a c i k
    <= edit_distance_prefix a b i j + edit_distance_prefix b c j k.
Proof.
  induction n as [|n IH]; intros i j k Hn.
  - assert (i = 0) by lia. assert (j = 0) by lia. assert (k = 0) by lia.
    subst. cbn. lia.
  - destruct i as [|i].
    { change (edit_distance_prefix a c 0 k) with k.
      change (edit_distance_prefix a b 0 j) with j.
      pose proof (edit_distance_prefix_lower b c j k). lia. }
    destruct k as [|k].
    { rewrite !edit_distance_prefix_0_r.
      pose proof (edit_distance_prefix_lower a b (S i) j). lia. }
    destruct j as [|j].
    { rewrite edit_distance_prefix_0_r.
      change (edit_distance_prefix b c 0 (S k)) with (S k).
      pose proof (edit_distance_prefix_upper a c (S i) (S k)). lia. }
    rewrite !edit_distance_prefix_SS.
    pose proof (IH i (S j) (S k) ltac:(lia)).
    pose proof (IH (S i) j (S k) ltac:(lia)).
    pose proof (IH (S i) (S j) k ltac:(lia)).
    pose proof (IH (S i) j k ltac:(lia)).
    pose proof (IH i j (S k) ltac:(lia)).
    pose proof (IH i j k ltac:(lia)).
    pose proof (substitution_cost_triangle (a !! i) (b !! j) (c !! k)).
    rewrite !edit_distance_prefix_SS in *.
    unfold min3 in *. lia.
Qed.

(** X1. The edit distance of two strings is 0 exactly when they are the
    same string. *)
Theorem levenshtein_zero_iff_equal (s1 s2 : string) :
  _levenshtein_distance s1 s2 = 0 <-> s1 = s2.
Proof.
  unfold _levenshtein_distance. rewrite lev_chars_classic. split.
  - intros Hz. apply edit_distance_prefix_zero in Hz as [Hlen Hk].
    apply PyStrFacts.chars_inj, list_eq. intros k.
    destruct (Nat.lt_ge_cases k (length (chars s1))) as [Hlt|Hge]; [now apply Hk|].
    rewrite !lookup_ge_None_2; [reflexivity | lia | lia].
  - intros <-. apply edit_distance_prefix_refl.
Qed.

(** X2. The edit distance lies between the difference of the two lengths
    and the larger length. *)
Theorem levenshtein_bounds (s1 s2 : string) :
  Nat.max (len s1) (len s2) - Nat.min (len s1) (len s2) <= _levenshtein_distance s1 s2
  /\ _levenshtein_distance s1 s2 <= Nat.max (len s1) (len s2).
Proof.
  unfold _levenshtein_distance, len. rewrite lev_chars_classic.
  pose proof (edit_distance_prefix_lower (chars s1) (chars s2)
                (length (chars s1)) (length (chars s2))).
  pose proof (edit_distance_prefix_upper (chars s1) (chars s2)
                (length (chars s1)) (length (chars s2))).
  lia.
Qed.

(** X3. The edit distance obeys the triangle inequality. *)
Theorem levenshtein_triangle (s1 s2 s3 : string) :
  _levenshtein_distance s1 s3
  <= _levenshtein_distance s1 s2 + _levenshtein_distance s2 s3.
Proof.
  unfold _levenshtein_distance. rewrite !lev_chars_classic.
  eapply edit_distance_prefix_triangle. reflexivity.
Qed.

End LevenshteinMetric.

(** ** The risk engine with any table of weights *)

Module RiskEngineExtras.
Import RiskEngine LoopFacts RiskEngineFacts.

Lemma trait_step_factor self st trait :
  trait_step self st trait
  = ((fst st + sum_weights (trait_factor self trait))%Z, snd st ++ trait_factor self trait).
Proof.
  destruct st as [total factors]. unfold trait_step, trait_factor.
  destruct (risk_weights self !! trait_type trait); cbn.
  - f_equal. lia.
  - now rewrite Z.add_0_r, app_nil_r.
Qed.

Lemma match_step_factor self st m :
  match_step self st m
  = ((fst st + sum_weights (match_factor self m))%Z, snd st ++ match_factor self m).
Proof.
  destruct st as [total factors]. unfold match_step, match_factor.
  destruct (risk_weights self !! match_type m); cbn.
  - f_equal. lia.
  - now rewrite Z.add_0_r, app_nil_r.
Qed.

(** A loop whose rounds add the factors [emit] gives adds them all. *)
Lemma fold_left_factors {A} (step : state -> A -> state) (emit : A -> list RiskFactor) l :
  (forall st x, step st x = ((fst st + sum_weights (emit x))%Z, snd st ++ emit x)) ->
  forall st,
    fold_left step l st
    = ((fst st + sum_weights (flat_map emit l))%Z, snd st ++ flat_map emit l).
Proof.
  intros Hstep. induction l as [|x l IH]; intros [total factors]; cbn [fold_left flat_map].
  - cbn. now rewrite Z.add_0_r, app_nil_r.
  - rewrite IH, Hstep. cbn [fst snd].
    rewrite sum_weights_app, <- app_assoc. f_equal. lia.
Qed.

Lemma optional_loop {A} (step : state -> A -> state) (emit : A -> list RiskFactor)
    (o : option (list A)) st :
  (forall st x, step st x = ((fst st + sum_weights (emit x))%Z, snd st ++ emit x)) ->
  match o with
  | Some l => fold_left step l st
  | None => st
  end
  = ((fst st + sum_weights (flat_map emit (default [] o)))%Z,
     snd st ++ flat_map emit (default [] o)).
Proof.
  intros Hstep. destruct o as [l|]; cbn [default].
  - now apply fold_left_factors.
  - destruct st. cbn. now rewrite Z.add_0_r, app_nil_r.
Qed.

(** The three loops record the factors of the inputs and their sum. *)
Lemma recorded_factors self features :
  recorded self features = (sum_weights (factors_of self features), factors_of self features).
Proof.
  unfold recorded, factors_of.
  rewrite (optional_loop _ _ (suspicious_traits features) _ (trait_step_factor self)).
  assert (Hinfo : forall st,
             match domain_info features with
             | Some info => fold_left (trait_step self) (di_suspicious_traits info) st
             | None => st
             end
             = match option_map di_suspicious_traits (domain_info features) with
               | Some l => fold_left (trait_step self) l st
               | None => st
               end)
    by (intros st; now destruct (domain_info features)).
  rewrite Hinfo.
  rewrite (optional_loop _ _ (option_map di_suspicious_traits (domain_info features)) _
             (trait_step_factor self)).
  rewrite (optional_loop _ _ (brand_matches features) _ (match_step_factor self)).
  cbn [fst snd]. rewrite !sum_weights_app. cbn [app]. rewrite <- app_assoc.
  f_equal. lia.
Qed.

Lemma flat_map_filter {A B} (p : A -> bool) (f : A -> list B) l :
  (forall x, p x = false -> f x = []) ->
  flat_map f (List.filter p l) = flat_map f l.
Proof.
  intros Hp. induction l as [|x l IH]; [reflexivity|]. cbn.
  destruct (p x) eqn:Hx; cbn; [now rewrite IH | now rewrite IH, (Hp x Hx)].
Qed.

Lemma flat_map_one_each {A B} (p : A -> bool) (f : A -> list B) l :
  (forall x, p x = true -> length (f x) = 1) ->
  length (flat_map f (List.filter p l)) = length (List.filter p l).
Proof.
  intros Hp. induction l as [|x l IH]; [reflexivity|]. cbn.
  destruct (p x) eqn:Hx; [|exact IH]. cbn. rewrite length_app, IH, (Hp x Hx). reflexivity.
Qed.

Lemma weighted_false self kind : weighted self kind = false -> risk_weights self !! kind = None.
Proof.
  unfold weighted. intros Hw. apply bool_decide_eq_false in Hw.
  destruct (risk_weights self !! kind); [|reflexivity].
  exfalso. apply Hw. eauto.
Qed.

Lemma weighted_true self kind :
  weighted self kind = true -> exists w, risk_weights self !! kind = Some w.
Proof. unfold weighted. intros Hw. apply bool_decide_eq_true in Hw. exact Hw. Qed.

Lemma trait_factors_weighted self l :
  flat_map (trait_factor self) (List.filter (fun tr => weighted self (trait_type tr)) l)
  = flat_map (trait_factor self) l.
Proof.
  apply flat_map_filter. intros x Hx. apply weighted_false in Hx.
  unfold trait_factor. now rewrite Hx.
Qed.

Lemma match_factors_weighted self l :
  flat_map (match_factor self) (List.filter (fun m => weighted self (match_type m)) l)
  = flat_map (match_factor self) l.
Proof.
  apply flat_map_filter. intros x Hx. apply weighted_false in Hx.
  unfold match_factor. now rewrite Hx.
Qed.

Lemma factors_of_weighted_only self features :
  factors_of self (weighted_only self features) = factors_of self features.
Proof.
  unfold factors_of, weighted_only. cbn [suspicious_traits domain_info brand_matches].
  destruct (suspicious_traits features) as [traits|];
    destruct (domain_info features) as [info|];
    destruct (brand_matches features) as [matches|];
    cbn [from_option option_map di_suspicious_traits]; unfold id;
    now rewrite ?trait_factors_weighted, ?match_factors_weighted.
Qed.

(** X4. For every table of weights and every input, the score is the sum
    of the weights of the returned factors, cut at the maximum: it never
    exceeds [max_risk_score], and nothing bounds it from below. *)
Theorem score_is_capped_sum_for_any_weights (self : t) (features : Features) :
  fst (calculate_risk self features)
    = Z.min (sum_weights (snd (calculate_risk self features))) (max_risk_score self)
  /\ (fst (calculate_risk self features) <= max_risk_score self)%Z
  /\ ((sum_weights (snd (calculate_risk self features)) <= max_risk_score self)%Z ->
      fst (calculate_risk self features) = sum_weights (snd (calculate_risk self features))).
Proof.
  unfold calculate_risk. rewrite recorded_factors. cbn [fst snd].
  rewrite <- (sum_weights_perm _ _ (sort_perm (factors_of self features))).
  repeat split; lia.
Qed.

(** A table with a negative weight: the score is the negative sum. *)
Lemma score_is_capped_sum_for_any_weights_witness :
  let self := {| risk_weights := {[ "long_url" := (-7)%Z ]}; max_risk_score := 100 |} in
  let features :=
    mkFeatures None (Some [mkTrait "long_url" (VInt 120) "Excessively long URL"]) None None in
  (sum_weights (snd (calculate_risk self features)) <= max_risk_score self)%Z
  /\ fst (calculate_risk self features) = (-7)%Z.
Proof.
  intros self features. split; [vm_compute; discriminate|].
  rewrite (proj2 (proj2 (score_is_capped_sum_for_any_weights self features)));
    [reflexivity | vm_compute; discriminate].
Defined.

(** X5. Traits and matches of a kind without a weight are passed over:
    taking them out of the input changes neither the score nor the
    factors, and every remaining trait or match yields exactly one
    factor. *)
Theorem unweighted_kinds_are_ignored (self : t) (features : Features) :
  calculate_risk self features = calculate_risk self (weighted_only self features)
  /\ length (snd (calculate_risk self features)) = input_count (weighted_only self features)
  /\ length (snd (calculate_risk self features)) <= input_count features.
Proof.
  unfold calculate_risk. rewrite !recorded_factors, factors_of_weighted_only.
  split; [reflexivity|]. cbn [snd].
  rewrite <- (Permutation_length (sort_perm (factors_of self features))).
  rewrite <- factors_of_weighted_only.
  unfold factors_of, weighted_only, input_count.
  cbn [suspicious_traits domain_info brand_matches].
  assert (Ht : forall x, weighted self (trait_type x) = true ->
                         length (trait_factor self x) = 1).
  { intros x Hx. apply weighted_true in Hx as [w Hw]. unfold trait_factor. now rewrite Hw. }
  assert (Hm : forall x, weighted self (match_type x) = true ->
                         length (match_factor self x) = 1).
  { intros x Hx. apply weighted_true in Hx as [w Hw]. unfold match_factor. now rewrite Hw. }
  destruct (suspicious_traits features) as [traits|];
    destruct (domain_info features) as [info|];
    destruct (brand_matches features) as [matches|];
    cbn [from_option option_map di_suspicious_traits length flat_map app]; unfold id;
    rewrite ?length_app, ?(flat_map_one_each _ _ _ Ht), ?(flat_map_one_each _ _ _ Hm);
    cbn [length];
    repeat match goal with
           | |- context [length (List.filter ?p ?l)] =>
               generalize (List.filter_length_le p l);
               generalize (length (List.filter p l)); intros ? ?
           end; lia.
Qed.

Lemma flat_map_perm {A B} (f : A -> list B) l l' :
  Permutation l l' -> Permutation (flat_map f l) (flat_map f l').
Proof.
  induction 1; cbn.
  - constructor.
  - now apply Permutation_app_head.
  - rewrite !app_assoc. apply Permutation_app; [apply Permutation_app_comm | reflexivity].
  - etransitivity; eassumption.
Qed.

Lemma same_elements_factors {A} (f : A -> list RiskFactor) (l l' : option (list A)) :
  same_elements l l' ->
  Permutation (flat_map f (default [] l)) (flat_map f (default [] l')).
Proof.
  destruct l as [x|], l' as [y|]; cbn; intros Hs;
    [now apply flat_map_perm | destruct Hs | destruct Hs | constructor].
Qed.

(** X6. The order in which the traits and the matches come in does not
    change the score, nor which factors are returned. *)
Theorem score_ignores_input_order (self : t) (f f' : Features) :
  same_inputs f f' ->
  fst (calculate_risk self f) = fst (calculate_risk self f')
  /\ Permutation (snd (calculate_risk self f)) (snd (calculate_risk self f')).
Proof.
  intros (Ht & Hd & Hm).
  assert (Hperm : Permutation (factors_of self f) (factors_of self f')).
  { unfold factors_of. repeat apply Permutation_app; now apply same_elements_factors. }
  unfold calculate_risk. rewrite !recorded_factors. cbn [fst snd]. split.
  - now rewrite (sum_weights_perm _ _ Hperm).
  - rewrite <- !sort_perm. exact Hperm.
Qed.

(** Two traits swapped. *)
Lemma score_ignores_input_order_witness :
  let a := mkTrait "long_url" (VInt 120) "Excessively long URL" in
  let b := mkTrait "punycode" (VStr "xn--a.com") "Punycode (IDN) encoding detected" in
  fst (calculate_risk init (mkFeatures None (Some [a; b]) None None))
  = fst (calculate_risk init (mkFeatures None (Some [b; a]) None None))
  /\ Permutation (snd (calculate_risk init (mkFeatures None (Some [a; b]) None None)))
       (snd (calculate_risk init (mkFeatures None (Some [b; a]) None None))).
Proof.
  intros a b.
  apply (score_ignores_input_order init
           (mkFeatures None (Some [a; b]) None None)
           (mkFeatures None (Some [b; a]) None None)).
  repeat split. cbn. apply perm_swap.
Defined.

End RiskEngineExtras.

(** ** Adjusting the weights *)

Module AdjustWeightsFacts.
Import RiskEngine.

(** The body of the loop of [adjust_weights]. *)
#[local] Abbreviation adjust_step :=
  (fun (acc : t * list string) (kv : string * Z) =>
     let '(self, unknown) := acc in
     match risk_weights self !! fst kv with
     | Some _ =>
         ({| risk_weights := <[fst kv := snd kv]> (risk_weights self);
             max_risk_score := max_risk_score self |}, unknown)
     | None => (self, unknown ++ [fst kv])
     end).

Lemma weighted_spec self k : weighted self k = true <-> is_Some (risk_weights self !! k).
Proof. unfold weighted. apply bool_decide_eq_true. Qed.

Lemma adjust_loop new_weights :
  forall self unknown,
    let after := fold_left adjust_step new_weights (self, unknown) in
    (forall k,
        risk_weights (fst after) !! k
        = match risk_weights self !! k with
          | Some w => last_value k new_weights (Some w)
          | None => None
          end)
    /\ max_risk_score (fst after) = max_risk_score self
    /\ snd after
       = unknown ++ map fst (List.filter (fun kv => negb (weighted self (fst kv))) new_weights).
Proof.
  induction new_weights as [|[k' v] rest IH]; intros self unknown; cbn [fold_left].
  - cbn. repeat split.
    + intros k. now destruct (risk_weights self !! k).
    + now rewrite app_nil_r.
  - cbn [fst snd]. destruct (risk_weights self !! k') as [w'|] eqn:Hk'.
    + specialize (IH {| risk_weights := <[k' := v]> (risk_weights self);
                        max_risk_score := max_risk_score self |} unknown).
      cbn zeta in IH. destruct IH as (Hlook & Hmax & Hunk). repeat split.
      * intros k. rewrite Hlook. cbn [risk_weights last_value].
        destruct (String.eqb_spec k' k) as [->|Hne].
        -- now rewrite lookup_insert_eq, Hk'.
        -- rewrite lookup_insert_ne by exact Hne.
           now destruct (risk_weights self !! k).
      * exact Hmax.
      * rewrite Hunk. cbn [List.filter fst].
        assert (Hw : weighted self k' = true) by (apply weighted_spec; rewrite Hk'; eauto).
        rewrite Hw. cbn [negb]. f_equal. f_equal. apply filter_ext. intros [k v0].
        cbn [fst]. f_equal.
        destruct (weighted self k) eqn:Hwk.
        -- apply weighted_spec. cbn [risk_weights].
           apply weighted_spec in Hwk. destruct Hwk as [x Hx].
           destruct (String.eqb_spec k' k) as [->|Hne];
             [rewrite lookup_insert_eq | rewrite lookup_insert_ne by exact Hne]; eauto.
        -- apply not_true_iff_false. intros Hc. apply weighted_spec in Hc.
           cbn [risk_weights] in Hc. apply not_true_iff_false in Hwk. apply Hwk.
           apply weighted_spec.
           destruct (String.eqb_spec k' k) as [->|Hne]; [rewrite Hk'; eauto|].
           now rewrite lookup_insert_ne in Hc by exact Hne.
    + specialize (IH self (unknown ++ [k'])). cbn zeta in IH.
      destruct IH as (Hlook & Hmax & Hunk). repeat split.
      * intros k. rewrite Hlook. cbn [last_value].
        destruct (String.eqb_spec k' k) as [->|Hne]; [now rewrite Hk'|].
        reflexivity.
      * exact Hmax.
      * rewrite Hunk. cbn [List.filter fst].
        assert (Hw : weighted self k' = false).
        { apply not_true_iff_false. intros Hc. apply weighted_spec in Hc.
          rewrite Hk' in Hc. now destruct Hc. }
        rewrite Hw. cbn [negb map fst]. now rewrite <- app_assoc.
Qed.

(** A later value for the key hides whatever was found before. *)
Lemma last_value_fixed k new_weights :
  (forall found, last_value k new_weights found = found)
  \/ (exists v, forall found, last_value k new_weights found = Some v).
Proof.
  induction new_weights as [|[k' v] rest IH]; cbn [last_value]; [now left|].
  destruct IH as [IH|[v' IH]]; [|right; exists v'; intros; apply IH].
  destruct (String.eqb k' k); [right; exists v; intros; apply IH | left; intros; apply IH].
Qed.

Lemma last_value_kept k new_weights w :
  exists v, last_value k new_weights (Some w) = Some v.
Proof.
  destruct (last_value_fixed k new_weights) as [H|[v H]]; rewrite H; eauto.
Qed.

(** X7. [adjust_weights] writes only under keys the table already has:
    afterwards such a key holds the last value given for it, or its old
    value when none was given; no key is added or removed, the maximal
    score is unchanged, and the keys it did not know are reported in the
    order given. *)
Theorem adjust_weights_updates_known_keys (self : t) (new_weights : list (string * Z)) :
  (forall k,
      risk_weights (fst (adjust_weights self new_weights)) !! k
      = match risk_weights self !! k with
        | Some w => last_value k new_weights (Some w)
        | None => None
        end)
  /\ dom (risk_weights (fst (adjust_weights self new_weights))) = dom (risk_weights self)
  /\ max_risk_score (fst (adjust_weights self new_weights)) = max_risk_score self
  /\ snd (adjust_weights self new_weights)
     = map fst (List.filter (fun kv => negb (weighted self (fst kv))) new_weights).
Proof.
  pose proof (adjust_loop new_weights self []) as (Hlook & Hmax & Hunk).
  split; [exact Hlook|]. split; [|split; [exact Hmax | exact Hunk]].
  apply set_eq. intros k. rewrite !elem_of_dom.
  change (fold_left adjust_step new_weights (self, [])) with (adjust_weights self new_weights)
    in Hlook.
  rewrite Hlook. destruct (risk_weights self !! k) as [w|].
  - destruct (last_value_kept k new_weights w) as [v ->]. split; eauto.
  - reflexivity.
Qed.

Lemma engine_eq (a b : t) :
  risk_weights a = risk_weights b -> max_risk_score a = max_risk_score b -> a = b.
Proof. destruct a, b. cbn. now intros -> ->. Qed.

(** X8. Applying the same new weights a second time changes nothing. *)
Theorem adjust_weights_idempotent (self : t) (new_weights : list (string * Z)) :
  fst (adjust_weights (fst (adjust_weights self new_weights)) new_weights)
  = fst (adjust_weights self new_weights).
Proof.
  pose proof (adjust_weights_lookup_aux := adjust_loop new_weights).
  destruct (adjust_weights_lookup_aux self []) as (Hlook1 & Hmax1 & _).
  destruct (adjust_weights_lookup_aux (fst (adjust_weights self new_weights)) [])
    as (Hlook2 & Hmax2 & _).
  change (fold_left adjust_step new_weights (self, [])) with (adjust_weights self new_weights)
    in *.
  change (fold_left adjust_step new_weights (fst (adjust_weights self new_weights), []))
    with (adjust_weights (fst (adjust_weights self new_weights)) new_weights) in *.
  apply engine_eq; [|congruence].
  apply map_eq. intros k. rewrite Hlook2, Hlook1.
  destruct (risk_weights self !! k) as [w|]; [|reflexivity].
  destruct (last_value_fixed k new_weights) as [Hf|[v Hf]]; now rewrite !Hf.
Qed.

End AdjustWeightsFacts.

(** ** More on the registration intelligence *)

Module DomainIntelligenceExtras.
Import PyStr DomainIntelligence.

Section Analyze.
Context `{Externals}.
Variables (self : t) (hostname : string).

(** What [record_whois] makes of a record: the data of the entry, the
    age, and up to three traits behind those already there. *)
Lemma record_whois_shape result entry :
  record_whois self result entry
  = {| di_domain := di_domain result;
       domain_exists := true;
       creation_date := _get_first_date (whois_creation_date entry);
       expiration_date := _get_first_date (whois_expiration_date entry);
       last_updated := _get_first_date (whois_updated_date entry);
       registrar := whois_registrar entry;
       domain_age_days :=
         match _get_first_date (whois_creation_date entry) with
         | Some created => Some (days (datetime_now - created))
         | None => domain_age_days result
         end;
       di_suspicious_traits :=
         di_suspicious_traits result
         ++ new_domain_traits self (_get_first_date (whois_creation_date entry))
         ++ registrar_traits self (whois_registrar entry)
         ++ short_registration_traits
              (_get_first_date (whois_creation_date entry))
              (_get_first_date (whois_expiration_date entry)) |}.
Proof.
  unfold record_whois, new_domain_traits, registrar_traits, short_registration_traits,
    append_trait, set_traits.
  destruct (_get_first_date (whois_creation_date entry)) as [created|];
    destruct (_get_first_date (whois_expiration_date entry)) as [expires|];
    destruct (whois_registrar entry) as [reg|];
    repeat (cbn [creation_date expiration_date registrar domain_exists domain_age_days
                 di_suspicious_traits di_domain last_updated];
            match goal with
            | |- context [if ?c then _ else _] => destruct c
            end);
    cbn [creation_date expiration_date registrar domain_exists domain_age_days
         di_suspicious_traits di_domain last_updated app];
    rewrite <- ?app_assoc, ?app_nil_r; reflexivity.
Qed.

(** X9. A record that does not say the domain exists gives exactly one
    reason, an IP literal, a failed lookup or a domain unknown to WHOIS,
    and holds no registration data. *)
Theorem absent_domain_has_one_reason :
  let info := fst (analyze self hostname) in
  domain_exists info = false ->
  (exists trait,
      di_suspicious_traits info = [trait]
      /\ (trait_type trait = "ip_address_no_whois"
          \/ trait_type trait = "whois_lookup_failed"
          \/ trait_type trait = "non_existent_domain"))
  /\ creation_date info = None
  /\ expiration_date info = None
  /\ last_updated info = None
  /\ registrar info = None
  /\ domain_age_days info = None.
Proof.
  intros info. subst info.
  unfold analyze.
  destruct (_is_ip_address (strip_port hostname)).
  { intros _. cbn. split; [eexists; split; [reflexivity | now left]|]. repeat split. }
  destruct (whois_whois _) as [entry|e].
  2: { intros _. cbn. split; [eexists; split; [reflexivity | right; now left]|].
       repeat split. }
  destruct (domain_name entry).
  2: { intros _. cbn. split; [eexists; split; [reflexivity | right; now right]|].
       repeat split. }
  cbn [fst]. rewrite record_whois_shape. cbn. discriminate.
Qed.


End Analyze.

(** A host the test double knows nothing about. *)
Lemma absent_domain_has_one_reason_witness :
  domain_exists (fst (@analyze TestDouble.externals init "no-such-host.test")) = false
  /\ (exists trait,
         di_suspicious_traits (fst (@analyze TestDouble.externals init "no-such-host.test"))
         = [trait]
         /\ (trait_type trait = "ip_address_no_whois"
             \/ trait_type trait = "whois_lookup_failed"
             \/ trait_type trait = "non_existent_domain")).
Proof.
  split; [reflexivity|].
  exact (proj1 (@absent_domain_has_one_reason TestDouble.externals init "no-such-host.test"
                  eq_refl)).
Defined.


End DomainIntelligenceExtras.

(** ** More on strings *)

Module PyStrExtras.
Import PyStr PyStrFacts.

Lemma chars_append a b : chars (a +:+ b) = chars a ++ chars b.
Proof.
  unfold chars. induction a as [|c a IH]; [reflexivity|].
  change (String c a +:+ b) with (String c (a +:+ b)).
  cbn [list_ascii_of_string app]. f_equal. exact IH.
Qed.

Lemma starts_with_app p s : starts_with p (p ++ s) = true.
Proof. induction p as [|a p IH]; cbn; [reflexivity|]. now rewrite Ascii.eqb_refl. Qed.

Lemma startswith_append p s : startswith (p +:+ s) p = true.
Proof. unfold startswith. rewrite chars_append. apply starts_with_app. Qed.




End PyStrExtras.

(** ** More on the registration intelligence: the lookup *)

Module LookupFacts.
Import PyStr DomainIntelligence.


End LookupFacts.

(** ** More on the URL parser *)

Module URLParserExtras.
Import PyStr URLParser.

(** The kinds of trait of the parser, in the order of its tests, but
    the hex-encoding kind. *)
#[local] Abbreviation parser_kinds :=
  [ "non_standard_port"; "ip_address"; "private_ip"; "many_subdomains";
    "suspicious_tld"; "punycode"; "long_url"; "special_chars" ].

(** The function is its tests one after the other, cut short by the
    hex-encoding test. *)
Lemma traits_as_tests `{Externals} (self : t) parsed extracted :
  _analyze_suspicious_traits self parsed extracted
  = if hex_pattern_search (netloc parsed) || hex_pattern_search (path parsed)
    then Raise (NameError "url")
    else Ok (special_test parsed
               (length_test parsed
                  (punycode_test parsed
                     (tld_test self extracted
                        (subdomain_test extracted
                           (ip_test parsed (port_test parsed []))))))).
Proof.
  unfold _analyze_suspicious_traits.
  destruct (hex_pattern_search (netloc parsed) || hex_pattern_search (path parsed));
    reflexivity.
Qed.

(** What the tests keep true of the kinds recorded so far. *)
#[local] Abbreviation in_order := (fun (traits : list Trait) (kinds : list string) =>
  sublist (map trait_type traits) kinds
  /\ (In "private_ip" (map trait_type traits) -> In "ip_address" (map trait_type traits))).

Lemma test_in_order (c : bool) (acc : list Trait) (x : Trait) (kinds : list string)
    (kind : string) :
  trait_type x = kind ->
  kind <> "private_ip" ->
  in_order acc kinds ->
  in_order (if c then acc ++ [x] else acc) (kinds ++ [kind]).
Proof.
  intros <- Hx [Hsub Hip]. destruct c.
  - split.
    + rewrite map_app. apply sublist_app; [exact Hsub | reflexivity].
    + rewrite map_app, !in_app_iff. cbn [map In]. intuition congruence.
  - split; [now apply sublist_inserts_r | exact Hip].
Qed.

Lemma ip_test_in_order `{Externals} parsed acc kinds :
  ~ In "private_ip" (map trait_type acc) ->
  sublist (map trait_type acc) kinds ->
  in_order (ip_test parsed acc) (kinds ++ ["ip_address"; "private_ip"]).
Proof.
  intros Hno Hsub. unfold ip_test.
  destruct (ip_pattern_search _).
  - destruct (ip_address_is_private _) as [[|]|]; rewrite ?map_app; cbn [map trait_type].
    + split.
      * rewrite <- app_assoc. apply sublist_app; [exact Hsub | reflexivity].
      * rewrite !in_app_iff. cbn [In]. auto.
    + split.
      * apply sublist_app; [exact Hsub|]. apply sublist_skip, sublist_cons, sublist_nil.
      * rewrite !in_app_iff. cbn [In]. auto.
    + split.
      * apply sublist_app; [exact Hsub|]. apply sublist_skip, sublist_cons, sublist_nil.
      * rewrite !in_app_iff. cbn [In]. auto.
  - split; [now apply sublist_inserts_r | intros Hin; now destruct Hno].
Qed.

Lemma traits_in_order `{Externals} (self : t) parsed extracted traits :
  _analyze_suspicious_traits self parsed extracted = Ok traits ->
  sublist (map trait_type traits) parser_kinds
  /\ (In "private_ip" (map trait_type traits) -> In "ip_address" (map trait_type traits)).
Proof.
  rewrite traits_as_tests.
  destruct (hex_pattern_search (netloc parsed) || hex_pattern_search (path parsed));
    [discriminate|].
  intros Hok. injection Hok as <-.
  unfold special_test; cbv zeta.
  apply (test_in_order _ _ _
           [ "non_standard_port"; "ip_address"; "private_ip"; "many_subdomains";
             "suspicious_tld"; "punycode"; "long_url" ] "special_chars");
    [reflexivity | discriminate |].
  unfold length_test; cbv zeta.
  apply (test_in_order _ _ _
           [ "non_standard_port"; "ip_address"; "private_ip"; "many_subdomains";
             "suspicious_tld"; "punycode" ] "long_url");
    [reflexivity | discriminate |].
  unfold punycode_test.
  apply (test_in_order _ _ _
           [ "non_standard_port"; "ip_address"; "private_ip"; "many_subdomains";
             "suspicious_tld" ] "punycode");
    [reflexivity | discriminate |].
  unfold tld_test.
  apply (test_in_order _ _ _
           [ "non_standard_port"; "ip_address"; "private_ip"; "many_subdomains" ]
           "suspicious_tld");
    [reflexivity | discriminate |].
  unfold subdomain_test; cbv zeta.
  apply (test_in_order _ _ _ [ "non_standard_port"; "ip_address"; "private_ip" ]
           "many_subdomains");
    [reflexivity | discriminate |].
  apply (ip_test_in_order parsed _ ["non_standard_port"]).
  - unfold port_test. cbn zeta. destruct (_ && _); cbn; intuition discriminate.
  - unfold port_test. cbn zeta. destruct (_ && _); cbn;
      [apply sublist_skip, sublist_nil | apply sublist_cons, sublist_nil].
Qed.

(** X12. The traits [parse] returns are of the kinds non_standard_port,
    ip_address, private_ip, many_subdomains, suspicious_tld, punycode,
    long_url and special_chars, each at most once and in this order; a
    private_ip trait comes with an ip_address trait, and no trait is of
    kind hex_encoding. *)
Theorem parse_traits_in_order `{Externals} (self : t) (url : string) (features : UrlFeatures) :
  parse self url = Ok features ->
  sublist (map trait_type (uf_suspicious_traits features))
    [ "non_standard_port"; "ip_address"; "private_ip"; "many_subdomains";
      "suspicious_tld"; "punycode"; "long_url"; "special_chars" ]
  /\ (In "private_ip" (map trait_type (uf_suspicious_traits features)) ->
      In "ip_address" (map trait_type (uf_suspicious_traits features)))
  /\ ~ In "hex_encoding" (map trait_type (uf_suspicious_traits features)).
Proof.
  unfold parse. destruct (urlparse (ensure_scheme url)) as [parsed|e]; [|discriminate].
  cbn [bind].
  destruct (_analyze_suspicious_traits self parsed _) as [traits|e] eqn:Ht; [|discriminate].
  cbn [bind]. intros Hok. injection Hok as <-. cbn [uf_suspicious_traits].
  destruct (traits_in_order _ _ _ _ Ht) as [Hsub Hip].
  split; [exact Hsub|]. split; [exact Hip|].
  intros Hin. apply list_elem_of_In in Hin.
  pose proof (sublist_submseteq _ _ Hsub) as Hm.
  apply (elem_of_submseteq _ _ _ Hin) in Hm. apply list_elem_of_In in Hm.
  cbn in Hm. intuition discriminate.
Qed.

(** The private address of the test double. *)
Lemma parse_traits_in_order_witness :
  exists features,
    @parse TestDouble.externals init "http://192.168.1.1:8080/login" = Ok features
    /\ map trait_type (uf_suspicious_traits features)
       = ["non_standard_port"; "ip_address"; "private_ip"]
    /\ sublist (map trait_type (uf_suspicious_traits features))
         [ "non_standard_port"; "ip_address"; "private_ip"; "many_subdomains";
           "suspicious_tld"; "punycode"; "long_url"; "special_chars" ].
Proof.
  eexists. split; [vm_compute; reflexivity|]. split; [reflexivity|].
  refine (proj1 (@parse_traits_in_order TestDouble.externals init
                   "http://192.168.1.1:8080/login" _ _)).
  vm_compute. reflexivity.
Defined.

Lemma ensure_scheme_fixed url :
  startswith url "http://" || startswith url "https://" = true ->
  ensure_scheme url = url.
Proof. intros Hs. unfold ensure_scheme. now rewrite Hs. Qed.

Lemma ensure_scheme_has_scheme url :
  startswith (ensure_scheme url) "http://" || startswith (ensure_scheme url) "https://"
  = true.
Proof.
  unfold ensure_scheme.
  destruct (startswith url "http://" || startswith url "https://") eqn:Hs; cbn [negb].
  - exact Hs.
  - now rewrite PyStrExtras.startswith_append.
Qed.

(** X13. [parse] works on the URL with a scheme: the URL it reports
    starts with [http://] or [https://], being the input itself when
    that does and [http://] followed by the input otherwise, and parsing
    the reported URL gives the same outcome as parsing the input. *)
Theorem parse_normalises_the_scheme `{Externals} (self : t) (url : string) :
  (startswith (ensure_scheme url) "http://" || startswith (ensure_scheme url) "https://"
   = true)
  /\ ensure_scheme (ensure_scheme url) = ensure_scheme url
  /\ parse self (ensure_scheme url) = parse self url
  /\ (forall features, parse self url = Ok features ->
        uf_url features = ensure_scheme url
        /\ uf_hostname features
           = match urlparse (ensure_scheme url) with
             | Ok parsed => netloc parsed
             | Raise _ => EmptyString
             end).
Proof.
  pose proof (ensure_scheme_has_scheme url) as Hs.
  pose proof (ensure_scheme_fixed _ Hs) as Hfix.
  split; [exact Hs|]. split; [exact Hfix|]. split.
  - unfold parse. now rewrite Hfix.
  - intros features. unfold parse.
    destruct (urlparse (ensure_scheme url)) as [parsed|e]; [|discriminate].
    cbn [bind]. destruct (_analyze_suspicious_traits self parsed _); [|discriminate].
    cbn [bind]. intros Hok. injection Hok as <-. split; reflexivity.
Qed.

(** A URL written without its scheme. *)
Lemma parse_normalises_the_scheme_witness :
  exists features,
    @parse TestDouble.externals init "example.com/login" = Ok features
    /\ uf_url features = "http://example.com/login"
    /\ uf_hostname features = "example.com".
Proof.
  assert (Hrun : exists features,
             @parse TestDouble.externals init "example.com/login" = Ok features)
    by (eexists; vm_compute; reflexivity).
  destruct Hrun as (features & Hrun). exists features. split; [exact Hrun|].
  destruct (proj2 (proj2 (proj2 (@parse_normalises_the_scheme TestDouble.externals init
                                   "example.com/login"))) features Hrun) as (Hurl & Hhost).
  rewrite Hurl, Hhost. split; vm_compute; reflexivity.
Defined.


End URLParserExtras.

(** ** More on the brand matcher *)

Module BrandMatcherExtras.
Import PyStr PyStrFacts BrandMatcher LoopFacts.

(** *** Each pass adds to what is there *)

Lemma subdomain_check_adds extracted acc b :
  subdomain_check extracted acc b = acc ++ subdomain_check extracted [] b.
Proof.
  unfold subdomain_check. destruct (truthy _ && contains _ _); [reflexivity|].
  now rewrite app_nil_r.
Qed.

Lemma exact_brand_adds extracted acc b :
  exact_brand extracted acc b = acc ++ exact_brand extracted [] b.
Proof.
  unfold exact_brand. destruct (contains b (lower (domain extracted))).
  - destruct (String.eqb _ _); [now rewrite app_nil_r|].
    rewrite subdomain_check_adds, (subdomain_check_adds _ ([] ++ _)).
    now rewrite app_assoc.
  - apply subdomain_check_adds.
Qed.

Lemma typo_brand_adds `{Externals} self label acc b :
  typo_brand self label acc b = acc ++ typo_brand self label [] b.
Proof.
  unfold typo_brand. destruct (len b <? 4)%nat; [now rewrite app_nil_r|].
  destruct (_ || _); [|now rewrite app_nil_r].
  destruct (String.eqb _ _); [now rewrite app_nil_r | reflexivity].
Qed.

Lemma homoglyph_entry_adds label b acc entry :
  homoglyph_entry label b acc entry = acc ++ homoglyph_entry label b [] entry.
Proof.
  destruct entry as [o r]. unfold homoglyph_entry.
  destruct (contains o b); [|now rewrite app_nil_r].
  destruct (String.eqb _ _); [reflexivity|].
  destruct (contains _ _); [reflexivity | now rewrite app_nil_r].
Qed.

Lemma homoglyph_brand_adds table label acc b :
  homoglyph_brand table label acc b
  = acc ++ (if (len b <? 4)%nat then []
            else flat_map (homoglyph_entry label b []) table).
Proof.
  unfold homoglyph_brand. destruct (len b <? 4)%nat; [now rewrite app_nil_r|].
  apply (fold_left_view (fun x => x)). intros. apply homoglyph_entry_adds.
Qed.

(** [find_matches] is the three passes one after the other, each going
    through the brands in order. *)
Lemma find_matches_passes `{Externals} self hostname :
  find_matches self hostname
  = flat_map (exact_brand (tldextract_extract hostname) []) (brands self)
    ++ flat_map (typo_brand self (domain (tldextract_extract hostname)) []) (brands self)
    ++ flat_map
         (fun b => if (len b <? 4)%nat then []
                   else flat_map
                          (homoglyph_entry (domain (tldextract_extract hostname)) b [])
                          homoglyphs)
         (brands self).
Proof.
  unfold find_matches, _check_homoglyphs.
  rewrite (fold_left_view (fun x => x) _ _ _ (typo_brand_adds self _)).
  rewrite (fold_left_view (fun x => x) _ _ _ (exact_brand_adds _)).
  rewrite (fold_left_view (fun x => x) _ _ _ (homoglyph_brand_adds homoglyphs _)).
  cbn [app]. now rewrite <- app_assoc.
Qed.

(** *** What is reported, and why *)

Lemma truthy_spec s : truthy s = true <-> s <> EmptyString.
Proof.
  unfold truthy. rewrite negb_true_iff. split.
  - intros Hf Heq. subst s. discriminate.
  - intros Hne. now apply String.eqb_neq.
Qed.

Lemma exact_brand_reason extracted b m :
  In m (exact_brand extracted [] b) <-> exact_reason extracted b m.
Proof.
  unfold exact_brand, subdomain_check, exact_reason.
  destruct (contains b (lower (domain extracted))) eqn:Hc;
    destruct (String.eqb_spec (lower (domain extracted)) (lower b)) as [Heq|Hne];
    destruct (truthy (subdomain extracted)) eqn:Ht;
    destruct (contains b (lower (subdomain extracted))) eqn:Hs;
    cbn [andb app In];
    try (apply truthy_spec in Ht);
    try (apply not_true_iff_false in Ht; rewrite truthy_spec in Ht);
    split; intros Hm;
    repeat match goal with
           | Hx : _ \/ _ |- _ => destruct Hx
           | Hx : _ /\ _ |- _ => destruct Hx
           | Hx : False |- _ => destruct Hx
           end;
    subst; try congruence; try discriminate;
    try (exfalso; tauto);
    try solve [ left; repeat split; auto
              | right; repeat split; auto; try (intros [? ?]; congruence)
              | left; reflexivity
              | right; left; reflexivity
              | auto ].
Qed.

Lemma typo_brand_reason `{Externals} self label b m :
  In m (typo_brand self label [] b) <-> typo_reason self label b m.
Proof.
  unfold typo_brand, typo_reason.
  destruct (Nat.ltb_spec (len b) 4) as [Hshort|Hlong].
  { cbn. split; [tauto | intros (_ & Hl & _); lia]. }
  destruct (Z.leb_spec (fuzzy_threshold self) (fuzz_ratio (lower label) (lower b)));
    destruct (Nat.leb_spec (_levenshtein_distance (lower label) (lower b))
                (levenshtein_threshold self));
    destruct (Nat.ltb_spec 4 (len b));
    destruct (String.eqb_spec (lower label) (lower b)) as [Heq|Hne];
    cbn [orb andb app In];
    (split;
     [ intros Hm; repeat destruct Hm as [Hm|Hm]; try contradiction; subst m;
       repeat split; auto; lia
     | intros (Hm & _ & Hcond & Hneq); try contradiction;
       first [ now left | exfalso; lia | idtac ] ]).
Qed.

Lemma homoglyph_entry_reason label b o r m :
  In m (homoglyph_entry label b [] (o, r))
  <-> contains o b = true
      /\ ((m = homoglyph_attack b label o r /\ lower label = lower (replace b o r))
          \/ (m = partial_homoglyph b label o r
              /\ lower label <> lower (replace b o r)
              /\ contains (lower (replace b o r)) (lower label) = true)).
Proof.
  unfold homoglyph_entry.
  destruct (contains o b) eqn:Hc; [|cbn; split; [tauto | intros [? _]; discriminate]].
  destruct (String.eqb_spec (lower label) (lower (replace b o r))) as [Heq|Hne].
  - cbn. split.
    + intros [<-|[]]. split; [reflexivity|]. left. now split.
    + intros (_ & [[-> _]|(_ & Hn & _)]); [now left | contradiction].
  - destruct (contains (lower (replace b o r)) (lower label)) eqn:Hp; cbn.
    + split.
      * intros [<-|[]]. split; [reflexivity|]. right. repeat split; assumption.
      * intros (_ & [[_ He]|[-> _]]); [contradiction | now left].
    + split; [tauto|].
      intros (_ & [[_ He]|(_ & _ & Hx)]); [contradiction | discriminate].
Qed.

Lemma homoglyph_brand_reason label b m :
  In m (if (len b <? 4)%nat then []
        else flat_map (homoglyph_entry label b []) homoglyphs)
  <-> homoglyph_reason label b m.
Proof.
  unfold homoglyph_reason.
  destruct (Nat.ltb_spec (len b) 4) as [Hshort|Hlong].
  { cbn. split; [tauto | intros [Hl _]; lia]. }
  rewrite in_flat_map. split.
  - intros ([o r] & Hin & Hm). apply homoglyph_entry_reason in Hm as [Hc Hm].
    split; [lia|]. exists o, r. auto.
  - intros (_ & o & r & Hin & Hc & Hm). exists (o, r). split; [exact Hin|].
    apply homoglyph_entry_reason. auto.
Qed.

(** X14. [find_matches] reports a match exactly when one of its three
    passes has a reason for it, for a brand of the list: the brand
    inside the longer domain label; the brand inside the subdomain,
    unless the round was left because the label is the brand; a label
    close to a brand of four characters or more, by similarity or by
    edit distance (brands of five or more); or the label equal to, or
    holding, a brand of four or more rewritten with a table entry. *)
Theorem find_matches_reports_what_has_a_reason `{Externals}
    (self : t) (hostname : string) (m : BrandMatch) :
  In m (find_matches self hostname) <-> reported self hostname m.
Proof.
  rewrite find_matches_passes, !in_app_iff, !in_flat_map. unfold reported. split.
  - intros [(b & Hb & Hm)|[(b & Hb & Hm)|(b & Hb & Hm)]]; exists b; (split; [exact Hb|]).
    + left. now apply exact_brand_reason.
    + right; left. now apply typo_brand_reason.
    + right; right. now apply homoglyph_brand_reason.
  - intros (b & Hb & [Hm|[Hm|Hm]]).
    + left. exists b. split; [exact Hb | now apply exact_brand_reason].
    + right; left. exists b. split; [exact Hb | now apply typo_brand_reason].
    + right; right. exists b. split; [exact Hb | now apply homoglyph_brand_reason].
Qed.

(** *** Once per listing *)

Lemma filter_flat_map {A B} (p : B -> bool) (f : A -> list B) l :
  List.filter p (flat_map f l) = flat_map (fun x => List.filter p (f x)) l.
Proof.
  induction l as [|x l IH]; [reflexivity|]. cbn. now rewrite List.filter_app, IH.
Qed.

Lemma flat_map_nil {A B} (f : A -> list B) l :
  (forall x, f x = []) -> flat_map f l = [].
Proof. intros Hf. induction l as [|x l IH]; [reflexivity|]. cbn. now rewrite Hf, IH. Qed.

Lemma flat_map_repeat {B} (b : string) (x : B) (cond : bool) l :
  flat_map (fun b' => if String.eqb b' b && cond then [x] else []) l
  = repeat x (if cond then count_occ string_dec l b else 0).
Proof.
  induction l as [|b' l IH]; [now destruct cond|].
  cbn [flat_map count_occ]. rewrite IH.
  destruct (String.eqb_spec b' b) as [->|Hne]; destruct cond; cbn [andb app].
  - destruct (string_dec b b); [reflexivity | congruence].
  - reflexivity.
  - destruct (string_dec b' b); [congruence | reflexivity].
  - reflexivity.
Qed.

Section Counting.
Context `{Externals}.
Variables (self : t) (hostname brand : string).

#[local] Abbreviation label := (domain (tldextract_extract hostname)).
#[local] Abbreviation view := (List.filter (is_brand_in_domain_of brand)).

Lemma exact_brand_filtered b :
  view (exact_brand (tldextract_extract hostname) [] b)
  = (if String.eqb b brand
        && (contains brand (lower label) && negb (String.eqb (lower label) (lower brand)))
     then [brand_in_domain brand label] else []).
Proof.
  unfold exact_brand, subdomain_check, is_brand_in_domain_of.
  destruct (String.eqb_spec b brand) as [->|Hb].
  - destruct (contains brand (lower label));
      destruct (String.eqb (lower label) (lower brand));
      destruct (truthy (subdomain (tldextract_extract hostname))
                && contains brand (lower (subdomain (tldextract_extract hostname))));
      cbn; rewrite ?String.eqb_refl; reflexivity.
  - apply String.eqb_neq in Hb.
    destruct (contains b (lower label)); destruct (String.eqb (lower label) (lower b));
      destruct (truthy (subdomain (tldextract_extract hostname))
                && contains b (lower (subdomain (tldextract_extract hostname))));
      cbn; rewrite ?Hb; reflexivity.
Qed.

Lemma typo_brand_filtered b : view (typo_brand self label [] b) = [].
Proof.
  unfold typo_brand. destruct (len b <? 4)%nat; [reflexivity|].
  destruct (_ || _); [|reflexivity].
  destruct (String.eqb (lower label) (lower b)); reflexivity.
Qed.

Lemma homoglyph_entry_filtered b entry : view (homoglyph_entry label b [] entry) = [].
Proof.
  destruct entry as [o r]. unfold homoglyph_entry.
  destruct (contains o b); [|reflexivity].
  destruct (String.eqb (lower label) (lower (replace b o r))); [reflexivity|].
  destruct (contains (lower (replace b o r)) (lower label)); reflexivity.
Qed.

(** X15. [find_matches] returns one brand_in_domain match for a brand
    per time the brand is listed, all equal, when the domain label
    contains the brand and is not the brand itself, and none otherwise. *)
Theorem brand_in_domain_once_per_listing :
  List.filter (is_brand_in_domain_of brand) (find_matches self hostname)
  = repeat (brand_in_domain brand label)
      (if contains brand (lower label) && negb (String.eqb (lower label) (lower brand))
       then count_occ string_dec (brands self) brand
       else 0).
Proof.
  rewrite BrandMatcherExtras.find_matches_passes, !List.filter_app, !filter_flat_map.
  rewrite (flat_map_nil (fun b => view (typo_brand self label [] b)))
    by apply typo_brand_filtered.
  rewrite (flat_map_nil
             (fun b => view (if (len b <? 4)%nat then []
                             else flat_map (homoglyph_entry label b []) homoglyphs))).
  2: { intros b. destruct (len b <? 4)%nat; [reflexivity|].
       rewrite filter_flat_map. apply flat_map_nil. intros e.
       apply homoglyph_entry_filtered. }
  rewrite !app_nil_r.
  rewrite (flat_map_ext _ _ exact_brand_filtered).
  apply flat_map_repeat.
Qed.

End Counting.

End BrandMatcherExtras.

(** ** The domain of a brand itself *)

Module OwnDomainFacts.
Import PyStr PyStrFacts BrandMatcher LoopFacts.

(** *** Lower case is final *)

Lemma lower_char_not_upper c : is_upper (lower_char c) = false.
Proof.
  unfold lower_char. destruct (is_upper c) eqn:Hu; [|exact Hu].
  unfold is_upper in *. rewrite !orb_true_iff, !in_range_spec in Hu.
  pose proof (code_lt_256 c) as Hc.
  apply not_true_iff_false. rewrite !orb_true_iff, !in_range_spec.
  unfold code in *. rewrite nat_ascii_embedding by lia. lia.
Qed.

Lemma lower_char_idempotent c : lower_char (lower_char c) = lower_char c.
Proof. unfold lower_char at 1. now rewrite lower_char_not_upper. Qed.

Lemma starts_with_lowered p :
  forall s, starts_with p (lower_chars s) = true -> lower_chars p = p.
Proof.
  induction p as [|a p IH]; intros [|b s] Hp; cbn in *; try reflexivity; try discriminate.
  apply andb_true_iff in Hp as [Hab Hp]. apply Ascii.eqb_eq in Hab. subst a.
  rewrite lower_char_idempotent. f_equal. now apply (IH s).
Qed.

(** A text found inside a lower-cased text is in lower case. *)
Lemma contains_lowered p s :
  contains_chars p (lower_chars s) = true -> lower_chars p = p.
Proof.
  induction s as [|c s IH]; cbn [contains_chars lower_chars map]; intros Hc.
  - rewrite orb_false_r in Hc. now apply (starts_with_lowered p []).
  - apply orb_true_iff in Hc as [Hc|Hc]; [now apply (starts_with_lowered p (c :: s))|].
    now apply IH.
Qed.

Lemma contains_refl p : contains_chars p p = true.
Proof. destruct p; cbn; [reflexivity|]. now rewrite Ascii.eqb_refl, starts_with_refl. Qed.

(** *** Counting a character *)

Lemma count_char_app c x y : count_char c (x ++ y) = count_char c x + count_char c y.
Proof. unfold count_char. now rewrite List.filter_app, length_app. Qed.

Lemma starts_with_split p :
  forall s, starts_with p s = true -> s = p ++ skipn (length p) s.
Proof.
  induction p as [|a p IH]; intros [|b s] Hp; cbn in *; try reflexivity; try discriminate.
  apply andb_true_iff in Hp as [Hab Hp]. apply Ascii.eqb_eq in Hab. subst b.
  f_equal. now apply IH.
Qed.

Lemma starts_with_count_char c p s :
  starts_with p s = true -> count_char c p <= count_char c s.
Proof.
  intros Hp. apply starts_with_split in Hp.
  apply (f_equal (count_char c)) in Hp. rewrite count_char_app in Hp. lia.
Qed.

Lemma contains_count_char c p s :
  contains_chars p s = true -> count_char c p <= count_char c s.
Proof.
  induction s as [|x s IH]; cbn [contains_chars]; intros Hc.
  - rewrite orb_false_r in Hc. now apply starts_with_count_char.
  - apply orb_true_iff in Hc as [Hc|Hc]; [now apply starts_with_count_char|].
    apply IH in Hc. change (x :: s) with ([x] ++ s). rewrite count_char_app. lia.
Qed.

Section Replace.
Variables (old new : list ascii) (c : ascii).
Hypothesis old_not_empty : old <> [].

#[local] Abbreviation weight := (fun l => count_char c (lower_chars l)).

Lemma weight_app x y : weight (x ++ y) = weight x + weight y.
Proof. unfold lower_chars. rewrite map_app. apply count_char_app. Qed.

Lemma replace_aux_skip s :
  forall k, replace_aux old new k s = replace_aux old new 0 (skipn k s).
Proof.
  induction s as [|x s IH]; intros [|k]; try reflexivity.
  cbn [replace_aux skipn]. apply IH.
Qed.

Lemma count_aux_skip s :
  forall k, count_aux old k s = count_aux old 0 (skipn k s).
Proof.
  induction s as [|x s IH]; intros [|k]; try reflexivity.
  cbn [count_aux skipn]. apply IH.
Qed.

(** Each rewritten occurrence trades the characters of [old] for those
    of [new]. *)
Lemma replace_aux_weight n :
  forall s, length s <= n ->
    weight (replace_aux old new 0 s) + count_aux old 0 s * weight old
    = weight s + count_aux old 0 s * weight new.
Proof.
  induction n as [|n IH]; intros s Hn.
  - destruct s; [reflexivity | cbn in Hn; lia].
  - destruct s as [|x s]; [reflexivity|].
    cbn [replace_aux count_aux]. destruct (starts_with old (x :: s)) eqn:Hp.
    + pose proof (starts_with_split _ _ Hp) as Hs.
      assert (Hold : 1 <= length old) by (destruct old; [congruence | cbn; lia]).
      assert (Hrest : skipn (length old - 1) s = skipn (length old) (x :: s))
        by (destruct (length old) as [|k]; [lia | cbn; now rewrite Nat.sub_0_r]).
      rewrite replace_aux_skip, count_aux_skip, Hrest.
      set (rest := skipn (length old) (x :: s)) in *.
      assert (Hlen : length rest <= n).
      { apply (f_equal (@length ascii)) in Hs. rewrite length_app in Hs.
        cbn [length] in Hs, Hn. lia. }
      specialize (IH rest Hlen).
      apply (f_equal weight) in Hs. rewrite !weight_app in *. lia.
    + cbn [length] in Hn. specialize (IH s ltac:(lia)).
      change (x :: replace_aux old new 0 s) with ([x] ++ replace_aux old new 0 s).
      assert (Hx : weight (x :: s) = weight [x] + weight s)
        by (change (x :: s) with ([x] ++ s); apply weight_app).
      rewrite Hx, !weight_app. lia.
Qed.

(** When [new] has more of the character than [old], the rewritten text
    is not inside the original, case set aside. *)
Lemma replaced_not_inside s :
  weight old < weight new ->
  contains_chars old s = true ->
  contains_chars (lower_chars (replace_chars old new s)) (lower_chars s) = false.
Proof.
  intros Hmore Hc. apply not_true_iff_false. intros Hin.
  apply (contains_count_char c) in Hin.
  pose proof (contains_count old old_not_empty s Hc) as Hn.
  pose proof (replace_aux_weight (length s) s (Nat.le_refl _)) as Hw.
  unfold replace_chars in Hin. destruct old as [|a old']; [congruence|].
  nia.
Qed.

End Replace.

Lemma homoglyphs_add_a_character : Forall adds_a_character homoglyphs.
Proof.
  rewrite BrandMatcherFacts.homoglyphs_items.
  repeat constructor; unfold adds_a_character;
    first [ exists "o"%char; vm_compute; lia
          | exists "0"%char; vm_compute; lia
          | exists "i"%char; vm_compute; lia
          | exists "1"%char; vm_compute; lia
          | exists "s"%char; vm_compute; lia
          | exists "5"%char; vm_compute; lia
          | exists "m"%char; vm_compute; lia
          | exists "n"%char; vm_compute; lia
          | exists "d"%char; vm_compute; lia
          | exists "c"%char; vm_compute; lia
          | exists "w"%char; vm_compute; lia
          | exists "v"%char; vm_compute; lia ].
Qed.

Lemma homoglyphs_keys_not_empty : Forall (fun e => chars (fst e) <> []) homoglyphs.
Proof. rewrite BrandMatcherFacts.homoglyphs_items. repeat constructor; discriminate. Qed.

(** A brand rewritten with a table entry is not inside the brand. *)
Lemma candidate_not_inside_brand o r brand :
  adds_a_character (o, r) -> chars o <> [] ->
  contains o brand = true ->
  contains (lower (replace brand o r)) (lower brand) = false.
Proof.
  intros [c Hc] Ho Hin. unfold contains. rewrite !chars_lower, chars_replace.
  now apply (replaced_not_inside (chars o) (chars r) c Ho).
Qed.

(** *** No match for the brand whose domain it is *)

Section OwnDomain.
Context `{Externals}.
Variables (self : t) (hostname brand : string).

#[local] Abbreviation label := (domain (tldextract_extract hostname)).
#[local] Abbreviation other := (fun m : BrandMatch => match_brand m <> brand).

Hypothesis label_is_brand : lower label = lower brand.

Lemma brand_inside_label : contains brand (lower label) = true -> lower brand = brand.
Proof.
  unfold contains. rewrite chars_lower. intros Hc.
  apply contains_lowered in Hc. apply chars_inj. now rewrite chars_lower.
Qed.

Lemma exact_brand_other acc b :
  Forall other acc -> Forall other (exact_brand (tldextract_extract hostname) acc b).
Proof.
  intros Hacc. unfold exact_brand, subdomain_check.
  destruct (contains b (lower label)) eqn:Hc.
  - destruct (String.eqb_spec (lower label) (lower b)) as [_|Hne]; [exact Hacc|].
    assert (Hb : b <> brand) by (intros ->; now destruct Hne).
    destruct (truthy _ && contains _ _); repeat apply Forall_snoc; auto.
  - destruct (truthy (subdomain (tldextract_extract hostname))
              && contains b (lower (subdomain (tldextract_extract hostname)))) eqn:Hs;
      [|exact Hacc].
    apply Forall_snoc; [exact Hacc|]. cbn. intros ->.
    apply andb_true_iff in Hs as [_ Hs].
    assert (Hlow : lower brand = brand).
    { unfold contains in Hs. rewrite chars_lower in Hs. apply contains_lowered in Hs.
      apply chars_inj. now rewrite chars_lower. }
    unfold contains in Hc. rewrite label_is_brand, Hlow, contains_refl in Hc.
    discriminate.
Qed.

Lemma typo_brand_other acc b :
  Forall other acc -> Forall other (typo_brand self label acc b).
Proof.
  intros Hacc. unfold typo_brand.
  destruct (len b <? 4)%nat; [exact Hacc|].
  destruct (_ || _); [|exact Hacc].
  destruct (String.eqb_spec (lower label) (lower b)) as [_|Hne]; [exact Hacc|].
  apply Forall_snoc; [exact Hacc|]. cbn. intros ->. now destruct Hne.
Qed.

Lemma homoglyph_entry_other acc b entry :
  Forall other acc -> adds_a_character entry -> chars (fst entry) <> [] ->
  Forall other (homoglyph_entry label b acc entry).
Proof.
  intros Hacc Hadds Hkey. destruct entry as [o r]. unfold homoglyph_entry.
  destruct (contains o b) eqn:Hc; [|exact Hacc].
  destruct (String.eqb_spec (lower label) (lower (replace b o r))) as [Heq|_].
  - apply Forall_snoc; [exact Hacc|]. cbn. intros ->.
    pose proof (candidate_not_inside_brand o r brand Hadds Hkey Hc) as Hno.
    rewrite <- Heq, label_is_brand in Hno.
    unfold contains in Hno. rewrite contains_refl in Hno. discriminate.
  - destruct (contains (lower (replace b o r)) (lower label)) eqn:Hin; [|exact Hacc].
    apply Forall_snoc; [exact Hacc|]. cbn. intros ->.
    pose proof (candidate_not_inside_brand o r brand Hadds Hkey Hc) as Hno.
    rewrite label_is_brand in Hin. congruence.
Qed.

Lemma find_matches_other : Forall other (find_matches self hostname).
Proof.
  unfold find_matches. apply Forall_app. split.
  - apply (fold_left_keeps (Forall other)); [apply typo_brand_other|].
    apply (fold_left_keeps (Forall other)); [apply exact_brand_other | constructor].
  - unfold _check_homoglyphs.
    apply (fold_left_keeps (Forall other)); [|constructor].
    intros acc b Hacc. unfold homoglyph_brand.
    destruct (len b <? 4)%nat; [exact Hacc|].
    apply (fold_left_invariant (Forall other)
             (fun e => adds_a_character e /\ chars (fst e) <> []));
      [| | exact Hacc].
    + intros acc' e Hacc' [Ha Hk]. now apply homoglyph_entry_other.
    + apply Forall_and. split;
        [apply homoglyphs_add_a_character | apply homoglyphs_keys_not_empty].
Qed.

End OwnDomain.

(** X16. When the domain label of the host name is a brand, up to case,
    [find_matches] returns no match at all for that brand, of whatever
    kind and whatever the subdomain holds. *)
Theorem own_domain_is_never_matched `{Externals} (self : t) (hostname brand : string) :
  lower (domain (tldextract_extract hostname)) = lower brand ->
  forall m, In m (find_matches self hostname) -> match_brand m <> brand.
Proof.
  intros Hlabel m Hin.
  pose proof (find_matches_other self hostname brand Hlabel) as Hall.
  rewrite List.Forall_forall in Hall. exact (Hall m Hin).
Qed.

(** The host [paypal.PayPal.com]: the brand also in the subdomain. *)
Lemma own_domain_is_never_matched_witness :
  lower (domain (TestDouble.td_extract "paypal.PayPal.com")) = lower "paypal"
  /\ Forall (fun m => match_brand m <> "paypal")
       (@find_matches TestDouble.externals (init None) "paypal.PayPal.com").
Proof.
  split; [reflexivity|].
  apply List.Forall_forall. intros m Hin.
  exact (@own_domain_is_never_matched TestDouble.externals (init None)
           "paypal.PayPal.com" "paypal" eq_refl m Hin).
Defined.

End OwnDomainFacts.

(** ** More on the pipeline *)

Module PhishSniperExtras.
Import PyStr Result PhishSniper LoopFacts.

(** *** Failure, lookups, verbosity *)




(** *** Every signal becomes a factor *)

Lemma trait_kinds_weighted self traits :
  Forall (fun tr => RiskEngine.weighted self (trait_type tr) = true) traits ->
  map factor_type (flat_map (RiskEngine.trait_factor self) traits) = map trait_type traits.
Proof.
  induction 1 as [|tr traits Hw _ IH]; [reflexivity|].
  cbn [flat_map map]. rewrite map_app, IH.
  apply RiskEngineExtras.weighted_true in Hw as [w Hw].
  unfold RiskEngine.trait_factor. now rewrite Hw.
Qed.

Lemma match_kinds_weighted self matches :
  Forall (fun m => RiskEngine.weighted self (match_type m) = true) matches ->
  map factor_type (flat_map (RiskEngine.match_factor self) matches) = map match_type matches.
Proof.
  induction 1 as [|m matches Hw _ IH]; [reflexivity|].
  cbn [flat_map map]. rewrite map_app, IH.
  apply RiskEngineExtras.weighted_true in Hw as [w Hw].
  unfold RiskEngine.match_factor. now rewrite Hw.
Qed.

#[local] Abbreviation known := (fun kind => RiskEngine.weighted RiskEngine.init kind = true).

Lemma parser_kinds_known `{Externals} self parsed extracted traits :
  URLParser._analyze_suspicious_traits self parsed extracted = Ok traits ->
  Forall (fun tr => known (trait_type tr)) traits.
Proof.
  intros Ht. apply URLParserExtras.traits_in_order in Ht as [Hsub _].
  apply List.Forall_forall. intros tr Hin.
  assert (Hk : trait_type tr ∈ map trait_type traits)
    by (apply list_elem_of_In, in_map, Hin).
  apply sublist_submseteq in Hsub.
  apply (elem_of_submseteq _ _ _ Hk) in Hsub.
  apply list_elem_of_In in Hsub. cbn [In] in Hsub.
  repeat (destruct Hsub as [<-|Hsub]; [reflexivity|]). destruct Hsub.
Qed.

Lemma registration_kinds_known `{Externals} self hostname :
  Forall (fun tr => known (trait_type tr))
    (di_suspicious_traits (fst (DomainIntelligence.analyze self hostname))).
Proof.
  unfold DomainIntelligence.analyze.
  destruct (DomainIntelligence._is_ip_address _); [repeat constructor|].
  destruct (whois_whois _) as [entry|e]; [|repeat constructor].
  destruct (domain_name entry); [|repeat constructor].
  cbn [fst]. rewrite DomainIntelligenceExtras.record_whois_shape.
  cbn [di_suspicious_traits app].
  unfold DomainIntelligence.new_domain_traits, DomainIntelligence.registrar_traits,
    DomainIntelligence.short_registration_traits.
  repeat apply Forall_app_2;
    repeat match goal with
           | |- context [match ?x with _ => _ end] => destruct x
           end;
    repeat constructor.
Qed.

Lemma match_kinds_known `{Externals} self hostname :
  Forall (fun m => known (match_type m)) (BrandMatcher.find_matches self hostname).
Proof.
  unfold BrandMatcher.find_matches. apply Forall_app. split.
  - apply (fold_left_keeps (Forall (fun m => known (match_type m)))).
    { intros acc b Hacc. unfold BrandMatcher.typo_brand.
      repeat match goal with
             | |- context [if ?c then _ else _] => destruct c
             end;
        repeat apply Forall_snoc; auto; reflexivity. }
    apply (fold_left_keeps (Forall (fun m => known (match_type m)))); [|constructor].
    intros acc b Hacc. unfold BrandMatcher.exact_brand, BrandMatcher.subdomain_check.
    repeat match goal with
           | |- context [if ?c then _ else _] => destruct c
           end;
      repeat apply Forall_snoc; auto; reflexivity.
  - unfold BrandMatcher._check_homoglyphs.
    apply (fold_left_keeps (Forall (fun m => known (match_type m)))); [|constructor].
    intros acc b Hacc. unfold BrandMatcher.homoglyph_brand.
    destruct (len b <? 4)%nat; [exact Hacc|].
    apply (fold_left_keeps (Forall (fun m => known (match_type m)))); [|exact Hacc].
    intros acc' [o r] Hacc'. unfold BrandMatcher.homoglyph_entry.
    repeat match goal with
           | |- context [if ?c then _ else _] => destruct c
           end;
      repeat apply Forall_snoc; auto; reflexivity.
Qed.

(** What a successful run is made of, for any pipeline. *)
Lemma analyze_factors `{Externals} (self : t) (url : string) (verbose : bool)
    (r : AnalysisResult) (asked : DomainIntelligence.lookups) :
  analyze self url verbose = (Ok r, asked) ->
  exists uf info,
    URLParser.parse (url_parser self) url = Ok uf
    /\ DomainIntelligence.analyze (domain_intelligence self) (uf_hostname uf) = (info, asked)
    /\ risk_factors r
       = RiskEngine.sort_by_weight_desc
           (RiskEngine.factors_of (risk_engine self)
              (all_features uf info
                 (BrandMatcher.find_matches (brand_matcher self) (uf_hostname uf))))
    /\ Result.features r
       = if verbose
         then Some (all_features uf info
                      (BrandMatcher.find_matches (brand_matcher self) (uf_hostname uf)))
         else None.
Proof.
  unfold analyze. intros Hrun.
  destruct (URLParser.parse (url_parser self) url) as [uf|e]; [|discriminate].
  destruct (DomainIntelligence.analyze _ _) as [info asked'] eqn:Hinfo.
  unfold RiskEngine.calculate_risk in Hrun.
  rewrite RiskEngineExtras.recorded_factors in Hrun.
  injection Hrun as <- <-. exists uf, info.
  split; [reflexivity|]. split; [exact Hinfo|]. split; reflexivity.
Qed.

(** X18. In the pipeline as built, every trait of the parser, every
    trait of the registration record and every brand match is turned
    into a risk factor of its kind: the kinds of the returned factors
    are those of the traits and matches of the features, and there are
    as many. *)
Theorem every_signal_becomes_a_factor `{Externals}
    (url : string) (r : AnalysisResult) (asked : DomainIntelligence.lookups) :
  analyze init url true = (Ok r, asked) ->
  exists features,
    Result.features r = Some features
    /\ Permutation (map factor_type (risk_factors r)) (RiskEngine.input_kinds features)
    /\ length (risk_factors r) = RiskEngine.input_count features.
Proof.
  intros Hrun.
  destruct (analyze_factors _ _ _ _ _ Hrun) as (uf & info & Hparse & Hinfo & Hfactors & Hf).
  set (features := all_features uf info _) in *.
  exists features. split; [exact Hf|]. rewrite Hfactors.
  assert (Hkinds : map factor_type (RiskEngine.factors_of RiskEngine.init features)
                   = RiskEngine.input_kinds features).
  { unfold RiskEngine.factors_of, RiskEngine.input_kinds, features, all_features.
    cbn [suspicious_traits domain_info brand_matches default from_option option_map].
    unfold id. rewrite !map_app. f_equal; [|f_equal].
    - apply trait_kinds_weighted.
      unfold URLParser.parse in Hparse.
      destruct (urlparse _) as [parsed|]; [|discriminate]. cbn [bind] in Hparse.
      destruct (URLParser._analyze_suspicious_traits _ _ _) as [traits|] eqn:Ht;
        [|discriminate].
      cbn [bind] in Hparse. injection Hparse as <-. cbn [uf_suspicious_traits].
      now apply parser_kinds_known in Ht.
    - apply trait_kinds_weighted.
      pose proof (registration_kinds_known (domain_intelligence init) (uf_hostname uf))
        as Hk.
      now rewrite Hinfo in Hk.
    - apply match_kinds_weighted, match_kinds_known. }
  change (risk_engine init) with RiskEngine.init.
  split.
  - rewrite <- Hkinds. apply Permutation_map. symmetry. apply RiskEngineFacts.sort_perm.
  - rewrite <- (Permutation_length (RiskEngineFacts.sort_perm _)).
    rewrite <- (length_map factor_type), Hkinds.
    unfold RiskEngine.input_kinds, RiskEngine.input_count.
    rewrite !length_app, !length_map. lia.
Qed.

(** The URL [http://g00gle.tk/login.php]: four signals, four factors. *)
Lemma every_signal_becomes_a_factor_witness :
  exists r asked features,
    @analyze TestDouble.externals init "http://g00gle.tk/login.php" true = (Ok r, asked)
    /\ Result.features r = Some features
    /\ RiskEngine.input_kinds features
       = ["suspicious_tld"; "whois_lookup_failed"; "typosquatting"; "homoglyph_attack"]
    /\ length (risk_factors r) = RiskEngine.input_count features.
Proof.
  assert (Hrun : exists r asked,
             @analyze TestDouble.externals init "http://g00gle.tk/login.php" true
             = (Ok r, asked))
    by (eexists; eexists; vm_compute; reflexivity).
  destruct Hrun as (r & asked & Hrun). exists r, asked.
  destruct (@every_signal_becomes_a_factor TestDouble.externals
              "http://g00gle.tk/login.php" r asked Hrun) as (features & Hf & _ & Hn).
  exists features. split; [exact Hrun|]. split; [exact Hf|]. split; [|exact Hn].
  vm_compute in Hrun. injection Hrun as <- _. cbn in Hf. injection Hf as <-.
  vm_compute. reflexivity.
Defined.

End PhishSniperExtras.

(** ** The web endpoints *)

Module WebFacts.
Import PyStr Result PhishSniper Web LoopFacts.

Section Batch.
Context `{Externals}.
Variable self : PhishSniper.t.
Variable verbose : bool.

Lemma batch_step_append st url :
  batch_step self verbose st url = batch_append st (answer_of self verbose url).
Proof.
  unfold answer_of, batch_step, batch_append.
  destruct st as [[results errors] asked].
  destruct (PhishSniper.analyze self url verbose) as [[r|e] a];
    cbn [app]; now rewrite ?app_nil_r.
Qed.

Lemma batch_append_assoc a b c :
  batch_append (batch_append a b) c = batch_append a (batch_append b c).
Proof.
  destruct a as [[r1 e1] a1], b as [[r2 e2] a2], c as [[r3 e3] a3].
  unfold batch_append. now rewrite <- !app_assoc.
Qed.

Lemma batch_append_nil_r a : batch_append a ([], [], []) = a.
Proof.
  destruct a as [[r1 e1] a1]. unfold batch_append. now rewrite !app_nil_r.
Qed.

Lemma batch_append_nil_l a : batch_append ([], [], []) a = a.
Proof. destruct a as [[r1 e1] a1]. reflexivity. Qed.

Lemma batch_fold urls st :
  fold_left (batch_step self verbose) urls st
  = batch_append st (fold_left (batch_step self verbose) urls ([], [], [])).
Proof.
  revert st. induction urls as [|url urls IH]; intros st; cbn [fold_left].
  - now rewrite batch_append_nil_r.
  - rewrite IH, (IH (batch_step _ _ _ url)), !(batch_step_append _ url).
    now rewrite batch_append_nil_l, batch_append_assoc.
Qed.

Lemma batch_loop_cons url urls :
  batch_loop self (url :: urls) verbose
  = batch_append (answer_of self verbose url) (batch_loop self urls verbose).
Proof. unfold batch_loop. cbn [fold_left]. now rewrite batch_fold. Qed.

End Batch.

(** A result carries the URL it was asked for, and its features are
    the combined features or nothing, as [verbose] says. *)
Lemma analyze_result `{Externals} self url verbose r a :
  PhishSniper.analyze self url verbose = (Ok r, a) ->
  Result.url r = url
  /\ (verbose = false -> features r = None)
  /\ (verbose = true -> exists f, features r = Some f /\ features_truthy f = true).
Proof.
  unfold PhishSniper.analyze.
  destruct (URLParser.parse _ _) as [uf|e]; [|discriminate].
  destruct (DomainIntelligence.analyze _ _) as [info asked].
  destruct (RiskEngine.calculate_risk _ _) as [score factors].
  intros Hrun. injection Hrun as <- _. cbn [Result.url features].
  split; [reflexivity|]. split; intros ->; [reflexivity|].
  eexists. split; reflexivity.
Qed.

(** X19. A batch answers every URL exactly once: the URLs of the
    results are the URLs whose analysis succeeds and the URLs of the
    errors are those whose analysis fails, both in the order of the
    request, so the two lists together are as long as the request. *)
Theorem batch_answers_each_url_once `{Externals}
    (self : PhishSniper.t) (urls : list string) (verbose : bool) :
  let '(results, errors, _) := batch_loop self urls verbose in
  map d_url results = List.filter (fun u => negb (analysis_fails self verbose u)) urls
  /\ map error_url errors = List.filter (analysis_fails self verbose) urls
  /\ length results + length errors = length urls.
Proof.
  induction urls as [|url urls IH].
  - cbn. auto.
  - rewrite batch_loop_cons.
    destruct (batch_loop self urls verbose) as [[results errors] asked].
    destruct IH as (Hr & He & Hn).
    unfold answer_of, batch_step, batch_append. cbn [List.filter].
    assert (Hfails : analysis_fails self verbose url
                     = match fst (PhishSniper.analyze self url verbose) with
                       | Ok _ => false
                       | Raise _ => true
                       end) by reflexivity.
    destruct (PhishSniper.analyze self url verbose) as [[r|e] a] eqn:Hrun;
      cbn [fst] in Hfails; rewrite Hfails;
      cbn [negb app map length d_url to_dict error_url].
    + apply analyze_result in Hrun as (-> & _). repeat split; [now f_equal | exact He | lia].
    + repeat split; [exact Hr | now f_equal | lia].
Qed.

(** X20. A batch is the single endpoint applied to each URL in turn:
    its results are the documents the single endpoint returns, its
    errors carry the messages of the single endpoint's 500 answers, and
    the lookups are those of the single requests one after the other.
    A batch request with a list never gets an error status itself. *)
Theorem batch_is_single_per_url `{Externals}
    (self : PhishSniper.t) (urls : list string) (v : option bool) :
  let verbose := default false v in
  api_batch self (Some {| body_urls := Some urls; body_batch_verbose := v |})
  = (JsonBatch
       (flat_map (fun url => match fst (single self verbose url) with
                             | JsonResult d => [d]
                             | _ => []
                             end) urls)
       (flat_map (fun url => match fst (single self verbose url) with
                             | JsonError _ message =>
                                 [ {| error_url := url; error_text := message |} ]
                             | _ => []
                             end) urls),
     flat_map (fun url => snd (single self verbose url)) urls).
Proof.
  cbv zeta. unfold api_batch. generalize (default false v). intros verbose.
  induction urls as [|url urls IH].
  - reflexivity.
  - rewrite batch_loop_cons.
    destruct (batch_loop self urls verbose) as [[results errors] asked].
    injection IH as -> -> ->.
    unfold answer_of, batch_step, batch_append, single, api_analyze.
    cbn [flat_map default from_option]. unfold id.
    destruct (PhishSniper.analyze self url verbose) as [[r|e] a]; reflexivity.
Qed.

(** X21. The document of the single endpoint names the URL as it was
    sent, and holds the key ["features"] exactly when the request asked
    for a verbose analysis. *)
Theorem single_document_features `{Externals}
    (self : PhishSniper.t) (url : string) (v : option bool) (d : ResultDict)
    (a : DomainIntelligence.lookups) :
  api_analyze self (Some {| body_url := Some url; body_verbose := v |}) = (JsonResult d, a) ->
  d_url d = url /\ (is_Some (d_features d) <-> v = Some true).
Proof.
  unfold api_analyze.
  destruct (PhishSniper.analyze self url (default false v)) as [[r|e] a'] eqn:Hrun;
    [|discriminate].
  intros Hd. injection Hd as <- _.
  apply analyze_result in Hrun as (Hurl & Hquiet & Hverbose).
  split; [exact Hurl|]. unfold to_dict. cbn [d_features].
  destruct v as [[|]|]; cbn [default from_option] in *; unfold id in *.
  - destruct (Hverbose eq_refl) as (f & -> & ->). split; [reflexivity | now eexists].
  - rewrite (Hquiet eq_refl). split; [intros [? ?]; discriminate | discriminate].
  - rewrite (Hquiet eq_refl). split; [intros [? ?]; discriminate | discriminate].
Qed.

(** A verbose request for [http://example.com/]. *)
Lemma single_document_features_witness :
  exists d a,
    @api_analyze TestDouble.externals PhishSniper.init
      (Some {| body_url := Some "http://example.com/"; body_verbose := Some true |})
    = (JsonResult d, a)
    /\ d_url d = "http://example.com/" /\ is_Some (d_features d).
Proof.
  assert (Hrun : exists d a,
             @api_analyze TestDouble.externals PhishSniper.init
               (Some {| body_url := Some "http://example.com/"; body_verbose := Some true |})
             = (JsonResult d, a))
    by (eexists; eexists; vm_compute; reflexivity).
  destruct Hrun as (d & a & Hrun). exists d, a. split; [exact Hrun|].
  destruct (@single_document_features TestDouble.externals PhishSniper.init
              "http://example.com/" (Some true) d a Hrun) as (Hurl & Hf).
  split; [exact Hurl | now apply Hf].
Defined.

End WebFacts.

(** ** The command line *)

Module StripFacts.
Import PyStr PyStrFacts.

(** A list of characters that does not begin with white space. *)
#[local] Abbreviation clean := (fun (s : list ascii) =>
  match s with
  | [] => True
  | c :: _ => isspace c = false
  end).

Lemma lstrip_chars_clean s : clean (lstrip_chars s).
Proof.
  induction s as [|c s IH]; cbn [lstrip_chars]; [exact I|].
  destruct (isspace c) eqn:Hc; [exact IH | exact Hc].
Qed.

Lemma lstrip_chars_fixed s : clean s -> lstrip_chars s = s.
Proof. destruct s as [|c s]; cbn [lstrip_chars]; [reflexivity|]. now intros ->. Qed.

Lemma lstrip_chars_suffix s : exists pre, s = pre ++ lstrip_chars s.
Proof.
  induction s as [|c s [pre IH]]; cbn [lstrip_chars]; [now exists []|].
  destruct (isspace c).
  - exists (c :: pre). cbn [app]. now f_equal.
  - now exists [].
Qed.

(** Stripping a stripped text changes nothing. *)
Lemma strip_chars_idempotent s : strip_chars (strip_chars s) = strip_chars s.
Proof.
  unfold strip_chars.
  pose proof (lstrip_chars_clean s) as Hclean.
  set (a := lstrip_chars s) in *.
  pose proof (lstrip_chars_clean (rev a)) as Hb.
  destruct (lstrip_chars_suffix (rev a)) as [pre Hpre].
  set (b := lstrip_chars (rev a)) in *.
  assert (Ha : a = rev b ++ rev pre).
  { rewrite <- (rev_involutive a), Hpre. apply rev_app_distr. }
  assert (Hr : clean (rev b)).
  { destruct (rev b) as [|c r] eqn:Hrev; [exact I|].
    rewrite Ha in Hclean. exact Hclean. }
  rewrite (lstrip_chars_fixed (rev b) Hr), rev_involutive.
  now rewrite (lstrip_chars_fixed b Hb).
Qed.

Lemma strip_idempotent s : strip (strip s) = strip s.
Proof. unfold strip. now rewrite chars_of_chars, strip_chars_idempotent. Qed.

End StripFacts.

Module CliFacts.
Import PyStr Result PhishSniper Cli LoopFacts.

(** The results of the loop over the URLs of a file. *)
Lemma file_loop `{Externals} self verbose urls :
  fold_left (file_step self verbose) urls ([], [])
  = (flat_map (fun url => match fst (PhishSniper.analyze self url verbose) with
                          | Ok r => [r]
                          | Raise _ => []
                          end) urls,
     flat_map (fun url => snd (PhishSniper.analyze self url verbose)) urls).
Proof.
  apply injective_projections; cbn [fst snd].
  - rewrite (fold_left_view fst
               (fun url => match fst (PhishSniper.analyze self url verbose) with
                           | Ok r => [r]
                           | Raise _ => []
                           end) (file_step self verbose) urls); [reflexivity|].
    intros [results asked] url. unfold file_step.
    destruct (PhishSniper.analyze self url verbose) as [[r|e] a]; cbn [fst];
      now rewrite ?app_nil_r.
  - rewrite (fold_left_view snd
               (fun url => snd (PhishSniper.analyze self url verbose))
               (file_step self verbose) urls); [reflexivity|].
    intros [results asked] url. unfold file_step.
    destruct (PhishSniper.analyze self url verbose) as [[r|e] a]; reflexivity.
Qed.

Lemma flat_map_at_most_one {A B} (f : A -> list B) l :
  (forall x, length (f x) <= 1) -> length (flat_map f l) <= length l.
Proof.
  intros Hf. induction l as [|x l IH]; cbn [flat_map length]; [lia|].
  rewrite length_app. specialize (Hf x). lia.
Qed.

(** X22. The URLs analysed from a file are its lines with the white
    space taken off both ends, blank lines left out: none of them is
    empty and none begins or ends with white space.  The results are
    those of the URLs whose analysis succeeds, in the order of the
    file, so there are at most as many results as lines. *)
Theorem file_results_follow_the_lines `{Externals}
    (read_lines : string -> result (list string)) (file_path : string)
    (self : PhishSniper.t) (verbose : bool) (lines : list string) :
  read_lines file_path = Ok lines ->
  let results := fst (analyze_urls_from_file read_lines file_path self verbose) in
  Forall (fun url => url <> EmptyString /\ strip url = url) (urls_of_lines lines)
  /\ map Result.url results
     = List.filter (fun url => negb (Web.analysis_fails self verbose url))
         (urls_of_lines lines)
  /\ length results <= length lines.
Proof.
  intros Hread. cbv zeta. unfold analyze_urls_from_file. rewrite Hread, file_loop.
  cbn [fst]. split; [|split].
  - unfold urls_of_lines. apply List.Forall_forall. intros url Hin.
    apply in_map_iff in Hin as (line & <- & Hin).
    apply List.filter_In in Hin as [_ Hline].
    split; [now apply BrandMatcherExtras.truthy_spec | apply StripFacts.strip_idempotent].
  - induction (urls_of_lines lines) as [|url urls IH]; [reflexivity|].
    cbn [flat_map List.filter]. rewrite map_app, IH.
    assert (Hfails : Web.analysis_fails self verbose url
                     = match fst (PhishSniper.analyze self url verbose) with
                       | Ok _ => false
                       | Raise _ => true
                       end) by reflexivity.
    destruct (PhishSniper.analyze self url verbose) as [[r|e] a] eqn:Hrun;
      cbn [fst] in Hfails; rewrite Hfails; cbn [fst negb map app].
    + apply WebFacts.analyze_result in Hrun as (-> & _). reflexivity.
    + reflexivity.
  - etransitivity.
    + apply flat_map_at_most_one. intros url.
      destruct (fst (PhishSniper.analyze self url verbose)); cbn; lia.
    + unfold urls_of_lines. rewrite length_map. apply List.filter_length_le.
Qed.

(** A file of three lines: a URL with white space around it, a blank
    line, and a URL the parser fails on. *)
Lemma file_results_follow_the_lines_witness :
  let read_lines := fun _ : string =>
    Ok [" http://example.com/ "; "   "; "http://example.com/%41"] in
  map Result.url
    (fst (@analyze_urls_from_file TestDouble.externals read_lines "urls.txt"
            PhishSniper.init false))
  = ["http://example.com/"].
Proof.
  intros read_lines.
  rewrite (proj1 (proj2 (@file_results_follow_the_lines TestDouble.externals read_lines
                           "urls.txt" PhishSniper.init false
                           [" http://example.com/ "; "   "; "http://example.com/%41"]
                           eq_refl))).
  vm_compute. reflexivity.
Defined.

(** X23. The exit code of [main]: 1 when neither a URL nor a file is
    given and when the analysis of the given URL fails, 0 in every
    other case, whatever happens to the file.  With exit code 1 no
    result is printed or saved and the file is not read.  What is saved
    is the documents of the printed results, under the name given, and
    only when there is a result. *)
Theorem main_exit_code `{Externals}
    (read_lines : string -> result (list string)) (args : Args) :
  let out := main read_lines args in
  let url_fails :=
    match arg_url args with
    | Some url => truthy url && Web.analysis_fails PhishSniper.init (arg_verbose args) url
    | None => false
    end in
  exit_code out
  = (if (negb (given (arg_url args)) && negb (given (arg_file args))) || url_fails
     then 1 else 0)%Z
  /\ (exit_code out = 1%Z ->
      printed out = [] /\ saved out = None /\ file_read out = false)
  /\ (file_read out = true -> given (arg_file args) = true)
  /\ (forall output documents,
        saved out = Some (output, documents) ->
        arg_output args = Some output
        /\ documents = map to_dict (printed out)
        /\ printed out <> []).
Proof.
  cbv zeta. unfold main, analyze_url, Web.analysis_fails.
  destruct args as [url file verbose output debug brands_file].
  cbn [arg_url arg_file arg_verbose arg_output].
  generalize PhishSniper.init. intros self.
  destruct url as [url|]; cbn [given];
    [destruct (truthy url) eqn:Hurl;
       [destruct (PhishSniper.analyze self url verbose) as [[r|e] a]|]|];
    (destruct file as [file|]; cbn [given];
       [destruct (truthy file) eqn:Hfile;
          [destruct (analyze_urls_from_file read_lines file self verbose)
             as [file_results a']|]|]);
    cbn [exit_code printed file_read saved app negb andb orb fst];
    (split; [reflexivity|]);
    (split; [intros Hexit; first [discriminate Hexit | now repeat split]|]);
    (split; [intros Hread; first [discriminate Hread | reflexivity]|]);
    intros o ds Hs; try discriminate Hs;
    (destruct output as [o'|]; [|discriminate Hs]);
    try (destruct file_results as [|r' rs]; [discriminate Hs|]);
    (destruct (truthy o'); [|discriminate Hs]);
    injection Hs as <- <-; repeat split; discriminate.
Qed.

(** A URL the parser fails on together with a file: exit code 1, and
    the file is not read. *)
Lemma main_exit_code_witness :
  let read_lines := fun _ : string => Ok ["http://example.com/"] in
  let args := {| arg_url := Some "http://example.com/%41";
                 arg_file := Some "urls.txt";
                 arg_verbose := false;
                 arg_output := Some "out.json";
                 arg_debug := false;
                 arg_brands_file := None |} in
  exit_code (@main TestDouble.externals read_lines args) = 1%Z
  /\ file_read (@main TestDouble.externals read_lines args) = false
  /\ saved (@main TestDouble.externals read_lines args) = None.
Proof.
  intros read_lines args.
  destruct (@main_exit_code TestDouble.externals read_lines args) as (Hcode & Hfail & _).
  assert (Hone : exit_code (@main TestDouble.externals read_lines args) = 1%Z).
  { rewrite Hcode. vm_compute. reflexivity. }
  destruct (Hfail Hone) as (_ & Hsaved & Hread). auto.
Defined.

End CliFacts.

(** ** More signs, no lower score *)

Module MonotoneFacts.
Import RiskEngine RiskEngineFacts RiskEngineExtras.

Lemma trait_factors_not_negative (self : t) (traits : list Trait) :
  map_Forall (fun _ w => (0 <= w)%Z) (risk_weights self) ->
  (0 <= sum_weights (flat_map (trait_factor self) traits))%Z.
Proof.
  intros Hw. induction traits as [|tr traits IH]; cbn [flat_map]; [cbn; lia|].
  rewrite sum_weights_app. unfold trait_factor at 1.
  destruct (risk_weights self !! trait_type tr) as [w|] eqn:Hk.
  - apply Hw in Hk. cbn. lia.
  - cbn. lia.
Qed.

(** X24. With a table of weights that holds no negative weight, a URL
    that shows further suspicious traits never gets a lower score. *)
Theorem more_traits_never_lower_the_score
    (self : t) (features : Features) (traits more : list Trait) :
  map_Forall (fun _ w => (0 <= w)%Z) (risk_weights self) ->
  suspicious_traits features = Some traits ->
  (fst (calculate_risk self features)
   <= fst (calculate_risk self (with_traits features (traits ++ more))))%Z.
Proof.
  intros Hw Htraits. unfold calculate_risk. rewrite !recorded_factors. cbn [fst].
  unfold factors_of, with_traits.
  cbn [suspicious_traits domain_info brand_matches]. rewrite Htraits.
  cbn [default from_option]. unfold id.
  rewrite flat_map_app, !sum_weights_app.
  pose proof (trait_factors_not_negative self more Hw). lia.
Qed.

(** The default weights; a private address on top of a non-standard port. *)
Lemma more_traits_never_lower_the_score_witness :
  let port := {| trait_type := "non_standard_port";
                 trait_value := Py.VStr "8080";
                 trait_description := "Non-standard port 8080 in use" |} in
  let private := {| trait_type := "private_ip";
                    trait_value := Py.VStr "10.0.0.1";
                    trait_description := "Private IP address used" |} in
  let features := {| url_features := None;
                     suspicious_traits := Some [port];
                     domain_info := None;
                     brand_matches := None |} in
  (fst (calculate_risk init features)
   <= fst (calculate_risk init (with_traits features ([port] ++ [private]))))%Z.
Proof.
  intros port private features.
  apply (more_traits_never_lower_the_score init features [port] [private]).
  - apply map_Forall_to_list. vm_compute. repeat constructor; discriminate.
  - reflexivity.
Defined.

End MonotoneFacts.
